(** * Updater: the OTA update engine of src/Updater.cpp

    A shallow embedding of [UpdateClass] (src/src/Updater.cpp).  The engine
    object is a record, every member function is a function on that record
    and on the [World] (the flash partitions, the boot selection and a trace
    of the calls made to the external collaborators).  [size_t] and
    [uint32_t] values are 32-bit: they are [Z] with the wrap-around written
    out. *)

From Stdlib Require Import ZArith Lia String Bool.
From stdpp Require Import base list.

Local Open Scope Z_scope.

(** ** Constants of the headers *)

(** Modelled from the spec: [Update.h] and the SDK headers are not under
    src/.  The values are the ones of the ESP32 Arduino core and of ESP-IDF
    (erase block, encryption block, image magic, target kinds, the
    "unknown size" sentinel). *)
Definition SPI_FLASH_SEC_SIZE : Z := 4096.
Definition ENCRYPTED_BLOCK_SIZE : Z := 16.
Definition ESP_IMAGE_HEADER_MAGIC : Z := 233. (* 0xE9 *)
Definition U_FLASH : Z := 0.
Definition U_SPIFFS : Z := 100.
Definition UPDATE_SIZE_UNKNOWN : Z := 4294967295. (* 0xFFFFFFFF *)

(** What an erased flash byte reads as. *)
Definition ERASED : Z := 255.

(** [size_t] arithmetic wraps at 2^32. *)
Definition SIZE_MOD : Z := 4294967296.
Definition wrap (x : Z) : Z := x mod SIZE_MOD.

(** Modelled from the spec: the error codes are macros of [Update.h]
    ([UPDATE_ERROR_OK] is the value 0 the constructor and [begin] store);
    they are an enumeration here, in the order of [_err2str]. *)
Inductive update_error : Type :=
| UPDATE_ERROR_OK
| UPDATE_ERROR_WRITE
| UPDATE_ERROR_ERASE
| UPDATE_ERROR_READ
| UPDATE_ERROR_SPACE
| UPDATE_ERROR_SIZE
| UPDATE_ERROR_STREAM
| UPDATE_ERROR_MD5
| UPDATE_ERROR_MAGIC_BYTE
| UPDATE_ERROR_ACTIVATE
| UPDATE_ERROR_NO_PARTITION
| UPDATE_ERROR_BAD_ARGUMENT
| UPDATE_ERROR_ABORT
| UPDATE_ERROR_GET_SHA256
| UPDATE_ERROR_PARSE_PUBLIC_KEY
| UPDATE_ERROR_SIGNATURE_NOT_VALID
| UPDATE_ERROR_SIGNATURE_VERIFICATION.

Definition is_ok (e : update_error) : bool :=
  match e with UPDATE_ERROR_OK => true | _ => false end.

Definition _err2str (e : update_error) : string :=
  match e with
  | UPDATE_ERROR_OK => "No Error"
  | UPDATE_ERROR_WRITE => "Flash Write Failed"
  | UPDATE_ERROR_ERASE => "Flash Erase Failed"
  | UPDATE_ERROR_READ => "Flash Read Failed"
  | UPDATE_ERROR_SPACE => "Not Enough Space"
  | UPDATE_ERROR_SIZE => "Bad Size Given"
  | UPDATE_ERROR_STREAM => "Stream Read Timeout"
  | UPDATE_ERROR_MD5 => "MD5 Check Failed"
  | UPDATE_ERROR_MAGIC_BYTE => "Wrong Magic Byte"
  | UPDATE_ERROR_ACTIVATE => "Could Not Activate The Firmware"
  | UPDATE_ERROR_NO_PARTITION => "Partition Could Not be Found"
  | UPDATE_ERROR_BAD_ARGUMENT => "Bad Argument"
  | UPDATE_ERROR_ABORT => "Aborted"
  | UPDATE_ERROR_GET_SHA256 => "Get SHA-256 Failed"
  | UPDATE_ERROR_PARSE_PUBLIC_KEY => "Parse Public Key Failed"
  | UPDATE_ERROR_SIGNATURE_NOT_VALID => "Signature Not Valid"
  | UPDATE_ERROR_SIGNATURE_VERIFICATION => "Firmware Signature Verification Failed"
  end.

(** ** Byte arrays *)

Definition zlen (l : list Z) : Z := Z.of_nat (length l).
Definition ztake (n : Z) (l : list Z) : list Z := take (Z.to_nat n) l.
Definition zdrop (n : Z) (l : list Z) : list Z := drop (Z.to_nat n) l.
Definition byte_at (l : list Z) (i : Z) : Z := default 0 (l !! Z.to_nat i).

(** [splice off data l] overwrites [l] from index [off] on with [data]; the
    array keeps its length (what does not fit is dropped). *)
Definition splice (off : Z) (data l : list Z) : list Z :=
  take (length l)
       (take (Z.to_nat off) l ++ data ++ drop (Z.to_nat off + length data) l).

(** ** The world outside the engine *)

(** The partitions the engine can select. *)
Inductive partition : Type := P_OTA | P_SPIFFS | P_FAT.

(** Calls to the external collaborators, newest first in the trace.  The
    indicator LED and the back-off delay are not recorded. *)
Inductive event : Type :=
| EMalloc (n : Z)
| EFree
| EErase (off len : Z)
| EWrite (off len : Z)
| ERead (off len : Z)
| ESetBoot
| EProgress (done total : Z)
| EMd5Calculate
| ESha256
| EPkParse
| EPkVerify.

Record World : Type := mkWorld {
  ota : option (list Z);              (* next OTA partition, if the table has one *)
  spiffs : option (string * list Z);  (* SPIFFS data partition: label, contents *)
  fat : option (list Z);              (* FAT data partition *)
  boot_target : option partition;     (* partition last marked as boot target *)
  trace : list event
}.

(** The oracles of the environment.  The [nat] argument is the number of
    external calls made so far, so that the same call may succeed at one
    time and fail at another. *)
Record Env : Type := mkEnv {
  malloc_ok : nat -> bool;
  heap_junk : nat -> nat -> Z;        (* contents of freshly allocated memory *)
  erase_ok : nat -> bool;
  write_ok : nat -> bool;
  read_ok : nat -> bool;
  set_boot_ok : nat -> bool;
  md5_hex : list Z -> string;         (* MD5Builder: digest text of the bytes added *)
  sha256 : nat -> list Z -> option (list Z); (* esp_partition_get_sha256 *)
  pubKey_toParse : option string;     (* the configured verification key, or NULL *)
  pk_parse_ok : string -> bool;       (* mbedtls_pk_parse_public_key *)
  pk_verify_ok : string -> list Z -> list Z -> bool (* mbedtls_pk_verify *)
}.

Definition now (w : World) : nat := length (trace w).

Definition log (e : event) (w : World) : World :=
  mkWorld (ota w) (spiffs w) (fat w) (boot_target w) (e :: trace w).

Definition contents (w : World) (p : partition) : option (list Z) :=
  match p with
  | P_OTA => ota w
  | P_SPIFFS => snd <$> spiffs w
  | P_FAT => fat w
  end.

Definition store (w : World) (p : partition) (c : list Z) : World :=
  match p with
  | P_OTA => mkWorld (Some c) (spiffs w) (fat w) (boot_target w) (trace w)
  | P_SPIFFS =>
      mkWorld (ota w) ((fun lc => (fst lc, c)) <$> spiffs w) (fat w)
              (boot_target w) (trace w)
  | P_FAT => mkWorld (ota w) (spiffs w) (Some c) (boot_target w) (trace w)
  end.

Definition set_boot (w : World) (p : partition) : World :=
  mkWorld (ota w) (spiffs w) (fat w) (Some p) (trace w).

(** The contents of the partition a handle points to ([_partition] may be
    NULL). *)
Definition target_contents (w : World) (p : option partition) : list Z :=
  match p with
  | Some q => default [] (contents w q)
  | None => []
  end.

(** A [Stream] source: what [peek()] returns (an [int], -1 when there is
    nothing to peek) and the script of its answers to successive
    [readBytes] calls, an empty answer being a read that timed out.  An
    exhausted script times out for ever. *)
Record Stream : Type := mkStream {
  peek : Z;
  reads : list (list Z)
}.

(** [readBytes(buffer, n)]: at most [n] bytes of the next answer. *)
Definition readBytes (st : Stream) (n : Z) : list Z * Stream :=
  match reads st with
  | [] => ([], st)
  | c :: r => (ztake n c, mkStream (peek st) r)
  end.

(** ** The engine object *)

(** The data members of [UpdateClass].  A pointer is [None] when NULL and
    the block it points to otherwise; [_progress_callback] records whether
    a callback is installed. *)
Record UpdateClass : Type := mkUpdate {
  _error : update_error;
  _buffer : option (list Z);
  _bufferLen : Z;
  _size : Z;
  _progress_callback : bool;
  _progress : Z;
  _paroffset : Z;
  _command : Z;
  _partition : option partition;
  _skipBuffer : option (list Z);
  _target_md5 : string;
  _md5 : list Z;
  _target_signature : string;
  _target_signature_lenght : Z;
  _ledPin : Z;
  _ledOn : bool
}.

Definition set_error (s : UpdateClass) (x : update_error) : UpdateClass :=
  mkUpdate x (_buffer s) (_bufferLen s) (_size s) (_progress_callback s)
    (_progress s) (_paroffset s) (_command s) (_partition s) (_skipBuffer s)
    (_target_md5 s) (_md5 s) (_target_signature s) (_target_signature_lenght s)
    (_ledPin s) (_ledOn s).
Definition set_buffer (s : UpdateClass) (x : option (list Z)) : UpdateClass :=
  mkUpdate (_error s) x (_bufferLen s) (_size s) (_progress_callback s)
    (_progress s) (_paroffset s) (_command s) (_partition s) (_skipBuffer s)
    (_target_md5 s) (_md5 s) (_target_signature s) (_target_signature_lenght s)
    (_ledPin s) (_ledOn s).
Definition set_bufferLen (s : UpdateClass) (x : Z) : UpdateClass :=
  mkUpdate (_error s) (_buffer s) x (_size s) (_progress_callback s)
    (_progress s) (_paroffset s) (_command s) (_partition s) (_skipBuffer s)
    (_target_md5 s) (_md5 s) (_target_signature s) (_target_signature_lenght s)
    (_ledPin s) (_ledOn s).
Definition set_size (s : UpdateClass) (x : Z) : UpdateClass :=
  mkUpdate (_error s) (_buffer s) (_bufferLen s) x (_progress_callback s)
    (_progress s) (_paroffset s) (_command s) (_partition s) (_skipBuffer s)
    (_target_md5 s) (_md5 s) (_target_signature s) (_target_signature_lenght s)
    (_ledPin s) (_ledOn s).
Definition set_progress_callback (s : UpdateClass) (x : bool) : UpdateClass :=
  mkUpdate (_error s) (_buffer s) (_bufferLen s) (_size s) x
    (_progress s) (_paroffset s) (_command s) (_partition s) (_skipBuffer s)
    (_target_md5 s) (_md5 s) (_target_signature s) (_target_signature_lenght s)
    (_ledPin s) (_ledOn s).
Definition set_progress (s : UpdateClass) (x : Z) : UpdateClass :=
  mkUpdate (_error s) (_buffer s) (_bufferLen s) (_size s) (_progress_callback s)
    x (_paroffset s) (_command s) (_partition s) (_skipBuffer s)
    (_target_md5 s) (_md5 s) (_target_signature s) (_target_signature_lenght s)
    (_ledPin s) (_ledOn s).
Definition set_paroffset (s : UpdateClass) (x : Z) : UpdateClass :=
  mkUpdate (_error s) (_buffer s) (_bufferLen s) (_size s) (_progress_callback s)
    (_progress s) x (_command s) (_partition s) (_skipBuffer s)
    (_target_md5 s) (_md5 s) (_target_signature s) (_target_signature_lenght s)
    (_ledPin s) (_ledOn s).
Definition set_command (s : UpdateClass) (x : Z) : UpdateClass :=
  mkUpdate (_error s) (_buffer s) (_bufferLen s) (_size s) (_progress_callback s)
    (_progress s) (_paroffset s) x (_partition s) (_skipBuffer s)
    (_target_md5 s) (_md5 s) (_target_signature s) (_target_signature_lenght s)
    (_ledPin s) (_ledOn s).
Definition set_partition (s : UpdateClass) (x : option partition) : UpdateClass :=
  mkUpdate (_error s) (_buffer s) (_bufferLen s) (_size s) (_progress_callback s)
    (_progress s) (_paroffset s) (_command s) x (_skipBuffer s)
    (_target_md5 s) (_md5 s) (_target_signature s) (_target_signature_lenght s)
    (_ledPin s) (_ledOn s).
Definition set_skipBuffer (s : UpdateClass) (x : option (list Z)) : UpdateClass :=
  mkUpdate (_error s) (_buffer s) (_bufferLen s) (_size s) (_progress_callback s)
    (_progress s) (_paroffset s) (_command s) (_partition s) x
    (_target_md5 s) (_md5 s) (_target_signature s) (_target_signature_lenght s)
    (_ledPin s) (_ledOn s).
Definition set_target_md5 (s : UpdateClass) (x : string) : UpdateClass :=
  mkUpdate (_error s) (_buffer s) (_bufferLen s) (_size s) (_progress_callback s)
    (_progress s) (_paroffset s) (_command s) (_partition s) (_skipBuffer s)
    x (_md5 s) (_target_signature s) (_target_signature_lenght s)
    (_ledPin s) (_ledOn s).
Definition set_md5 (s : UpdateClass) (x : list Z) : UpdateClass :=
  mkUpdate (_error s) (_buffer s) (_bufferLen s) (_size s) (_progress_callback s)
    (_progress s) (_paroffset s) (_command s) (_partition s) (_skipBuffer s)
    (_target_md5 s) x (_target_signature s) (_target_signature_lenght s)
    (_ledPin s) (_ledOn s).
Definition set_target_signature (s : UpdateClass) (x : string) (n : Z)
    : UpdateClass :=
  mkUpdate (_error s) (_buffer s) (_bufferLen s) (_size s) (_progress_callback s)
    (_progress s) (_paroffset s) (_command s) (_partition s) (_skipBuffer s)
    (_target_md5 s) (_md5 s) x n (_ledPin s) (_ledOn s).
Definition set_led (s : UpdateClass) (pin : Z) (on : bool) : UpdateClass :=
  mkUpdate (_error s) (_buffer s) (_bufferLen s) (_size s) (_progress_callback s)
    (_progress s) (_paroffset s) (_command s) (_partition s) (_skipBuffer s)
    (_target_md5 s) (_md5 s) (_target_signature s) (_target_signature_lenght s)
    pin on.

(** [UpdateClass::UpdateClass()]: the members the constructor does not
    name are those of a zero-initialised global object. *)
Definition UpdateClass_new : UpdateClass :=
  mkUpdate UPDATE_ERROR_OK None 0 0 false 0 0 U_FLASH None None
    EmptyString [] EmptyString 0 0 false.

(** Modelled from the spec: [hasError()] is an inline accessor of
    [Update.h], which is not under src/.  A sticky error is a code other
    than [UPDATE_ERROR_OK] ("absent = no error"). *)
Definition hasError (s : UpdateClass) : bool := negb (is_ok (_error s)).

(** Modelled from the spec: [isRunning()] of [Update.h]; a session is
    active while its declared size is nonzero. *)
Definition isRunning (s : UpdateClass) : bool := _size s >? 0.

(** Modelled from the spec: [isFinished()] of [Update.h]; the image is
    fully consumed when the progress has reached the declared size. *)
Definition isFinished (s : UpdateClass) : bool := _progress s =? _size s.

(** Modelled from the spec: [progress()] of [Update.h]. *)
Definition progress (s : UpdateClass) : Z := _progress s.

(** Modelled from the spec: [remaining()] of [Update.h]; the bytes of the
    session that the flushes have not covered yet.  The pending buffer is
    flushed when its length "exactly equals the remaining capacity", so the
    bytes pending in the buffer are not subtracted.  The subtraction is a
    [size_t] one. *)
Definition remaining (s : UpdateClass) : Z := wrap (_size s - _progress s).

(** Modelled from the spec: [getError()] of [Update.h]. *)
Definition getError (s : UpdateClass) : update_error := _error s.

(** ** The partition accessor and the boot selector *)

Section Engine.

Variable E : Env.

(** Modelled from the spec: the partition accessor is an external
    collaborator ([erase], [write], [read] of a byte range, each reporting
    success).  A call succeeds when the environment lets it and the range
    lies inside the partition; an erase leaves [ERASED] bytes, a write
    leaves the bytes written. *)
Definition partitionEraseRange (w : World) (p : option partition)
    (off len : Z) : bool * World :=
  match p with
  | None => (false, w)
  | Some q =>
      let w1 := log (EErase off len) w in
      match contents w q with
      | None => (false, w1)
      | Some c =>
          if erase_ok E (now w) && (off + len <=? zlen c)
          then (true, store w1 q (splice off (replicate (Z.to_nat len) ERASED) c))
          else (false, w1)
      end
  end.

(** [src] is the memory from the source pointer on. *)
Definition partitionWrite (w : World) (p : option partition)
    (off : Z) (src : option (list Z)) (len : Z) : bool * World :=
  match p, src with
  | Some q, Some m =>
      let w1 := log (EWrite off len) w in
      match contents w q with
      | None => (false, w1)
      | Some c =>
          if write_ok E (now w) && (off + len <=? zlen c)
          then (true, store w1 q (splice off (ztake len m) c))
          else (false, w1)
      end
  | _, _ => (false, w)
  end.

Definition partitionRead (w : World) (p : option partition)
    (off len : Z) : option (list Z) * World :=
  match p with
  | None => (None, w)
  | Some q =>
      let w1 := log (ERead off len) w in
      match contents w q with
      | None => (None, w1)
      | Some c =>
          if read_ok E (now w) && (off + len <=? zlen c)
          then (Some (ztake len (zdrop off c)), w1)
          else (None, w1)
      end
  end.

(** [esp_ota_set_boot_partition]: [true] is the 0 (ESP_OK) of the source. *)
Definition esp_ota_set_boot_partition (w : World) (p : option partition)
    : bool * World :=
  match p with
  | None => (false, w)
  | Some q =>
      let w1 := log ESetBoot w in
      if set_boot_ok E (now w) then (true, set_boot w1 q) else (false, w1)
  end.

Definition esp_ota_get_next_update_partition (w : World) : option partition :=
  match ota w with Some _ => Some P_OTA | None => None end.

(** [esp_partition_find_first] for the two data subtypes; a NULL label
    matches any partition of the subtype. *)
Definition find_spiffs (w : World) (label : option string) : option partition :=
  match spiffs w with
  | Some (l, _) =>
      match label with
      | None => Some P_SPIFFS
      | Some x => if String.eqb x l then Some P_SPIFFS else None
      end
  | None => None
  end.

Definition find_fat (w : World) : option partition :=
  match fat w with Some _ => Some P_FAT | None => None end.

Definition partition_size (w : World) (p : option partition) : Z :=
  zlen (target_contents w p).

(** [malloc n]: NULL, or a block of [n] bytes of unspecified contents. *)
Definition malloc (w : World) (n : Z) : option (list Z) * World :=
  let w1 := log (EMalloc n) w in
  if malloc_ok E (now w)
  then (Some (heap_junk E (now w) <$> seq 0 (Z.to_nat n)), w1)
  else (None, w1).

Definition _partitionIsBootable (w : World) (p : option partition)
    : bool * World :=
  match p with
  | None => (false, w)
  | Some _ =>
      match partitionRead w p 0 ENCRYPTED_BLOCK_SIZE with
      | (None, w1) => (false, w1)
      | (Some buf, w1) =>
          if negb (byte_at buf 0 =? ESP_IMAGE_HEADER_MAGIC)
          then (false, w1) else (true, w1)
      end
  end.

(** ** Member functions *)

Definition _enablePartition (s : UpdateClass) (w : World) : bool * World :=
  match _partition s with
  | None => (false, w)
  | Some _ => partitionWrite w (_partition s) 0 (_skipBuffer s) ENCRYPTED_BLOCK_SIZE
  end.

Definition _reset (s : UpdateClass) (w : World) : UpdateClass * World :=
  let w1 := match _buffer s with Some _ => log EFree w | None => w end in
  let s1 := set_buffer s None in
  let s2 := set_bufferLen s1 0 in
  let s3 := set_progress s2 0 in
  let s4 := set_size s3 0 in
  (set_command s4 U_FLASH, w1).

Definition canRollBack (s : UpdateClass) (w : World) : bool * World :=
  match _buffer s with
  | Some _ => (false, w)
  | None => _partitionIsBootable w (esp_ota_get_next_update_partition w)
  end.

Definition rollBack (s : UpdateClass) (w : World) : bool * World :=
  match _buffer s with
  | Some _ => (false, w)
  | None =>
      let p := esp_ota_get_next_update_partition w in
      match _partitionIsBootable w p with
      | (false, w1) => (false, w1)
      | (true, w1) => esp_ota_set_boot_partition w1 p
      end
  end.

Definition begin (size command ledPin : Z) (ledOn : Z) (label : option string)
    (s : UpdateClass) (w : World) : bool * UpdateClass * World :=
  if _size s >? 0 then (false, s, w)
  else
    let s := set_led s ledPin (negb (ledOn =? 0)) in
    let '(s, w) := _reset s w in
    let s := set_error s UPDATE_ERROR_OK in
    let s := set_target_md5 s EmptyString in
    let s := set_md5 s [] in
    if size =? 0 then (false, set_error s UPDATE_ERROR_SIZE, w)
    else
      let sel :=
        if command =? U_FLASH then
          let s := set_partition s (esp_ota_get_next_update_partition w) in
          match _partition s with
          | None => inl (set_error s UPDATE_ERROR_NO_PARTITION)
          | Some _ => inr s
          end
        else if command =? U_SPIFFS then
          let s := set_partition s (find_spiffs w label) in
          let s := set_paroffset s 0 in
          match _partition s with
          | Some _ => inr s
          | None =>
              let s := set_partition s (find_fat w) in
              let s := set_paroffset s 4096 in
              match _partition s with
              | None => inl (set_error s UPDATE_ERROR_NO_PARTITION)
              | Some _ => inr s
              end
          end
        else inl (set_error s UPDATE_ERROR_BAD_ARGUMENT) in
      match sel with
      | inl s => (false, s, w)
      | inr s =>
          let psize := partition_size w (_partition s) in
          let size := if size =? UPDATE_SIZE_UNKNOWN then psize else size in
          if size >? psize then (false, set_error s UPDATE_ERROR_SIZE, w)
          else
            let '(b, w) := malloc w SPI_FLASH_SEC_SIZE in
            let s := set_buffer s b in
            match b with
            | None => (false, s, w)
            | Some _ =>
                let s := set_size s size in
                let s := set_command s command in
                (true, set_md5 s [], w)
            end
      end.

Definition _abort (s : UpdateClass) (w : World) (err : update_error)
    : UpdateClass * World :=
  let '(s, w) := _reset s w in (set_error s err, w).

Definition abort (s : UpdateClass) (w : World) : UpdateClass * World :=
  _abort s w UPDATE_ERROR_ABORT.

(** The first part of [_writeBuffer]: on the first flush of a firmware
    image, check the magic byte and stash the first block.  The result is
    the early return, or the number of bytes to skip. *)
Definition stash_first_block (s : UpdateClass) (w : World)
    : (UpdateClass * World) + (Z * UpdateClass * World) :=
  if (_progress s =? 0) && (_command s =? U_FLASH) then
    if negb (byte_at (default [] (_buffer s)) 0 =? ESP_IMAGE_HEADER_MAGIC)
    then inl (_abort s w UPDATE_ERROR_MAGIC_BYTE)
    else
      let skip := ENCRYPTED_BLOCK_SIZE in
      let '(m, w) := malloc w skip in
      match m with
      | None => inl (set_skipBuffer s None, w)
      | Some _ =>
          inr (skip,
               set_skipBuffer s (Some (ztake skip (default [] (_buffer s)))), w)
      end
  else inr (0, s, w).

Definition _writeBuffer (s : UpdateClass) (w : World)
    : bool * UpdateClass * World :=
  match stash_first_block s w with
  | inl (s, w) => (false, s, w)
  | inr (skip, s, w) =>
      let w :=
        if (_progress s =? 0) && _progress_callback s
        then log (EProgress 0 (_size s)) w else w in
      match partitionEraseRange w (_partition s) (_progress s) SPI_FLASH_SEC_SIZE with
      | (false, w) => let '(s, w) := _abort s w UPDATE_ERROR_ERASE in (false, s, w)
      | (true, w) =>
          match partitionWrite w (_partition s) (wrap (_progress s + skip))
                  (zdrop (skip / 4 * 4) <$> _buffer s)
                  (wrap (_bufferLen s - skip)) with
          | (false, w) =>
              let '(s, w) := _abort s w UPDATE_ERROR_WRITE in (false, s, w)
          | (true, w) =>
              let s :=
                if (_progress s =? 0) && (_command s =? U_FLASH)
                then set_buffer s (splice 0 [ESP_IMAGE_HEADER_MAGIC] <$> _buffer s)
                else s in
              let s :=
                set_md5 s (_md5 s ++ ztake (_bufferLen s) (default [] (_buffer s))) in
              let s := set_progress s (wrap (_progress s + _bufferLen s)) in
              let s := set_bufferLen s 0 in
              let w :=
                if _progress_callback s
                then log (EProgress (_progress s) (_size s)) w else w in
              (true, s, w)
          end
      end
  end.

Definition _verifyHeader (data : Z) (s : UpdateClass) (w : World)
    : bool * UpdateClass * World :=
  if _command s =? U_FLASH then
    if negb (data =? ESP_IMAGE_HEADER_MAGIC)
    then let '(s, w) := _abort s w UPDATE_ERROR_MAGIC_BYTE in (false, s, w)
    else (true, s, w)
  else if _command s =? U_SPIFFS then (true, s, w)
  else (false, s, w).

Definition _verifyEnd (s : UpdateClass) (w : World)
    : bool * UpdateClass * World :=
  if _command s =? U_FLASH then
    let '(enabled, w) := _enablePartition s w in
    let '(bootable, w) :=
      if enabled then _partitionIsBootable w (_partition s) else (false, w) in
    if negb bootable
    then let '(s, w) := _abort s w UPDATE_ERROR_READ in (false, s, w)
    else
      match esp_ota_set_boot_partition w (_partition s) with
      | (false, w) =>
          let '(s, w) := _abort s w UPDATE_ERROR_ACTIVATE in (false, s, w)
      | (true, w) => let '(s, w) := _reset s w in (true, s, w)
      end
  else if _command s =? U_SPIFFS then
    let '(s, w) := _reset s w in (true, s, w)
  else (false, s, w).

Definition setMD5 (expected_md5 : string) (s : UpdateClass)
    : bool * UpdateClass :=
  if negb (Z.of_nat (String.length expected_md5) =? 32) then (false, s)
  else (true, set_target_md5 s expected_md5).

Definition setSignature (expected_signature : string) (s : UpdateClass)
    : bool * UpdateClass :=
  (true, set_target_signature s expected_signature
           (Z.of_nat (String.length expected_signature))).

(** [sscanf(chars + 2*i, "%02x", &byte_array[i])]: white space is skipped,
    then a field of at most two characters is read, an optional sign and
    hexadecimal digits.  [scan_hex2] is the byte stored at [byte_array[i]],
    the low byte of the [unsigned] value read.  A slot that [sscanf] does
    not assign keeps what the memory held: it is 0 here; the three bytes
    that the [unsigned] store writes behind the slot are not modelled. *)
Definition hex_digit (c : Ascii.ascii) : option Z :=
  let n := Z.of_nat (Ascii.nat_of_ascii c) in
  if (48 <=? n) && (n <=? 57) then Some (n - 48)
  else if (65 <=? n) && (n <=? 70) then Some (n - 55)
  else if (97 <=? n) && (n <=? 102) then Some (n - 87)
  else None.

(** [isspace]: the blank and the control characters 9 to 13. *)
Definition is_space (c : Ascii.ascii) : bool :=
  let n := Z.of_nat (Ascii.nat_of_ascii c) in
  (n =? 32) || ((9 <=? n) && (n <=? 13)).

Fixpoint skip_space (chars : string) : string :=
  match chars with
  | String a rest => if is_space a then skip_space rest else chars
  | EmptyString => EmptyString
  end.

(** A sign takes one of the two characters of the field; [true] is [-]. *)
Definition sign_of (c : Ascii.ascii) : option bool :=
  let n := Z.of_nat (Ascii.nat_of_ascii c) in
  if n =? 43 then Some false else if n =? 45 then Some true else None.

Definition scan_hex2 (chars : string) : Z :=
  match skip_space chars with
  | String a rest =>
      match sign_of a with
      | Some negative =>
          match rest with
          | String b _ =>
              match hex_digit b with
              | Some y => if negative then (- y) mod 256 else y
              | None => 0
              end
          | EmptyString => 0
          end
      | None =>
          match hex_digit a with
          | None => 0
          | Some x =>
              match rest with
              | String b _ =>
                  match hex_digit b with Some y => 16 * x + y | None => x end
              | EmptyString => x
              end
          end
      end
  | EmptyString => 0
  end.

Fixpoint charsToBytes (chars : string) (byte_array_len : nat) : list Z :=
  match byte_array_len with
  | O => []
  | S n =>
      scan_hex2 chars ::
      charsToBytes (match chars with
                    | String _ (String _ rest) => rest
                    | _ => EmptyString
                    end) n
  end.

Definition _signatureValid (s : UpdateClass) (w : World)
    : bool * UpdateClass * World :=
  let '(rc, w) := _enablePartition s w in
  if negb rc
  then let '(s, w) := _abort s w UPDATE_ERROR_NO_PARTITION in (false, s, w)
  else
    let digest := sha256 E (now w) (target_contents w (_partition s)) in
    let w := log ESha256 w in
    match digest with
    | None =>
        let '(s, w) := _abort s w UPDATE_ERROR_GET_SHA256 in (false, s, w)
    | Some FWsha_256 =>
        let key := default EmptyString (pubKey_toParse E) in
        let parsed := pk_parse_ok E key in
        let w := log EPkParse w in
        if negb parsed
        then
          let '(s, w) := _abort s w UPDATE_ERROR_SIGNATURE_NOT_VALID in
          (false, s, w)
        else
          let signatureBytesLen := (String.length (_target_signature s) / 2)%nat in
          let signatureBytes :=
            charsToBytes (_target_signature s) signatureBytesLen in
          let verified := pk_verify_ok E key (ztake 32 FWsha_256) signatureBytes in
          let w := log EPkVerify w in
          if negb verified
          then
            let '(s, w) := _abort s w UPDATE_ERROR_SIGNATURE_NOT_VALID in
            (false, s, w)
          else (true, s, w)
    end.

(** The flush of [end(true)]: a pending chunk is written (the result of
    [_writeBuffer] is not looked at) and the size becomes the progress. *)
Definition end_flush (evenIfRemaining : bool) (s : UpdateClass) (w : World)
    : UpdateClass * World :=
  if evenIfRemaining then
    let '(s, w) :=
      if _bufferLen s >? 0
      then let '(_, s, w) := _writeBuffer s w in (s, w)
      else (s, w) in
    (set_size s (progress s), w)
  else (s, w).

(** The rest of [end]: the hash check, the signature check when a key is
    configured, and the activation. *)
Definition end_verify (s : UpdateClass) (w : World)
    : bool * UpdateClass * World :=
  let w := log EMd5Calculate w in
  if negb (String.length (_target_md5 s) =? 0)%nat
     && negb (String.eqb (_target_md5 s) (md5_hex E (_md5 s)))
  then let '(s, w) := _abort s w UPDATE_ERROR_MD5 in (false, s, w)
  else
    match pubKey_toParse E with
    | Some _ =>
        match _signatureValid s w with
        | (false, s, w) =>
            let '(s, w) := _abort s w UPDATE_ERROR_SIGNATURE_VERIFICATION in
            (false, s, w)
        | (true, s, w) => _verifyEnd s w
        end
    | None => _verifyEnd s w
    end.

Definition end_ (evenIfRemaining : bool) (s : UpdateClass) (w : World)
    : bool * UpdateClass * World :=
  if hasError s || (_size s =? 0) then (false, s, w)
  else if negb (isFinished s) && negb evenIfRemaining
  then let '(s, w) := _abort s w UPDATE_ERROR_ABORT in (false, s, w)
  else
    let '(s, w) := end_flush evenIfRemaining s w in
    end_verify s w.

(** [memcpy(_buffer + _bufferLen, data + from, n); _bufferLen += n]. *)
Definition buffer_append (s : UpdateClass) (data : list Z) (from n : Z)
    : UpdateClass :=
  let s1 :=
    set_buffer s (splice (_bufferLen s) (ztake n (zdrop from data)) <$> _buffer s) in
  set_bufferLen s1 (wrap (_bufferLen s + n)).

(** The [while] loop of [write].  It ends with the early return of a
    failed flush ([inl], with the value returned) or falls through ([inr],
    with what is left).  [None]: the fuel did not suffice. *)
Fixpoint write_loop (fuel : nat) (data : list Z) (len left_ : Z)
    (s : UpdateClass) (w : World)
    : option ((Z * UpdateClass * World) + (Z * UpdateClass * World)) :=
  if wrap (_bufferLen s + left_) >? SPI_FLASH_SEC_SIZE then
    match fuel with
    | O => None
    | S fuel =>
        let toBuff := wrap (SPI_FLASH_SEC_SIZE - _bufferLen s) in
        let s := buffer_append s data (wrap (len - left_)) toBuff in
        match _writeBuffer s w with
        | (false, s, w) => Some (inl (wrap (len - left_), s, w))
        | (true, s, w) => write_loop fuel data len (wrap (left_ - toBuff)) s w
        end
    end
  else Some (inr (left_, s, w)).

(** Every round of the loop takes one erase block off [_bufferLen + left_],
    so this many rounds are enough. *)
Definition write_fuel (s : UpdateClass) (len : Z) : nat :=
  S (Z.to_nat (wrap (_bufferLen s + len) / SPI_FLASH_SEC_SIZE)).

(** [write(data, len)], with [len] the length of [data]. *)
Definition write (data : list Z) (s : UpdateClass) (w : World)
    : option (Z * UpdateClass * World) :=
  let len := zlen data in
  if hasError s || negb (isRunning s) then Some (0, s, w)
  else if len >? remaining s
  then let '(s, w) := _abort s w UPDATE_ERROR_SPACE in Some (0, s, w)
  else
    match write_loop (write_fuel s len) data len len s w with
    | None => None
    | Some (inl r) => Some r
    | Some (inr (left_, s, w)) =>
        let s := buffer_append s data (wrap (len - left_)) left_ in
        if _bufferLen s =? remaining s then
          match _writeBuffer s w with
          | (false, s, w) => Some (wrap (len - left_), s, w)
          | (true, s, w) => Some (len, s, w)
          end
        else Some (len, s, w)
    end.

(** The inner [while(!toRead)] loop of [writeStream]: [Some got] is a read
    that delivered bytes, [None] the give-up after 300 consecutive
    time-outs.  The outer [None]: the fuel did not suffice. *)
Fixpoint read_retry (fuel : nat) (timeout_failures : Z) (st : Stream)
    (bytesToRead : Z) : option (option (list Z) * Stream) :=
  match fuel with
  | O => None
  | S fuel =>
      let '(got, st) := readBytes st bytesToRead in
      if zlen got =? 0 then
        let timeout_failures := timeout_failures + 1 in
        if timeout_failures >=? 300 then Some (None, st)
        else read_retry fuel timeout_failures st bytesToRead
      else Some (Some got, st)
  end.

(** The outer [while(remaining())] loop of [writeStream]. *)
Fixpoint stream_loop (fuel : nat) (written : Z) (st : Stream)
    (s : UpdateClass) (w : World)
    : option (Z * UpdateClass * World * Stream) :=
  if remaining s =? 0 then Some (written, s, w, st)
  else
    match fuel with
    | O => None
    | S fuel =>
        let bytesToRead := wrap (SPI_FLASH_SEC_SIZE - _bufferLen s) in
        let bytesToRead :=
          if bytesToRead >? remaining s then remaining s else bytesToRead in
        match read_retry 300 0 st bytesToRead with
        | None => None
        | Some (None, st) =>
            let '(s, w) := _abort s w UPDATE_ERROR_STREAM in
            Some (written, s, w, st)
        | Some (Some got, st) =>
            let toRead := zlen got in
            let s := buffer_append s got 0 toRead in
            if (_bufferLen s =? remaining s)
               || (_bufferLen s =? SPI_FLASH_SEC_SIZE)
            then
              match _writeBuffer s w with
              | (false, s, w) => Some (written, s, w, st)
              | (true, s, w) => stream_loop fuel (wrap (written + toRead)) st s w
              end
            else stream_loop fuel (wrap (written + toRead)) st s w
        end
    end.

Definition writeStream (data : Stream) (s : UpdateClass) (w : World)
    : option (Z * UpdateClass * World * Stream) :=
  if hasError s || negb (isRunning s) then Some (0, s, w, data)
  else
    match _verifyHeader (peek data mod 256) s w with
    | (false, s, w) => let '(s, w) := _reset s w in Some (0, s, w, data)
    | (true, s, w) => stream_loop (S (length (reads data))) 0 data s w
    end.

End Engine.

(** ** Member functions that do not use the environment *)

(** [onProgress(fn)]: [fn] is [true] for a callback and [false] for NULL;
    the call returns the engine itself. *)
Definition onProgress (fn : bool) (s : UpdateClass) : UpdateClass :=
  set_progress_callback s fn.

(** [errorString()]. *)
Definition errorString (s : UpdateClass) : string := _err2str (_error s).

(** [printError(out)]: [out] is the list of the lines printed so far. *)
Definition printError (out : list string) (s : UpdateClass) : list string :=
  out ++ [errorString s].

(** ** Sessions *)

(** The engine is idle: no declared size, no progress, the pending-write
    buffer freed and empty. *)
Definition idle (s : UpdateClass) : Prop :=
  _size s = 0 /\ _progress s = 0 /\ _buffer s = None /\ _bufferLen s = 0.

(** An engine with a sticky error is idle. *)
Definition error_implies_idle (s : UpdateClass) : Prop :=
  hasError s = true -> idle s.

(** Successive [write] calls, one per chunk, each of which accepts all of
    its bytes. *)
Fixpoint write_chunks (E : Env) (chunks : list (list Z)) (s : UpdateClass)
    (w : World) : option (UpdateClass * World) :=
  match chunks with
  | [] => Some (s, w)
  | c :: rest =>
      match write E c s w with
      | Some (n, s, w) =>
          if n =? zlen c then write_chunks E rest s w else None
      | None => None
      end
  end.

(** The first byte of the partition the session writes to. *)
Definition first_byte (s : UpdateClass) (w : World) : Z :=
  byte_at (target_contents w (_partition s)) 0.

(** The environment [E] with another hash function. *)
Definition with_md5 (E : Env) (f : list Z -> string) : Env :=
  mkEnv (malloc_ok E) (heap_junk E) (erase_ok E) (write_ok E) (read_ok E)
        (set_boot_ok E) f (sha256 E) (pubKey_toParse E) (pk_parse_ok E)
        (pk_verify_ok E).

(** The error codes [begin] can leave. *)
Definition begin_error (e : update_error) : Prop :=
  e = UPDATE_ERROR_OK \/ e = UPDATE_ERROR_SIZE
  \/ e = UPDATE_ERROR_NO_PARTITION \/ e = UPDATE_ERROR_BAD_ARGUMENT.

(** The error codes a flush can set. *)
Definition flush_error (e : update_error) : Prop :=
  e = UPDATE_ERROR_MAGIC_BYTE \/ e = UPDATE_ERROR_ERASE
  \/ e = UPDATE_ERROR_WRITE.

(** The error codes the signature check can set. *)
Definition signature_error (e : update_error) : Prop :=
  e = UPDATE_ERROR_NO_PARTITION \/ e = UPDATE_ERROR_GET_SHA256
  \/ e = UPDATE_ERROR_SIGNATURE_NOT_VALID.

(** The error codes the activation can set. *)
Definition activation_error (e : update_error) : Prop :=
  e = UPDATE_ERROR_READ \/ e = UPDATE_ERROR_ACTIVATE.

(** [grows w w']: the trace of [w'] extends the trace of [w]. *)
Definition grows (w w' : World) : Prop := trace w `suffix_of` trace w'.

(** The flush is the first flush of a firmware image. *)
Definition first_flush (s : UpdateClass) : bool :=
  (_progress s =? 0) && (_command s =? U_FLASH).

#[global] Instance partition_eq_dec : EqDecision partition.
Proof. solve_decision. Defined.

(** [same_below n w w']: every partition keeps its length and its first
    [n] bytes from [w] to [w']. *)
Definition same_below (n : nat) (w w' : World) : Prop :=
  forall q,
    match contents w q with
    | Some c =>
        exists c', contents w' q = Some c' /\ length c' = length c
                   /\ forall i, (i < n)%nat -> c' !! i = c !! i
    | None => contents w' q = None
    end.

(** The first block of a firmware session is deferred: once a flush has
    advanced the progress, the first byte of the target partition reads as
    erased. *)
Definition deferred (s : UpdateClass) (w : World) : Prop :=
  _command s = U_FLASH
  /\ 0 <= _progress s < SIZE_MOD
  /\ partition_size w (_partition s) < SIZE_MOD
  /\ (_progress s <> 0 -> first_byte s w = ERASED).

(** What a call that must not expose the first block leaves behind, from
    [(s, w)] to [(s', w')]: the first byte of the target partition reads as
    erased, or the call began before the first flush and has changed no
    partition. *)
Definition unexposed (s : UpdateClass) (w : World) (s' : UpdateClass)
    (w' : World) : Prop :=
  first_byte s' w' = ERASED
  \/ (_progress s = 0 /\ forall q, contents w' q = contents w q).

(** The invariant of the loops of a call that began in [(s0, w0)]. *)
Definition shielded (s0 : UpdateClass) (w0 : World) (s : UpdateClass)
    (w : World) : Prop :=
  deferred s w /\ _partition s = _partition s0 /\ unexposed s0 w0 s w.

(** The bytes of the first block that a firmware image does not flush. *)
Definition stashed (cmd : Z) : Z :=
  if cmd =? U_FLASH then ENCRYPTED_BLOCK_SIZE else 0.

(** [accepted A N cmd s w]: the session of size [N] and kind [cmd] has
    accepted the bytes [A]: the bytes up to the progress are on the target
    partition (the first block of a firmware image in the stash instead),
    the rest is pending in the buffer. *)
Record accepted (A : list Z) (N cmd : Z) (s : UpdateClass) (w : World)
    : Prop := mkAccepted {
  acc_error : _error s = UPDATE_ERROR_OK;
  acc_size : _size s = N;
  acc_cmd : _command s = cmd;
  acc_N : 0 < N < SIZE_MOD;
  acc_progress : 0 <= _progress s;
  acc_bufferLen : 0 <= _bufferLen s <= SPI_FLASH_SEC_SIZE;
  acc_len : _progress s + _bufferLen s = zlen A;
  acc_le : zlen A <= N;
  acc_target :
    exists q c b,
      _partition s = Some q /\ contents w q = Some c /\ zlen c < SIZE_MOD
      /\ N <= zlen c
      /\ _buffer s = Some b /\ zlen b = SPI_FLASH_SEC_SIZE
      /\ (forall i, (i < Z.to_nat (_bufferLen s))%nat ->
                    b !! i = A !! (Z.to_nat (_progress s) + i)%nat)
      /\ (forall i, (Z.to_nat (stashed cmd) <= i < Z.to_nat (_progress s))%nat ->
                    c !! i = A !! i);
  acc_stash :
    cmd = U_FLASH -> _progress s <> 0 ->
    ENCRYPTED_BLOCK_SIZE <= _progress s
    /\ exists k, _skipBuffer s = Some k
                 /\ forall i, (i < Z.to_nat ENCRYPTED_BLOCK_SIZE)%nat ->
                              k !! i = A !! i
}.

(** Between two [write] calls the final chunk is never left pending. *)
Definition settled (N : Z) (s : UpdateClass) : Prop :=
  _bufferLen s = N - _progress s -> _bufferLen s = 0.

(** The session has failed, or it has accepted [A] and left no final
    chunk pending. *)
Definition alive (A : list Z) (N cmd : Z) (s : UpdateClass) (w : World)
    : Prop :=
  hasError s = true \/ (accepted A N cmd s w /\ settled N s).

(** ** Predicates of the further properties *)

(** The partition [begin] selects for a command: the next OTA slot for a
    firmware image; for a data image the SPIFFS partition of the label and,
    when there is none, the FAT partition. *)
Definition begin_target (w : World) (command : Z) (label : option string)
    : option partition :=
  if command =? U_FLASH then esp_ota_get_next_update_partition w
  else if command =? U_SPIFFS then
    match find_spiffs w label with
    | Some q => Some q
    | None => find_fat w
    end
  else None.

(** The settings of the engine that outlive the flushes. *)
Definition same_settings (s s' : UpdateClass) : Prop :=
  _partition s' = _partition s
  /\ _progress_callback s' = _progress_callback s
  /\ _target_md5 s' = _target_md5 s
  /\ _target_signature s' = _target_signature s
  /\ _target_signature_lenght s' = _target_signature_lenght s.

(** [confined p cb w w']: from [w] to [w'] no partition other than [p] has
    changed, the boot selection is the same and, unless a progress callback
    is installed ([cb]), no progress has been reported. *)
Definition confined (p : option partition) (cb : bool) (w w' : World) : Prop :=
  (forall q, Some q <> p -> contents w' q = contents w q)
  /\ boot_target w' = boot_target w
  /\ (cb = false ->
      forall d t, In (EProgress d t) (trace w') -> In (EProgress d t) (trace w)).

(** [touched p cb w w']: as [confined], but for the boot selection. *)
Definition touched (p : option partition) (cb : bool) (w w' : World) : Prop :=
  (forall q, Some q <> p -> contents w' q = contents w q)
  /\ (cb = false ->
      forall d t, In (EProgress d t) (trace w') -> In (EProgress d t) (trace w)).

(** [recorded A s]: the hash has been fed the bytes of [A] that the
    flushes have covered, and a firmware image of which a part has been
    flushed starts with the magic byte. *)
Definition recorded (A : list Z) (s : UpdateClass) : Prop :=
  _md5 s = ztake (_progress s) A
  /\ (_command s = U_FLASH -> _progress s <> 0 ->
      byte_at A 0 = ESP_IMAGE_HEADER_MAGIC).

(** [verify_ready A cmd t w]: the session is ready for the checks of [end]:
    the hash has been fed the bytes [A], which are on the target partition
    but for the first block of a firmware image, which is in the stash and
    starts with the magic byte. *)
Definition verify_ready (A : list Z) (cmd : Z) (t : UpdateClass) (w : World)
    : Prop :=
  _command t = cmd /\ _md5 t = A
  /\ (exists q c,
        _partition t = Some q /\ contents w q = Some c /\ zlen A <= zlen c
        /\ forall i, (Z.to_nat (stashed cmd) <= i < Z.to_nat (zlen A))%nat ->
                     c !! i = A !! i)
  /\ (cmd = U_FLASH -> zlen A <> 0 ->
      ENCRYPTED_BLOCK_SIZE <= zlen A
      /\ byte_at A 0 = ESP_IMAGE_HEADER_MAGIC
      /\ exists k, _skipBuffer t = Some k
                   /\ forall i, (i < Z.to_nat ENCRYPTED_BLOCK_SIZE)%nat ->
                                k !! i = A !! i).

(** The text of a signature: two hexadecimal digits per byte, in lower or
    in upper case.  This is what [charsToBytes] reads back. *)
Definition hex_char (upper : bool) (d : Z) : Ascii.ascii :=
  Ascii.ascii_of_nat
    (Z.to_nat (if d <? 10 then 48 + d else if upper then 55 + d else 87 + d)).

Fixpoint to_hex (upper : bool) (bytes : list Z) : string :=
  match bytes with
  | [] => EmptyString
  | b :: rest =>
      String (hex_char upper (b / 16))
        (String (hex_char upper (b mod 16)) (to_hex upper rest))
  end.

(** The error codes a flush can set in a session of kind [cmd]: the magic
    byte is checked for a firmware image only. *)
Definition flush_error_of (cmd : Z) (e : update_error) : Prop :=
  e = UPDATE_ERROR_ERASE \/ e = UPDATE_ERROR_WRITE
  \/ (e = UPDATE_ERROR_MAGIC_BYTE /\ cmd = U_FLASH).

(** [raises allowed s s']: from [s] to [s'] the error and the kind of the
    session are kept, or the session has been aborted with an error of
    [allowed]. *)
Definition raises (allowed : update_error -> Prop) (s s' : UpdateClass)
    : Prop :=
  (_error s' = _error s /\ _command s' = _command s)
  \/ (allowed (_error s') /\ idle s').

(** The error codes a failed [end] leaves. *)
Definition end_error (e : update_error) : Prop :=
  e = UPDATE_ERROR_ABORT \/ e = UPDATE_ERROR_MD5
  \/ e = UPDATE_ERROR_SIGNATURE_VERIFICATION
  \/ e = UPDATE_ERROR_READ \/ e = UPDATE_ERROR_ACTIVATE.

(** ** Environments and images of the examples *)

(** Every external call succeeds; no verification key is configured. *)
Definition okE : Env :=
  mkEnv (fun _ => true) (fun _ _ => 0) (fun _ => true) (fun _ => true)
        (fun _ => true) (fun _ => true)
        (fun _ => "d41d8cd98f00b204e9800998ecf8427e"%string)
        (fun _ _ => Some (replicate 32 0)) None
        (fun _ => true) (fun _ _ _ => true).

(** A key is configured and every signature verifies. *)
Definition keyE : Env :=
  mkEnv (fun _ => true) (fun _ _ => 0) (fun _ => true) (fun _ => true)
        (fun _ => true) (fun _ => true)
        (fun _ => "d41d8cd98f00b204e9800998ecf8427e"%string)
        (fun _ _ => Some (replicate 32 0)) (Some "PUBLIC KEY"%string)
        (fun _ => true) (fun _ _ _ => true).

(** A key is configured and no signature verifies. *)
Definition badSigE : Env :=
  mkEnv (fun _ => true) (fun _ _ => 0) (fun _ => true) (fun _ => true)
        (fun _ => true) (fun _ => true)
        (fun _ => "d41d8cd98f00b204e9800998ecf8427e"%string)
        (fun _ _ => Some (replicate 32 0)) (Some "PUBLIC KEY"%string)
        (fun _ => true) (fun _ _ _ => false).

(** Erasing fails from the [n]-th external call on. *)
Definition eraseFailE (n : nat) : Env :=
  mkEnv (fun _ => true) (fun _ _ => 0) (fun t => Nat.ltb t n) (fun _ => true)
        (fun _ => true) (fun _ => true)
        (fun _ => "d41d8cd98f00b204e9800998ecf8427e"%string)
        (fun _ _ => Some (replicate 32 0)) None
        (fun _ => true) (fun _ _ _ => true).

(** An OTA partition and a data partition of two erase blocks each; the
    OTA partition holds zeroes, the data partition is erased. *)
Definition w0 : World :=
  mkWorld (Some (replicate (Z.to_nat 8192) 0))
          (Some ("spiffs"%string, replicate (Z.to_nat 8192) ERASED)) None None [].

(** A firmware image of 20 bytes. *)
Definition img20 : list Z :=
  [233; 1; 2; 3; 4; 5; 6; 7; 8; 9; 10; 11; 12; 13; 14; 15; 16; 17; 18; 19].

(** A firmware image of one erase block and one byte. *)
Definition img4097 : list Z := 233 :: replicate (Z.to_nat 4096) 7.

(** A data image of 20 bytes. *)
Definition data20 : list Z :=
  [255; 254; 253; 252; 251; 250; 249; 248; 247; 246; 245; 244; 243; 242;
   241; 240; 239; 238; 237; 236].

(** [begin(size, command)], then the chunks written one after the other. *)
Definition session (E : Env) (size command : Z) (chunks : list (list Z))
    (s : UpdateClass) (w : World) : option (UpdateClass * World) :=
  match begin E size command (-1) 0 None s w with
  | (true, s, w) => write_chunks E chunks s w
  | (false, _, _) => None
  end.

(** ** Basic facts *)

(** Reduce the projections of updated engine records, and nothing else. *)
Ltac st_simpl :=
  cbn [_error _buffer _bufferLen _size _progress_callback _progress _paroffset
       _command _partition _skipBuffer _target_md5 _md5 _target_signature
       _target_signature_lenght _ledPin _ledOn
       set_error set_buffer set_bufferLen set_size set_progress_callback
       set_progress set_paroffset set_command set_partition set_skipBuffer
       set_target_md5 set_md5 set_target_signature set_led fst snd] in *.

Lemma abort_idle s w e : idle (fst (_abort s w e)).
Proof. unfold idle, _abort, _reset; simpl; auto. Qed.

Lemma abort_error s w e : _error (fst (_abort s w e)) = e.
Proof. reflexivity. Qed.

Lemma abort_eta s w e : _abort s w e = (fst (_abort s w e), snd (_abort s w e)).
Proof. apply surjective_pairing. Qed.

Lemma hasError_false s : hasError s = false <-> _error s = UPDATE_ERROR_OK.
Proof. unfold hasError; destruct (_error s); simpl; split; congruence. Qed.

Lemma idle_error_implies_idle s : idle s -> error_implies_idle s.
Proof. intros H _; exact H. Qed.

Lemma ok_error_implies_idle s : _error s = UPDATE_ERROR_OK -> error_implies_idle s.
Proof.
  intros H He. apply hasError_false in H. congruence.
Qed.

(** ** abort *)


(** ** write beyond the remaining size *)

(** C6, as amended: a [write] on a running session without error whose
    length exceeds [remaining()], the declared size minus the progress (the
    bytes pending in the buffer are not subtracted), returns 0, aborts the
    session and sets the sticky error NotEnoughSpace. *)
Theorem write_beyond_remaining (E : Env) (data : list Z) (s : UpdateClass)
    (w : World) :
  hasError s = false ->
  isRunning s = true ->
  zlen data > remaining s ->
  exists s' w',
    write E data s w = Some (0, s', w')
    /\ _error s' = UPDATE_ERROR_SPACE
    /\ idle s'.
Proof.
  intros He Hr Hlen. unfold write. rewrite He, Hr. cbn [orb negb].
  destruct (zlen data >? remaining s) eqn:Hgt; [|lia].
  rewrite (abort_eta s w UPDATE_ERROR_SPACE).
  eexists _, _. split; [reflexivity|]. split.
  - apply abort_error.
  - apply abort_idle.
Qed.

Lemma write_beyond_remaining_witness :
  exists s w,
    session okE 10 U_FLASH [[233; 1; 2; 3; 4]] UpdateClass_new w0 = Some (s, w)
    /\ exists s' w',
      write okE [5; 6; 7; 8; 9; 10; 11; 12; 13; 14; 15] s w = Some (0, s', w')
      /\ _error s' = UPDATE_ERROR_SPACE
      /\ idle s'.
Proof.
  eexists _, _. split; [vm_compute; reflexivity|].
  apply (write_beyond_remaining okE); vm_compute; reflexivity.
Defined.

(** C6, the claim as stated fails: with 10 bytes declared and 5 pending in
    the buffer, a write of 8 bytes exceeds the declared size minus the
    progress minus the buffered bytes (5), yet it is accepted in full and
    no error is set. *)
Lemma write_over_capacity_accepted :
  exists s w,
    session okE 10 U_FLASH [[233; 1; 2; 3; 4]] UpdateClass_new w0 = Some (s, w)
    /\ hasError s = false
    /\ isRunning s = true
    /\ _size s - _progress s - _bufferLen s = 5
    /\ exists s' w',
      write okE [5; 6; 7; 8; 9; 10; 11; 12] s w = Some (8, s', w')
      /\ _error s' = UPDATE_ERROR_OK
      /\ _size s' = 10
      /\ _bufferLen s' = 13.
Proof.
  eexists _, _. split; [vm_compute; reflexivity|].
  repeat split; try (vm_compute; reflexivity).
  eexists _, _. split; [vm_compute; reflexivity|].
  repeat split.
Qed.

(** ** Stream ingestion: the header check *)

(** C4, as amended: when stream ingestion for a flashable target peeks a
    first byte other than the magic byte, the call returns 0 and the
    session is reset to idle, with the sticky error WrongMagicByte set. *)
Theorem writeStream_wrong_magic (E : Env) (data : Stream) (s : UpdateClass)
    (w : World) :
  hasError s = false ->
  isRunning s = true ->
  _command s = U_FLASH ->
  peek data mod 256 <> ESP_IMAGE_HEADER_MAGIC ->
  exists s' w',
    writeStream E data s w = Some (0, s', w', data)
    /\ _error s' = UPDATE_ERROR_MAGIC_BYTE
    /\ idle s'.
Proof.
  intros He Hr Hc Hp. unfold writeStream, _verifyHeader.
  rewrite He, Hr, Hc. cbn [orb negb]. rewrite Z.eqb_refl.
  destruct (peek data mod 256 =? ESP_IMAGE_HEADER_MAGIC) eqn:Hm; [lia|].
  cbn [negb]. unfold _abort, _reset. st_simpl.
  eexists _, _. split; [reflexivity|]. split; [reflexivity|].
  unfold idle; st_simpl; auto.
Qed.

Lemma writeStream_wrong_magic_witness :
  exists s w,
    session okE 20 U_FLASH [] UpdateClass_new w0 = Some (s, w)
    /\ exists s' w',
      writeStream okE (mkStream 0 [img20]) s w
        = Some (0, s', w', mkStream 0 [img20])
      /\ _error s' = UPDATE_ERROR_MAGIC_BYTE
      /\ idle s'.
Proof.
  eexists _, _. split; [vm_compute; reflexivity|].
  apply (writeStream_wrong_magic okE); vm_compute; congruence.
Defined.

(** C4, the claim as stated fails: the stream of a firmware session peeks
    the byte 0, the call returns 0, and a sticky error is recorded. *)
Lemma writeStream_wrong_magic_sets_error :
  exists s w s' w' st',
    session okE 20 U_FLASH [] UpdateClass_new w0 = Some (s, w)
    /\ _command s = U_FLASH
    /\ writeStream okE (mkStream 0 [img20]) s w = Some (0, s', w', st')
    /\ hasError s' = true.
Proof.
  eexists _, _, _, _, _. split; [vm_compute; reflexivity|].
  split; [reflexivity|]. split; vm_compute; reflexivity.
Qed.

(** ** The sticky error *)

Lemma begin_result (E : Env) size command ledPin ledOn label s w r s' w' :
  begin E size command ledPin ledOn label s w = (r, s', w') ->
  (_size s > 0 /\ r = false /\ s' = s /\ w' = w)
  \/ (_size s <= 0 /\ r = true /\ _error s' = UPDATE_ERROR_OK
      /\ _progress s' = 0 /\ _bufferLen s' = 0 /\ _buffer s' <> None)
  \/ (_size s <= 0 /\ r = false /\ begin_error (_error s') /\ idle s').
Proof.
  unfold begin, begin_error, idle.
  destruct (_size s >? 0) eqn:Hs.
  { intros [= <- <- <-]. left. repeat split; lia. }
  assert (Hle : _size s <= 0) by lia. clear Hs.
  intros H. right. revert H. unfold _reset.
  destruct (size =? 0); [intros [= <- <- <-]; st_simpl; right; repeat split; auto; lia|].
  match goal with
  | |- context [match ?sel with inl _ => _ | inr _ => _ end] =>
      assert (Hsel : (exists x, sel = inl x /\ begin_error (_error x) /\ idle x)
                     \/ (exists x, sel = inr x /\ _error x = UPDATE_ERROR_OK
                                   /\ idle x));
      [|destruct Hsel as [(x & -> & Hx)|(x & -> & Hx)]]
  end.
  { unfold begin_error, idle.
    repeat match goal with
    | |- context [if ?c then _ else _] => destruct c eqn:?
    | |- context [match ?c with Some _ => _ | None => _ end] => destruct c eqn:?
    end; st_simpl;
    first [ left; eexists; split; [reflexivity|]; st_simpl; repeat split; auto
          | right; eexists; split; [reflexivity|]; st_simpl; repeat split; auto ]. }
  - intros [= <- <- <-]. right. unfold begin_error, idle in *. repeat split; try tauto; lia.
  - destruct Hx as (Hx1 & Hx2). destruct Hx2 as (Hx2 & Hx3 & Hx4 & Hx5).
    destruct (_ >? _).
    { intros [= <- <- <-]; st_simpl. right. repeat split; auto; lia. }
    destruct (malloc E _ SPI_FLASH_SEC_SIZE) as [[b|] w2]; intros [= <- <- <-]; st_simpl.
    + left. repeat split; auto; try lia; congruence.
    + right. repeat split; auto; lia.
Qed.

(** C7, as amended: a sticky error persists unchanged through [write],
    [writeStream], [end], [setMD5] and [setSignature], which leave an
    errored engine as it is, and through a [begin] that is refused because a
    session is running.  Every other [begin] clears it on entry: none is
    left when it returns true, and when it returns false the error is its
    own (BadSize, NoPartition, BadArgument) or none.  [abort()] replaces it
    with Aborted. *)
Theorem sticky_error_persists (E : Env) (s : UpdateClass) (w : World) :
  hasError s = true ->
  (forall data, write E data s w = Some (0, s, w))
  /\ (forall data, writeStream E data s w = Some (0, s, w, data))
  /\ (forall evenIfRemaining, end_ E evenIfRemaining s w = (false, s, w))
  /\ (forall md5, _error (snd (setMD5 md5 s)) = _error s)
  /\ (forall sig, _error (snd (setSignature sig s)) = _error s)
  /\ (forall size command ledPin ledOn label r s' w',
        begin E size command ledPin ledOn label s w = (r, s', w') ->
        (_size s > 0 /\ r = false /\ s' = s)
        \/ (_size s <= 0 /\ r = true /\ _error s' = UPDATE_ERROR_OK)
        \/ (_size s <= 0 /\ r = false /\ begin_error (_error s')))
  /\ _error (fst (abort s w)) = UPDATE_ERROR_ABORT.
Proof.
  intros He. repeat split.
  - intros data. unfold write. rewrite He. reflexivity.
  - intros data. unfold writeStream. rewrite He. reflexivity.
  - intros b. unfold end_. rewrite He. reflexivity.
  - intros md5. unfold setMD5. destruct (negb _); reflexivity.
  - intros size command ledPin ledOn label r s' w' Hb.
    apply begin_result in Hb. destruct Hb as [H|[H|H]]; tauto.
Qed.

Lemma sticky_error_persists_witness :
  (forall data,
      write okE data (fst (abort UpdateClass_new w0)) (snd (abort UpdateClass_new w0))
      = Some (0, fst (abort UpdateClass_new w0), snd (abort UpdateClass_new w0)))
  /\ _error (fst (abort UpdateClass_new w0)) = UPDATE_ERROR_ABORT.
Proof.
  split; [|reflexivity].
  apply (sticky_error_persists okE (fst (abort UpdateClass_new w0))
           (snd (abort UpdateClass_new w0))).
  reflexivity.
Defined.

(** C7, the claim as stated fails: on an engine whose sticky error is
    Aborted, a [begin] of size 0 fails, and the sticky error is BadSize
    afterwards. *)
Lemma failed_begin_replaces_error :
  hasError (fst (abort UpdateClass_new w0)) = true
  /\ _error (fst (abort UpdateClass_new w0)) = UPDATE_ERROR_ABORT
  /\ exists s' w',
      begin okE 0 U_FLASH (-1) 0 None
            (fst (abort UpdateClass_new w0)) (snd (abort UpdateClass_new w0))
      = (false, s', w')
      /\ _error s' = UPDATE_ERROR_SIZE.
Proof.
  split; [reflexivity|]. split; [reflexivity|].
  eexists _, _. split; reflexivity.
Qed.

(** ** What a flush does to the engine *)

(** Split the branches of the functions unfolded in the hypotheses. *)
Ltac split_branches :=
  cbv beta iota in *;
  repeat match goal with
  | H : context [match ?c with _ => _ end] |- _ =>
      destruct c eqn:?; cbv beta iota in *
  end.

(** A flush succeeds, leaving the error, the size and the target as they
    are; or it aborts the session with an error of its own; or it gives up
    on the allocation of the stash and leaves the session as it is. *)
Lemma writeBuffer_result (E : Env) s w r s' w' :
  _writeBuffer E s w = (r, s', w') ->
  _target_md5 s' = _target_md5 s
  /\ _partition s' = _partition s
  /\ ((r = true /\ _error s' = _error s /\ _size s' = _size s
       /\ _command s' = _command s
       /\ _progress s' = wrap (_progress s + _bufferLen s)
       /\ _bufferLen s' = 0
       /\ (_buffer s = None -> _buffer s' = None))
      \/ (r = false /\ flush_error (_error s') /\ idle s'
          /\ _command s' = U_FLASH)
      \/ (r = false /\ s' = set_skipBuffer s None)).
Proof.
  intros H. unfold _writeBuffer, stash_first_block, _abort, _reset in H.
  unfold flush_error, idle.
  split_branches; simplify_eq; st_simpl;
    (split; [reflexivity|]); (split; [reflexivity|]);
    first [ left; repeat split; auto; intros ->; reflexivity
          | right; left; repeat split; auto; fail
          | right; right; split; reflexivity ].
Qed.

Lemma signatureValid_result (E : Env) s w r s' w' :
  _signatureValid E s w = (r, s', w') ->
  (r = true /\ s' = s)
  \/ (r = false /\ signature_error (_error s') /\ idle s').
Proof.
  intros H. unfold _signatureValid, _abort, _reset in H.
  unfold signature_error, idle.
  split_branches; simplify_eq; st_simpl;
    first [ left; split; reflexivity
          | right; repeat split; auto; fail ].
Qed.

Lemma verifyEnd_result (E : Env) s w r s' w' :
  _verifyEnd E s w = (r, s', w') ->
  (idle s' /\ (activation_error (_error s') \/ _error s' = _error s))
  \/ (r = false /\ s' = s /\ w' = w).
Proof.
  intros H. unfold _verifyEnd, _abort, _reset in H.
  unfold activation_error, idle.
  split_branches; simplify_eq; st_simpl;
    first [ right; repeat split; reflexivity
          | left; repeat split; auto; fail ].
Qed.

Lemma end_flush_result (E : Env) b s w :
  _target_md5 (fst (end_flush E b s w)) = _target_md5 s
  /\ (_error (fst (end_flush E b s w)) = _error s
      \/ (flush_error (_error (fst (end_flush E b s w)))
          /\ idle (fst (end_flush E b s w)))).
Proof.
  unfold end_flush. destruct b; [|auto].
  destruct (_bufferLen s >? 0); [|st_simpl; auto].
  destruct (_writeBuffer E s w) as [[r s1] w1] eqn:Hw.
  apply writeBuffer_result in Hw.
  destruct Hw as (Ht & _ & [H|[H|H]]); st_simpl; unfold progress.
  - split; [exact Ht|]. left; tauto.
  - split; [exact Ht|]. right. destruct H as (_ & He & Hi).
    split; [exact He|]. unfold idle in *; st_simpl. intuition congruence.
  - destruct H as (_ & ->). st_simpl. auto.
Qed.

(** ** The hash check of end *)

Lemma end_verify_mismatch (E : Env) s w :
  _target_md5 s <> EmptyString ->
  _target_md5 s <> md5_hex E (_md5 s) ->
  exists s' w',
    end_verify E s w = (false, s', w')
    /\ _error s' = UPDATE_ERROR_MD5 /\ idle s'.
Proof.
  intros Hset Hne. unfold end_verify.
  destruct (_target_md5 s) as [|c t] eqn:Ht; [congruence|].
  cbn [String.length Nat.eqb negb andb].
  destruct (String.eqb (String c t) (md5_hex E (_md5 s))) eqn:Heq.
  { apply String.eqb_eq in Heq. congruence. }
  cbn [negb]. unfold _abort, _reset. eexists _, _.
  split; [reflexivity|]. split; [reflexivity|].
  unfold idle; st_simpl; auto.
Qed.

Lemma end_verify_no_target (E : Env) s w :
  _target_md5 s = EmptyString ->
  end_verify E s w
  = match pubKey_toParse E with
    | Some _ =>
        match _signatureValid E s (log EMd5Calculate w) with
        | (false, s, w) =>
            let '(s, w) := _abort s w UPDATE_ERROR_SIGNATURE_VERIFICATION in
            (false, s, w)
        | (true, s, w) => _verifyEnd E s w
        end
    | None => _verifyEnd E s (log EMd5Calculate w)
    end.
Proof.
  intros Ht. unfold end_verify. rewrite Ht. reflexivity.
Qed.

Lemma end_verify_no_target_error (E : Env) s w :
  _target_md5 s = EmptyString ->
  _error s <> UPDATE_ERROR_MD5 ->
  _error (snd (fst (end_verify E s w))) <> UPDATE_ERROR_MD5.
Proof.
  intros Ht He. rewrite end_verify_no_target by exact Ht.
  assert (Hv : forall s0 w0, _error s0 <> UPDATE_ERROR_MD5 ->
             _error (snd (fst (_verifyEnd E s0 w0))) <> UPDATE_ERROR_MD5).
  { intros s0 w0 H0.
    destruct (_verifyEnd E s0 w0) as [[r s1] w1] eqn:Hv.
    apply verifyEnd_result in Hv. st_simpl. unfold activation_error in Hv.
    destruct Hv as [(_ & [[->| ->]| ->])|(_ & -> & _)]; congruence. }
  destruct (pubKey_toParse E); [|apply Hv, He].
  destruct (_signatureValid E s _) as [[r s1] w1] eqn:Hs.
  apply signatureValid_result in Hs.
  destruct Hs as [(-> & ->)|(-> & _ & _)]; [apply Hv, He|].
  unfold _abort, _reset; st_simpl. discriminate.
Qed.

(** C5: when an expected hash is set and differs from the hash computed
    over the flushed content (under any normalisation of the two texts),
    [end] fails with HashMismatch, however well the writes went; when no
    expected hash is set, [end] compares no hash (its result does not
    depend on the hash function) and cannot fail with HashMismatch. *)
Theorem end_hash_check (E : Env) (evenIfRemaining : bool) (s : UpdateClass)
    (w : World) :
  hasError s = false ->
  _size s <> 0 ->
  isFinished s = true \/ evenIfRemaining = true ->
  (forall normalize : string -> string,
      _target_md5 s <> EmptyString ->
      normalize (_target_md5 s)
      <> normalize (md5_hex E (_md5 (fst (end_flush E evenIfRemaining s w)))) ->
      exists s' w',
        end_ E evenIfRemaining s w = (false, s', w')
        /\ _error s' = UPDATE_ERROR_MD5 /\ idle s')
  /\ (_target_md5 s = EmptyString ->
      (forall f, end_ (with_md5 E f) evenIfRemaining s w
                 = end_ E evenIfRemaining s w)
      /\ _error (snd (fst (end_ E evenIfRemaining s w))) <> UPDATE_ERROR_MD5).
Proof.
  intros He Hsz Hfin.
  assert (Hgo : forall E', end_ E' evenIfRemaining s w
                = end_verify E' (fst (end_flush E' evenIfRemaining s w))
                                (snd (end_flush E' evenIfRemaining s w))).
  { intros E'. unfold end_. rewrite He.
    destruct (_size s =? 0) eqn:H0; [lia|]. cbn [orb].
    destruct Hfin as [-> | ->]; cbn [negb andb];
      rewrite ?andb_false_r;
      destruct (end_flush E' _ s w); reflexivity. }
  destruct (end_flush_result E evenIfRemaining s w) as (Ht & Herr).
  split.
  - intros normalize Hset Hne. rewrite Hgo.
    apply end_verify_mismatch; rewrite Ht; [exact Hset|congruence].
  - intros Hnone. split.
    + intros f. rewrite !Hgo.
      change (end_flush (with_md5 E f) evenIfRemaining s w)
        with (end_flush E evenIfRemaining s w).
      rewrite !end_verify_no_target by congruence. reflexivity.
    + rewrite Hgo. apply end_verify_no_target_error; [congruence|].
      apply hasError_false in He. unfold flush_error in Herr.
      destruct Herr as [->|([->|[->| ->]] & _)]; congruence.
Qed.

Lemma end_hash_check_witness :
  exists s w,
    session okE 20 U_FLASH [img20] UpdateClass_new w0 = Some (s, w)
    /\ exists s' w',
      end_ okE false
           (snd (setMD5 "00000000000000000000000000000000" s)) w
      = (false, s', w')
      /\ _error s' = UPDATE_ERROR_MD5 /\ idle s'.
Proof.
  eexists _, _. split; [vm_compute; reflexivity|].
  refine (proj1 (end_hash_check okE false _ _ _ _ _) (fun x => x) _ _).
  - vm_compute; reflexivity.
  - vm_compute; discriminate.
  - left; vm_compute; reflexivity.
  - vm_compute; discriminate.
  - vm_compute; discriminate.
Defined.

(** ** The trace only grows *)

Lemma trace_log e w : trace (log e w) = e :: trace w.
Proof. reflexivity. Qed.

Lemma trace_store w q c : trace (store w q c) = trace w.
Proof. destruct q; reflexivity. Qed.

Lemma trace_set_boot w q : trace (set_boot w q) = trace w.
Proof. reflexivity. Qed.

Lemma grows_refl w : grows w w.
Proof. unfold grows. reflexivity. Qed.

Lemma grows_trans w1 w2 w3 : grows w1 w2 -> grows w2 w3 -> grows w1 w3.
Proof. unfold grows. intros H1 H2. etransitivity; eassumption. Qed.

Lemma grows_log e w w' : grows w w' -> grows w (log e w').
Proof. unfold grows. rewrite trace_log. apply suffix_cons_r. Qed.

Lemma grows_store w w' q c : grows w w' -> grows w (store w' q c).
Proof. unfold grows. rewrite trace_store. auto. Qed.

Lemma grows_set_boot w w' q : grows w w' -> grows w (set_boot w' q).
Proof. unfold grows. rewrite trace_set_boot. auto. Qed.

Lemma grows_In e w w' : grows w w' -> In e (trace w) -> In e (trace w').
Proof.
  unfold grows. intros [k ->] H. apply in_or_app. right. exact H.
Qed.

Create HintDb grows.
#[local] Hint Resolve grows_refl grows_log grows_store grows_set_boot : grows.

Lemma grows_reset s w : grows w (snd (_reset s w)).
Proof. unfold _reset. st_simpl. destruct (_buffer s); auto with grows. Qed.

Lemma grows_abort s w e : grows w (snd (_abort s w e)).
Proof. apply grows_reset. Qed.

Lemma grows_partitionWrite E w p off src len :
  grows w (snd (partitionWrite E w p off src len)).
Proof.
  unfold partitionWrite.
  repeat match goal with
  | |- context [match ?c with _ => _ end] => destruct c
  end; st_simpl; auto with grows.
Qed.

Lemma grows_partitionEraseRange E w p off len :
  grows w (snd (partitionEraseRange E w p off len)).
Proof.
  unfold partitionEraseRange.
  repeat match goal with
  | |- context [match ?c with _ => _ end] => destruct c
  end; st_simpl; auto with grows.
Qed.

Lemma grows_partitionRead E w p off len :
  grows w (snd (partitionRead E w p off len)).
Proof.
  unfold partitionRead.
  repeat match goal with
  | |- context [match ?c with _ => _ end] => destruct c
  end; st_simpl; auto with grows.
Qed.

Lemma grows_set_boot_partition E w p :
  grows w (snd (esp_ota_set_boot_partition E w p)).
Proof.
  unfold esp_ota_set_boot_partition.
  repeat match goal with
  | |- context [match ?c with _ => _ end] => destruct c
  end; st_simpl; auto with grows.
Qed.

Lemma grows_enablePartition E s w : grows w (snd (_enablePartition E s w)).
Proof.
  unfold _enablePartition. destruct (_partition s); [|apply grows_refl].
  apply grows_partitionWrite.
Qed.

Lemma grows_partitionIsBootable E w p :
  grows w (snd (_partitionIsBootable E w p)).
Proof.
  unfold _partitionIsBootable. destruct p; [|apply grows_refl].
  pose proof (grows_partitionRead E w (Some p) 0 ENCRYPTED_BLOCK_SIZE) as H.
  destruct (partitionRead E w (Some p) 0 ENCRYPTED_BLOCK_SIZE) as [[buf|] w1];
    [destruct (negb _)|]; exact H.
Qed.

Lemma grows_verifyEnd E s w : grows w (snd (_verifyEnd E s w)).
Proof.
  unfold _verifyEnd.
  destruct (_command s =? U_FLASH).
  - pose proof (grows_enablePartition E s w) as H1.
    destruct (_enablePartition E s w) as [en w1]. st_simpl.
    assert (H2 : grows w (snd (if en then _partitionIsBootable E w1 (_partition s)
                               else (false, w1)))).
    { destruct en; [|exact H1].
      eapply grows_trans; [exact H1|apply grows_partitionIsBootable]. }
    destruct (if en then _ else _) as [bo w2]. st_simpl.
    destruct (negb bo).
    { pose proof (grows_abort s w2 UPDATE_ERROR_READ) as H3.
      destruct (_abort s w2 UPDATE_ERROR_READ). st_simpl.
      eapply grows_trans; eassumption. }
    pose proof (grows_set_boot_partition E w2 (_partition s)) as H3.
    destruct (esp_ota_set_boot_partition E w2 (_partition s)) as [[|] w3]; st_simpl.
    + pose proof (grows_reset s w3) as H4. destruct (_reset s w3). st_simpl.
      eauto using grows_trans.
    + pose proof (grows_abort s w3 UPDATE_ERROR_ACTIVATE) as H4.
      destruct (_abort s w3 UPDATE_ERROR_ACTIVATE). st_simpl.
      eauto using grows_trans.
  - destruct (_command s =? U_SPIFFS); [|apply grows_refl].
    pose proof (grows_reset s w) as H4. destruct (_reset s w). exact H4.
Qed.

Lemma grows_signatureValid E s w : grows w (snd (_signatureValid E s w)).
Proof.
  unfold _signatureValid.
  pose proof (grows_enablePartition E s w) as H1.
  destruct (_enablePartition E s w) as [rc w1]. st_simpl.
  destruct (negb rc).
  { pose proof (grows_abort s w1 UPDATE_ERROR_NO_PARTITION) as H3.
    destruct (_abort s w1 UPDATE_ERROR_NO_PARTITION). st_simpl.
    eauto using grows_trans. }
  assert (Ha : forall w2 e, grows w1 w2 ->
            grows w (snd (let '(s0, w3) := _abort s w2 e in (false, s0, w3)))).
  { intros w2 e H2. pose proof (grows_abort s w2 e) as H3.
    destruct (_abort s w2 e). st_simpl. eauto using grows_trans. }
  destruct (sha256 E _ _).
  - destruct (negb (pk_parse_ok E _)).
    { apply Ha. auto with grows. }
    destruct (negb (pk_verify_ok E _ _ _)).
    { apply Ha. auto with grows. }
    st_simpl. eapply grows_trans; [exact H1|]. auto with grows.
  - apply Ha. auto with grows.
Qed.

(** The hash is finalized whatever [end_verify] does afterwards. *)
Lemma end_verify_finalizes (E : Env) s w :
  In EMd5Calculate (trace (snd (end_verify E s w))).
Proof.
  apply grows_In with (w := log EMd5Calculate w); [|left; reflexivity].
  unfold end_verify.
  assert (Ha : forall s0 w2 e, grows (log EMd5Calculate w) w2 ->
            grows (log EMd5Calculate w)
                  (snd (let '(s1, w3) := _abort s0 w2 e in (false, s1, w3)))).
  { intros s0 w2 e H2. pose proof (grows_abort s0 w2 e) as H3.
    destruct (_abort s0 w2 e). st_simpl. eauto using grows_trans. }
  destruct (_ && _); [apply Ha, grows_refl|].
  destruct (pubKey_toParse E); [|apply grows_verifyEnd].
  pose proof (grows_signatureValid E s (log EMd5Calculate w)) as H1.
  destruct (_signatureValid E s (log EMd5Calculate w)) as [[[|] s1] w1]; st_simpl.
  - eapply grows_trans; [exact H1|apply grows_verifyEnd].
  - apply Ha, H1.
Qed.

(** ** end(true) after a failed flush *)

(** C9: when [end(true)] finds a pending chunk and its flush fails, [end]
    does not return there: it goes on, from the state the failed flush
    left and with the size set to the progress, with the hash
    finalization, the signature check if a key is configured, and the
    activation. *)
Theorem end_ignores_failed_flush (E : Env) (s : UpdateClass) (w : World)
    (s1 : UpdateClass) (w1 : World) :
  hasError s = false ->
  _size s <> 0 ->
  _bufferLen s > 0 ->
  _writeBuffer E s w = (false, s1, w1) ->
  end_ E true s w = end_verify E (set_size s1 (progress s1)) w1
  /\ In EMd5Calculate (trace (snd (end_ E true s w)))
  /\ (_target_md5 s = EmptyString ->
      end_ E true s w
      = match pubKey_toParse E with
        | Some _ =>
            match _signatureValid E (set_size s1 (progress s1))
                    (log EMd5Calculate w1) with
            | (false, s, w) =>
                let '(s, w) := _abort s w UPDATE_ERROR_SIGNATURE_VERIFICATION in
                (false, s, w)
            | (true, s, w) => _verifyEnd E s w
            end
        | None => _verifyEnd E (set_size s1 (progress s1)) (log EMd5Calculate w1)
        end).
Proof.
  intros He Hsz Hlen Hw.
  assert (Hgo : end_ E true s w = end_verify E (set_size s1 (progress s1)) w1).
  { unfold end_, end_flush. rewrite He.
    destruct (_size s =? 0) eqn:H0; [lia|]. cbn [orb negb andb].
    rewrite andb_false_r.
    destruct (_bufferLen s >? 0) eqn:Hb; [|lia].
    rewrite Hw. reflexivity. }
  split; [exact Hgo|]. split.
  - rewrite Hgo. apply end_verify_finalizes.
  - intros Ht. rewrite Hgo. apply end_verify_no_target.
    apply writeBuffer_result in Hw. st_simpl. destruct Hw as (-> & _). exact Ht.
Qed.

Lemma end_ignores_failed_flush_witness :
  exists s w s1 w1,
    session (eraseFailE 4) 8192 U_FLASH [img4097] UpdateClass_new w0 = Some (s, w)
    /\ _writeBuffer (eraseFailE 4) s w = (false, s1, w1)
    /\ _error s1 = UPDATE_ERROR_ERASE
    /\ end_ (eraseFailE 4) true s w
       = end_verify (eraseFailE 4) (set_size s1 (progress s1)) w1
    /\ fst (fst (end_ (eraseFailE 4) true s w)) = true.
Proof.
  eexists _, _, _, _. split; [vm_compute; reflexivity|].
  split; [vm_compute; reflexivity|]. split; [reflexivity|]. split.
  - refine (proj1 (end_ignores_failed_flush (eraseFailE 4) _ _ _ _ _ _ _ _)).
    + vm_compute; reflexivity.
    + vm_compute; discriminate.
    + vm_compute; reflexivity.
    + vm_compute; reflexivity.
  - vm_compute; reflexivity.
Defined.

(** ** The loops terminate *)

Lemma wrap_range x : 0 <= wrap x < SIZE_MOD.
Proof. unfold wrap, SIZE_MOD. apply Z.mod_pos_bound. lia. Qed.

Lemma wrap_small x : 0 <= x < SIZE_MOD -> wrap x = x.
Proof. unfold wrap. apply Z.mod_small. Qed.

Lemma wrap_sub_wrap a b : wrap (a - wrap b) = wrap (a - b).
Proof. unfold wrap. apply Zminus_mod_idemp_r. Qed.

Lemma wrap_wrap_sub a b : wrap (wrap a - b) = wrap (a - b).
Proof. unfold wrap. apply Zminus_mod_idemp_l. Qed.

(** A round of the loop of [write] takes an erase block off the wrapped
    sum of the buffered and the left bytes. *)
Lemma write_loop_round bl left_ :
  wrap (bl + left_) > SPI_FLASH_SEC_SIZE ->
  wrap (0 + wrap (left_ - wrap (SPI_FLASH_SEC_SIZE - bl)))
  = wrap (bl + left_) - SPI_FLASH_SEC_SIZE.
Proof.
  intros H. rewrite Z.add_0_l. unfold wrap at 1. fold (wrap (left_ - wrap (SPI_FLASH_SEC_SIZE - bl))).
  rewrite wrap_sub_wrap.
  replace (left_ - (SPI_FLASH_SEC_SIZE - bl)) with (bl + left_ - SPI_FLASH_SEC_SIZE) by lia.
  unfold wrap at 1. rewrite Zmod_mod. fold (wrap (bl + left_ - SPI_FLASH_SEC_SIZE)).
  rewrite <- wrap_wrap_sub. apply wrap_small.
  pose proof (wrap_range (bl + left_)). unfold SPI_FLASH_SEC_SIZE, SIZE_MOD in *. lia.
Qed.

Lemma write_loop_total (E : Env) fuel data len left_ s w :
  (Z.to_nat (wrap (_bufferLen s + left_) / SPI_FLASH_SEC_SIZE) < fuel)%nat ->
  exists res, write_loop E fuel data len left_ s w = Some res.
Proof.
  revert left_ s w. induction fuel as [|fuel IH]; intros left_ s w Hf; [lia|].
  cbn [write_loop].
  destruct (wrap (_bufferLen s + left_) >? SPI_FLASH_SEC_SIZE) eqn:Hc; [|eauto].
  destruct (_writeBuffer E _ w) as [[[|] s1] w1] eqn:Hw; [|eauto].
  apply IH. apply writeBuffer_result in Hw.
  destruct Hw as (_ & _ & [H|[H|H]]); [|destruct H; discriminate ..].
  destruct H as (_ & _ & _ & _ & _ & Hbl & _). rewrite Hbl.
  rewrite write_loop_round by lia.
  assert (Hd : (wrap (_bufferLen s + left_) - SPI_FLASH_SEC_SIZE) / SPI_FLASH_SEC_SIZE
               = wrap (_bufferLen s + left_) / SPI_FLASH_SEC_SIZE - 1).
  { unfold SPI_FLASH_SEC_SIZE.
    replace (wrap (_bufferLen s + left_) - 4096)
      with (wrap (_bufferLen s + left_) + (-1) * 4096) by lia.
    rewrite Z.div_add by lia. lia. }
  rewrite Hd.
  assert (1 <= wrap (_bufferLen s + left_) / SPI_FLASH_SEC_SIZE).
  { unfold SPI_FLASH_SEC_SIZE in *. apply Z.div_le_lower_bound; lia. }
  lia.
Qed.

Lemma write_total (E : Env) data s w : exists r, write E data s w = Some r.
Proof.
  unfold write.
  destruct (hasError s || negb (isRunning s)); [eauto|].
  destruct (zlen data >? remaining s).
  { destruct (_abort s w UPDATE_ERROR_SPACE). eauto. }
  destruct (write_loop_total E (write_fuel s (zlen data)) data (zlen data)
              (zlen data) s w) as [res ->].
  { unfold write_fuel. lia. }
  destruct res as [r|[[l s1] w1]]; [eauto|].
  destruct (_ =? _); [|eauto].
  destruct (_writeBuffer E _ w1) as [[[|] s2] w2]; eauto.
Qed.

Lemma readBytes_length st n :
  (length (reads (snd (readBytes st n))) <= length (reads st))%nat
  /\ (fst (readBytes st n) <> [] ->
      (length (reads (snd (readBytes st n))) < length (reads st))%nat).
Proof.
  unfold readBytes. destruct (reads st) as [|c r] eqn:Hr; st_simpl;
    cbn [reads length]; rewrite ?Hr; cbn [length]; split; intros; first [lia|congruence].
Qed.

Lemma read_retry_total fuel tf st n :
  (0 < fuel)%nat -> 300 - tf <= Z.of_nat fuel ->
  exists got st',
    read_retry fuel tf st n = Some (got, st')
    /\ (length (reads st') <= length (reads st))%nat
    /\ (got <> None -> (length (reads st') < length (reads st))%nat).
Proof.
  revert tf st. induction fuel as [|fuel IH]; intros tf st H0 Hf; [lia|].
  cbn [read_retry].
  pose proof (readBytes_length st n) as [Hle Hlt].
  destruct (readBytes st n) as [got st1]. st_simpl.
  destruct (zlen got =? 0) eqn:Hz.
  - destruct (tf + 1 >=? 300) eqn:Hg.
    + eexists _, _. split; [reflexivity|]. split; [exact Hle|congruence].
    + destruct (IH (tf + 1) st1) as (g & st2 & -> & H1 & H2); [lia|lia|].
      eexists _, _. split; [reflexivity|]. split; [lia|].
      intros Hg'. specialize (H2 Hg'). lia.
  - eexists _, _. split; [reflexivity|]. split; [exact Hle|].
    intros _. apply Hlt. intros ->. unfold zlen in Hz. simpl in Hz. lia.
Qed.

Lemma stream_loop_total (E : Env) fuel written st s w :
  (length (reads st) < fuel)%nat ->
  exists r, stream_loop E fuel written st s w = Some r.
Proof.
  revert written st s w.
  induction fuel as [|fuel IH]; intros written st s w Hf; [lia|].
  cbn [stream_loop].
  destruct (remaining s =? 0); [eauto|].
  match goal with
  | |- context [read_retry 300 0 st ?n] =>
      destruct (read_retry_total 300 0 st n) as (got & st1 & -> & H1 & H2);
        [lia|lia|]
  end.
  destruct got as [got|].
  - assert (Hlt : (length (reads st1) < fuel)%nat).
    { assert (length (reads st1) < length (reads st))%nat by (apply H2; congruence).
      lia. }
    destruct (_ || _).
    + destruct (_writeBuffer E _ w) as [[[|] s1] w1]; [apply IH, Hlt|eauto].
    + apply IH, Hlt.
  - destruct (_abort s w UPDATE_ERROR_STREAM). eauto.
Qed.

Lemma writeStream_total (E : Env) data s w :
  exists r, writeStream E data s w = Some r.
Proof.
  unfold writeStream.
  destruct (hasError s || negb (isRunning s)); [eauto|].
  destruct (_verifyHeader _ s w) as [[[|] s1] w1].
  - apply stream_loop_total. lia.
  - destruct (_reset s1 w1). eauto.
Qed.

(** ** An errored engine is idle *)

Lemma writeBuffer_keeps_inv (E : Env) s w r s' w' :
  _error s = UPDATE_ERROR_OK ->
  _writeBuffer E s w = (r, s', w') ->
  error_implies_idle s' /\ (r = true -> _error s' = UPDATE_ERROR_OK).
Proof.
  intros He Hw. apply writeBuffer_result in Hw.
  destruct Hw as (_ & _ & [H|[H|H]]).
  - destruct H as (_ & He' & _). split; [|congruence].
    apply ok_error_implies_idle. congruence.
  - destruct H as (-> & _ & Hi). split; [|discriminate].
    apply idle_error_implies_idle, Hi.
  - destruct H as (-> & ->). split; [|discriminate].
    apply ok_error_implies_idle. exact He.
Qed.

Lemma write_loop_keeps_inv (E : Env) fuel data len left_ s w res :
  _error s = UPDATE_ERROR_OK ->
  write_loop E fuel data len left_ s w = Some res ->
  match res with
  | inl (_, s', _) => error_implies_idle s'
  | inr (_, s', _) => _error s' = UPDATE_ERROR_OK
  end.
Proof.
  revert left_ s w. induction fuel as [|fuel IH]; intros left_ s w He;
    cbn [write_loop];
    destruct (wrap (_bufferLen s + left_) >? SPI_FLASH_SEC_SIZE);
    try discriminate; try (intros [= <-]; exact He).
  destruct (_writeBuffer E _ w) as [[[|] s1] w1] eqn:Hw;
    apply writeBuffer_keeps_inv in Hw; try exact He; destruct Hw as [Hi Hok].
  - apply IH. auto.
  - intros [= <-]. exact Hi.
Qed.

Lemma write_keeps_inv (E : Env) data s w n s' w' :
  error_implies_idle s ->
  write E data s w = Some (n, s', w') ->
  error_implies_idle s'.
Proof.
  intros Hinv. unfold write.
  destruct (hasError s) eqn:He; cbn [orb].
  { intros [= _ <- _]. exact Hinv. }
  apply hasError_false in He.
  destruct (negb (isRunning s)).
  { intros [= _ <- _]. exact Hinv. }
  destruct (zlen data >? remaining s).
  { pose proof (abort_idle s w UPDATE_ERROR_SPACE) as Hi.
    destruct (_abort s w UPDATE_ERROR_SPACE). intros [= _ <- _].
    apply idle_error_implies_idle, Hi. }
  destruct (write_loop E _ data _ _ s w) as [res|] eqn:Hl; [|discriminate].
  apply write_loop_keeps_inv in Hl; [|exact He].
  destruct res as [[[r s1] w1]|[[l s1] w1]].
  { intros [= _ <- _]. exact Hl. }
  destruct (_ =? _).
  - destruct (_writeBuffer E _ w1) as [[r s2] w2] eqn:Hw.
    apply writeBuffer_keeps_inv in Hw; [|exact Hl]. destruct Hw as [Hi _].
    destruct r; intros [= _ <- _]; exact Hi.
  - intros [= _ <- _]. apply ok_error_implies_idle. exact Hl.
Qed.

Lemma stream_loop_keeps_inv (E : Env) fuel written st s w n s' w' st' :
  _error s = UPDATE_ERROR_OK ->
  stream_loop E fuel written st s w = Some (n, s', w', st') ->
  error_implies_idle s'.
Proof.
  revert written st s w. induction fuel as [|fuel IH]; intros written st s w He;
    cbn [stream_loop]; destruct (remaining s =? 0);
    try discriminate;
    try (intros [= _ <- _ _]; apply ok_error_implies_idle, He).
  destruct (read_retry 300 0 st _) as [[[got|] st1]|]; [| |discriminate].
  - destruct (_ || _).
    + destruct (_writeBuffer E _ w) as [[[|] s1] w1] eqn:Hw;
        apply writeBuffer_keeps_inv in Hw; try exact He; destruct Hw as [Hi Hok].
      * apply IH. auto.
      * intros [= _ <- _ _]. exact Hi.
    + apply IH. exact He.
  - pose proof (abort_idle s w UPDATE_ERROR_STREAM) as Hi.
    destruct (_abort s w UPDATE_ERROR_STREAM). intros [= _ <- _ _].
    apply idle_error_implies_idle, Hi.
Qed.

Lemma writeStream_keeps_inv (E : Env) data s w n s' w' st' :
  error_implies_idle s ->
  writeStream E data s w = Some (n, s', w', st') ->
  error_implies_idle s'.
Proof.
  intros Hinv. unfold writeStream.
  destruct (hasError s) eqn:He; cbn [orb].
  { intros [= _ <- _ _]. exact Hinv. }
  apply hasError_false in He.
  destruct (negb (isRunning s)).
  { intros [= _ <- _ _]. exact Hinv. }
  unfold _verifyHeader.
  destruct (_command s =? U_FLASH).
  - destruct (negb _).
    + unfold _abort, _reset. st_simpl. intros [= _ <- _ _].
      apply idle_error_implies_idle. unfold idle; st_simpl; auto.
    + apply stream_loop_keeps_inv, He.
  - destruct (_command s =? U_SPIFFS).
    + apply stream_loop_keeps_inv, He.
    + unfold _reset. intros [= _ <- _ _].
      apply idle_error_implies_idle. unfold idle; st_simpl; auto.
Qed.

Lemma end_verify_keeps_inv (E : Env) s w :
  error_implies_idle s ->
  error_implies_idle (snd (fst (end_verify E s w))).
Proof.
  intros Hinv. unfold end_verify.
  assert (Hv : forall s0 w0, error_implies_idle s0 ->
            error_implies_idle (snd (fst (_verifyEnd E s0 w0)))).
  { intros s0 w0 H0. destruct (_verifyEnd E s0 w0) as [[r s1] w1] eqn:Hv.
    apply verifyEnd_result in Hv. st_simpl.
    destruct Hv as [(Hi & _)|(_ & -> & _)];
      [apply idle_error_implies_idle, Hi|exact H0]. }
  destruct (_ && _).
  { unfold _abort, _reset; st_simpl.
    apply idle_error_implies_idle. unfold idle; st_simpl; auto. }
  destruct (pubKey_toParse E); [|apply Hv, Hinv].
  destruct (_signatureValid E s _) as [[r s1] w1] eqn:Hs.
  apply signatureValid_result in Hs.
  destruct Hs as [(-> & ->)|(-> & _ & _)]; [apply Hv, Hinv|].
  unfold _abort, _reset; st_simpl.
  apply idle_error_implies_idle. unfold idle; st_simpl; auto.
Qed.

Lemma end_keeps_inv (E : Env) b s w :
  error_implies_idle s ->
  error_implies_idle (snd (fst (end_ E b s w))).
Proof.
  intros Hinv. unfold end_.
  destruct (hasError s) eqn:He; cbn [orb]; [exact Hinv|].
  apply hasError_false in He.
  destruct (_size s =? 0); [exact Hinv|].
  destruct (_ && _).
  { unfold _abort, _reset; st_simpl.
    apply idle_error_implies_idle. unfold idle; st_simpl; auto. }
  pose proof (end_flush_result E b s w) as (_ & Hf).
  destruct (end_flush E b s w) as [s1 w1]. st_simpl.
  apply end_verify_keeps_inv.
  destruct Hf as [Hf|(_ & Hi)].
  - apply ok_error_implies_idle. congruence.
  - apply idle_error_implies_idle, Hi.
Qed.

Lemma begin_keeps_inv (E : Env) size command ledPin ledOn label s w :
  error_implies_idle s ->
  error_implies_idle (snd (fst (begin E size command ledPin ledOn label s w))).
Proof.
  intros Hinv.
  destruct (begin E size command ledPin ledOn label s w) as [[r s1] w1] eqn:Hb.
  apply begin_result in Hb. st_simpl.
  destruct Hb as [(_ & _ & -> & _)|[(_ & _ & He & _)|(_ & _ & _ & Hi)]].
  - exact Hinv.
  - apply ok_error_implies_idle, He.
  - apply idle_error_implies_idle, Hi.
Qed.

(** C10: every public operation preserves the invariant that an engine
    with a sticky error is idle (size 0, progress 0, buffer freed and
    empty); [write] and [writeStream] return on every input. *)
Theorem operations_keep_error_implies_idle (E : Env) (s : UpdateClass)
    (w : World) :
  error_implies_idle s ->
  (forall size command ledPin ledOn label,
      error_implies_idle
        (snd (fst (begin E size command ledPin ledOn label s w))))
  /\ (forall data, exists n s' w',
        write E data s w = Some (n, s', w') /\ error_implies_idle s')
  /\ (forall data, exists n s' w' st',
        writeStream E data s w = Some (n, s', w', st')
        /\ error_implies_idle s')
  /\ (forall evenIfRemaining,
        error_implies_idle (snd (fst (end_ E evenIfRemaining s w))))
  /\ error_implies_idle (fst (abort s w)).
Proof.
  intros Hinv. split; [|split; [|split; [|split]]].
  - intros. apply begin_keeps_inv, Hinv.
  - intros data. destruct (write_total E data s w) as [[[n s'] w'] Hw].
    exists n, s', w'. split; [exact Hw|]. eapply write_keeps_inv; eassumption.
  - intros data.
    destruct (writeStream_total E data s w) as [[[[n s'] w'] st'] Hw].
    exists n, s', w', st'. split; [exact Hw|].
    eapply writeStream_keeps_inv; eassumption.
  - intros. apply end_keeps_inv, Hinv.
  - apply idle_error_implies_idle, abort_idle.
Qed.

Lemma operations_keep_error_implies_idle_witness :
  error_implies_idle UpdateClass_new
  /\ error_implies_idle (fst (abort UpdateClass_new w0)).
Proof.
  assert (H : error_implies_idle UpdateClass_new) by (intros H; discriminate H).
  split; [exact H|].
  apply (operations_keep_error_implies_idle okE UpdateClass_new w0 H).
Defined.

(** ** Stream ingestion: stalls *)

Lemma zlen_nil_iff (l : list Z) : (zlen l =? 0) = true <-> l = [].
Proof.
  unfold zlen. destruct l; simpl; split; intros H; try reflexivity;
    try discriminate; lia.
Qed.

(** Fewer than 300 time-outs before a read that delivers bytes are
    tolerated. *)
Lemma read_retry_after_stalls k fuel tf p d rest n :
  0 <= tf -> tf + Z.of_nat k < 300 -> (k < fuel)%nat ->
  ztake n d <> [] ->
  read_retry fuel tf (mkStream p (replicate k [] ++ d :: rest)) n
  = Some (Some (ztake n d), mkStream p rest).
Proof.
  revert fuel tf. induction k as [|k IH]; intros fuel tf Htf Hk Hf Hd;
    (destruct fuel as [|fuel]; [lia|]); cbn [read_retry replicate app].
  - unfold readBytes. cbn [reads peek].
    destruct (zlen (ztake n d) =? 0) eqn:Hz; [|reflexivity].
    apply zlen_nil_iff in Hz. contradiction.
  - unfold readBytes. cbn [reads peek].
    replace (zlen (ztake n []) =? 0) with true
      by (unfold ztake; rewrite take_nil; reflexivity).
    destruct (tf + 1 >=? 300) eqn:Hg; [lia|].
    apply IH; [lia|lia|lia|exact Hd].
Qed.

(** 300 time-outs in a row make the loop give up. *)
Lemma read_retry_gives_up k fuel tf p rest n :
  0 <= tf -> tf + Z.of_nat k = 300 -> (0 < k <= fuel)%nat ->
  read_retry fuel tf (mkStream p (replicate k [] ++ rest)) n
  = Some (None, mkStream p rest).
Proof.
  revert fuel tf. induction k as [|k IH]; intros fuel tf Htf Hk Hf; [lia|].
  destruct fuel as [|fuel]; [lia|]. cbn [read_retry replicate app].
  unfold readBytes. cbn [reads peek].
  replace (zlen (ztake n []) =? 0) with true
    by (unfold ztake; rewrite take_nil; reflexivity).
  destruct (tf + 1 >=? 300) eqn:Hg.
  - destruct k; [reflexivity|lia].
  - apply IH; lia.
Qed.

Lemma stream_loop_fuel_mono (E : Env) fuel fuel' written st s w r :
  (fuel <= fuel')%nat ->
  stream_loop E fuel written st s w = Some r ->
  stream_loop E fuel' written st s w = Some r.
Proof.
  revert fuel' written st s w.
  induction fuel as [|fuel IH]; intros fuel' written st s w Hf;
    (destruct fuel' as [|fuel']; [try lia|]); cbn [stream_loop];
    destruct (remaining s =? 0); try discriminate; try (intros H; exact H).
  destruct (read_retry 300 0 st _) as [[[got|] st1]|]; try (intros H; exact H).
  destruct (_ || _).
  - destruct (_writeBuffer E _ w) as [[[|] s1] w1]; [|intros H; exact H].
    apply IH. lia.
  - apply IH. lia.
Qed.

(** The number of bytes the loop asks for is positive while the buffer has
    room and the session has bytes remaining. *)
Lemma bytesToRead_pos s :
  0 <= _bufferLen s < SPI_FLASH_SEC_SIZE ->
  remaining s <> 0 ->
  0 < (if wrap (SPI_FLASH_SEC_SIZE - _bufferLen s) >? remaining s
       then remaining s else wrap (SPI_FLASH_SEC_SIZE - _bufferLen s)).
Proof.
  intros Hb Hr. pose proof (wrap_range (_size s - _progress s)) as Hw.
  fold (remaining s) in Hw.
  rewrite (wrap_small (SPI_FLASH_SEC_SIZE - _bufferLen s))
    by (unfold SPI_FLASH_SEC_SIZE, SIZE_MOD in *; lia).
  destruct (_ >? _); lia.
Qed.

Lemma ztake_nonempty n (d : list Z) : 0 < n -> d <> [] -> ztake n d <> [].
Proof.
  intros Hn Hd. unfold ztake. destruct d as [|x d]; [congruence|].
  destruct (Z.to_nat n) eqn:Hz; [lia|]. discriminate.
Qed.

Lemma stream_loop_done (E : Env) fuel written st s w :
  remaining s = 0 ->
  stream_loop E fuel written st s w = Some (written, s, w, st).
Proof.
  intros Hr. destruct fuel; cbn [stream_loop]; rewrite Hr; reflexivity.
Qed.

Lemma stream_loop_after_stalls (E : Env) k fuel written p d rest s w :
  (k < 300)%nat -> d <> [] ->
  0 <= _bufferLen s < SPI_FLASH_SEC_SIZE ->
  remaining s <> 0 ->
  stream_loop E (S fuel) written (mkStream p (replicate k [] ++ d :: rest)) s w
  = stream_loop E (S fuel) written (mkStream p (d :: rest)) s w.
Proof.
  intros Hk Hd Hb Hr. cbn [stream_loop].
  destruct (remaining s =? 0) eqn:H0; [lia|].
  pose proof (bytesToRead_pos s Hb Hr) as Hn.
  set (n := if wrap (SPI_FLASH_SEC_SIZE - _bufferLen s) >? remaining s
            then remaining s else wrap (SPI_FLASH_SEC_SIZE - _bufferLen s)) in *.
  rewrite (read_retry_after_stalls k 300 0 p d rest n)
    by (try lia; apply ztake_nonempty; assumption).
  pose proof (read_retry_after_stalls 0 300 0 p d rest n) as H1.
  cbn [replicate app] in H1.
  rewrite H1 by (try lia; apply ztake_nonempty; assumption).
  reflexivity.
Qed.

Lemma stream_loop_gives_up (E : Env) fuel written p rest s w :
  remaining s <> 0 ->
  stream_loop E (S fuel) written (mkStream p (replicate 300 [] ++ rest)) s w
  = Some (written, fst (_abort s w UPDATE_ERROR_STREAM),
          snd (_abort s w UPDATE_ERROR_STREAM), mkStream p rest).
Proof.
  intros Hr. cbn [stream_loop].
  destruct (remaining s =? 0) eqn:H0; [lia|].
  rewrite (read_retry_gives_up 300 300 0) by lia.
  reflexivity.
Qed.

(** C3: in stream ingestion, 299 consecutive zero-byte reads before a read
    that delivers bytes change nothing in what the call does, at its start
    and at every round of its loop, and the call returns; 300 consecutive
    zero-byte reads abort the session with StreamTimeout, and the call
    returns the bytes written so far. *)
Theorem stream_stall_budget (E : Env) (p : Z) (d : list Z)
    (rest : list (list Z)) (s : UpdateClass) (w : World) :
  d <> [] ->
  0 <= _bufferLen s < SPI_FLASH_SEC_SIZE ->
  (exists r,
      writeStream E (mkStream p (replicate 299 [] ++ d :: rest)) s w = Some r)
  /\ fst <$> writeStream E (mkStream p (replicate 299 [] ++ d :: rest)) s w
     = fst <$> writeStream E (mkStream p (d :: rest)) s w
  /\ (forall fuel written,
        remaining s <> 0 ->
        stream_loop E (S fuel) written
                    (mkStream p (replicate 299 [] ++ d :: rest)) s w
        = stream_loop E (S fuel) written (mkStream p (d :: rest)) s w)
  /\ (forall fuel written,
        remaining s <> 0 ->
        exists s' w',
          stream_loop E (S fuel) written
                      (mkStream p (replicate 300 [] ++ rest)) s w
          = Some (written, s', w', mkStream p rest)
          /\ _error s' = UPDATE_ERROR_STREAM /\ idle s').
Proof.
  intros Hd Hb. split; [apply writeStream_total|]. split; [|split].
  - unfold writeStream. destruct (hasError s || negb (isRunning s)); [reflexivity|].
    cbn [peek reads].
    destruct (_verifyHeader (p mod 256) s w) as [[[|] s1] w1] eqn:Hv.
    + assert (s1 = s) as ->.
      { unfold _verifyHeader in Hv.
        destruct (_command s =? U_FLASH);
          [destruct (negb _); [destruct (_abort _ _ _); discriminate|]|
           destruct (_command s =? U_SPIFFS); [|discriminate]];
          injection Hv as <- _; reflexivity. }
      destruct (remaining s =? 0) eqn:Hr.
      { rewrite !stream_loop_done by lia. reflexivity. }
      rewrite stream_loop_after_stalls by (try assumption; lia).
      destruct (stream_loop_total E (S (length (d :: rest))) 0
                  (mkStream p (d :: rest)) s w1) as [r Hr'];
        [cbn [reads]; lia|].
      rewrite Hr'.
      rewrite (stream_loop_fuel_mono E (S (length (d :: rest))) _ _ _ _ _ r);
        [reflexivity| |exact Hr'].
      rewrite length_app. cbn [length]. lia.
    + destruct (_reset s1 w1). reflexivity.
  - intros fuel written Hr. apply stream_loop_after_stalls; try assumption; lia.
  - intros fuel written Hr. rewrite stream_loop_gives_up by exact Hr.
    eexists _, _. split; [reflexivity|]. split; [apply abort_error|apply abort_idle].
Qed.

Lemma stream_stall_budget_witness :
  exists s w,
    session okE 20 U_FLASH [] UpdateClass_new w0 = Some (s, w)
    /\ fst <$> writeStream okE (mkStream 233 (replicate 299 [] ++ [img20])) s w
       = fst <$> writeStream okE (mkStream 233 [img20]) s w
    /\ (exists s' w' st',
          writeStream okE (mkStream 233 [img20]) s w = Some (20, s', w', st')
          /\ _error s' = UPDATE_ERROR_OK
          /\ fst (fst (end_ okE false s' w')) = true)
    /\ (exists s' w' st',
          writeStream okE (mkStream 233 (replicate 300 [] ++ [img20])) s w
          = Some (0, s', w', st')
          /\ _error s' = UPDATE_ERROR_STREAM).
Proof.
  eexists _, _. split; [vm_compute; reflexivity|]. split; [|split].
  - refine (proj1 (proj2 (stream_stall_budget okE 233 img20 [] _ _ _ _))).
    + discriminate.
    + vm_compute. split; [discriminate|reflexivity].
  - eexists _, _, _. split; [vm_compute; reflexivity|].
    split; vm_compute; reflexivity.
  - eexists _, _, _. split; [vm_compute; reflexivity|]. vm_compute; reflexivity.
Defined.

(** ** Byte arrays and partitions *)

Lemma length_splice off data (l : list Z) : length (splice off data l) = length l.
Proof.
  unfold splice. rewrite length_take, !length_app, length_take, length_drop. lia.
Qed.

Lemma zlen_splice off data l : zlen (splice off data l) = zlen l.
Proof. unfold zlen. rewrite length_splice. reflexivity. Qed.

Lemma lookup_splice_lt off data (l : list Z) (i : nat) :
  (i < Z.to_nat off)%nat -> splice off data l !! i = l !! i.
Proof.
  intros Hi. unfold splice.
  destruct (decide (i < length l)%nat) as [Hl|Hl].
  - rewrite lookup_take_lt by exact Hl.
    rewrite lookup_app_l by (rewrite length_take; lia).
    apply lookup_take_lt. exact Hi.
  - rewrite lookup_take_ge by lia. symmetry. apply lookup_ge_None. lia.
Qed.

Lemma lookup_splice_ge off data (l : list Z) (i : nat) :
  (Z.to_nat off + length data <= i)%nat -> splice off data l !! i = l !! i.
Proof.
  intros Hi. unfold splice.
  destruct (decide (i < length l)%nat) as [Hl|Hl].
  - rewrite lookup_take_lt by exact Hl.
    rewrite lookup_app_r by (rewrite length_take; lia).
    rewrite lookup_app_r by (rewrite length_take; lia).
    rewrite lookup_drop, length_take. f_equal. lia.
  - rewrite lookup_take_ge by lia. symmetry. apply lookup_ge_None. lia.
Qed.

Lemma lookup_splice_in off data (l : list Z) (i : nat) :
  (Z.to_nat off <= i < Z.to_nat off + length data)%nat ->
  (i < length l)%nat ->
  splice off data l !! i = data !! (i - Z.to_nat off)%nat.
Proof.
  intros Hi Hl. unfold splice.
  rewrite lookup_take_lt by exact Hl.
  rewrite lookup_app_r by (rewrite length_take; lia).
  rewrite length_take.
  replace (Z.to_nat off `min` length l)%nat with (Z.to_nat off) by lia.
  apply lookup_app_l. lia.
Qed.

Lemma contents_log e w q : contents (log e w) q = contents w q.
Proof. destruct q; reflexivity. Qed.

Lemma contents_set_boot w p q : contents (set_boot w p) q = contents w q.
Proof. destruct q; reflexivity. Qed.

Lemma contents_store_eq w q c0 c :
  contents w q = Some c0 -> contents (store w q c) q = Some c.
Proof.
  destruct q; cbn [contents store ota spiffs fat]; try reflexivity.
  destruct (spiffs w); [reflexivity|discriminate].
Qed.

Lemma contents_store_ne w q q' c :
  q <> q' -> contents (store w q c) q' = contents w q'.
Proof. destruct q, q'; try congruence; reflexivity. Qed.

(** A failed accessor call leaves every partition as it is; a successful
    erase or write changes the range it names, in the partition it names. *)
Lemma partitionEraseRange_result (E : Env) w p off len r w' :
  partitionEraseRange E w p off len = (r, w') ->
  grows w w'
  /\ ((r = false /\ forall q, contents w' q = contents w q)
      \/ (r = true /\ exists q c,
            p = Some q /\ contents w q = Some c /\ off + len <= zlen c
            /\ w' = store (log (EErase off len) w) q
                      (splice off (replicate (Z.to_nat len) ERASED) c))).
Proof.
  intros H. split.
  { pose proof (grows_partitionEraseRange E w p off len) as Hg.
    rewrite H in Hg. exact Hg. }
  unfold partitionEraseRange in H.
  destruct p as [q|]; [|injection H as <- <-; left; auto].
  destruct (contents w q) as [c|] eqn:Hc;
    [|injection H as <- <-; left; split; [reflexivity|];
      intros; apply contents_log].
  destruct (erase_ok E (now w) && (off + len <=? zlen c)) eqn:Hok;
    injection H as <- <-.
  - right. split; [reflexivity|]. exists q, c.
    apply andb_true_iff in Hok. repeat split; auto; lia.
  - left. split; [reflexivity|]. intros; apply contents_log.
Qed.

Lemma partitionWrite_result (E : Env) w p off src len r w' :
  partitionWrite E w p off src len = (r, w') ->
  grows w w'
  /\ ((r = false /\ forall q, contents w' q = contents w q)
      \/ (r = true /\ exists q m c,
            p = Some q /\ src = Some m /\ contents w q = Some c
            /\ off + len <= zlen c
            /\ w' = store (log (EWrite off len) w) q
                      (splice off (ztake len m) c))).
Proof.
  intros H. split.
  { pose proof (grows_partitionWrite E w p off src len) as Hg.
    rewrite H in Hg. exact Hg. }
  unfold partitionWrite in H.
  destruct p as [q|]; [|injection H as <- <-; left; auto].
  destruct src as [m|]; [|injection H as <- <-; left; auto].
  destruct (contents w q) as [c|] eqn:Hc;
    [|injection H as <- <-; left; split; [reflexivity|];
      intros; apply contents_log].
  destruct (write_ok E (now w) && (off + len <=? zlen c)) eqn:Hok;
    injection H as <- <-.
  - right. split; [reflexivity|]. exists q, m, c.
    apply andb_true_iff in Hok. repeat split; auto; lia.
  - left. split; [reflexivity|]. intros; apply contents_log.
Qed.

Lemma contents_reset s w q : contents (snd (_reset s w)) q = contents w q.
Proof. unfold _reset. st_simpl. destruct (_buffer s); [apply contents_log|reflexivity]. Qed.

Lemma contents_abort s w e q : contents (snd (_abort s w e)) q = contents w q.
Proof. apply contents_reset. Qed.

Lemma target_contents_ext w w' p :
  (forall q, contents w' q = contents w q) ->
  target_contents w' p = target_contents w p.
Proof. intros H. destruct p as [q|]; [|reflexivity]. simpl. rewrite H. reflexivity. Qed.

(** What a successful flush has done: the erase block at the progress is
    erased and the buffer written over it, without its first block on the
    first flush of a firmware image, which is stashed instead. *)
Lemma writeBuffer_ok (E : Env) s w s' w' :
  _writeBuffer E s w = (true, s', w') ->
  let skip := if first_flush s then ENCRYPTED_BLOCK_SIZE else 0 in
  exists q c b,
    _partition s = Some q /\ contents w q = Some c /\ _buffer s = Some b
    /\ _progress s + SPI_FLASH_SEC_SIZE <= zlen c
    /\ wrap (_progress s + skip) + wrap (_bufferLen s - skip) <= zlen c
    /\ contents w' q
       = Some (splice (wrap (_progress s + skip))
                 (ztake (wrap (_bufferLen s - skip)) (zdrop skip b))
                 (splice (_progress s)
                    (replicate (Z.to_nat SPI_FLASH_SEC_SIZE) ERASED) c))
    /\ (forall q', q' <> q -> contents w' q' = contents w q')
    /\ (first_flush s = true -> byte_at b 0 = ESP_IMAGE_HEADER_MAGIC)
    /\ _skipBuffer s'
       = (if first_flush s then Some (ztake ENCRYPTED_BLOCK_SIZE b)
          else _skipBuffer s)
    /\ _buffer s'
       = Some (if first_flush s then splice 0 [ESP_IMAGE_HEADER_MAGIC] b else b)
    /\ _md5 s'
       = _md5 s ++ ztake (_bufferLen s)
                     (if first_flush s then splice 0 [ESP_IMAGE_HEADER_MAGIC] b
                      else b)
    /\ _progress s' = wrap (_progress s + _bufferLen s)
    /\ _bufferLen s' = 0
    /\ _error s' = _error s /\ _size s' = _size s
    /\ _command s' = _command s /\ _partition s' = _partition s
    /\ _target_md5 s' = _target_md5 s.
Proof.
  intros H. unfold _writeBuffer in H.
  destruct (stash_first_block E s w) as [[s0 w0]|[[skip s0] w0]] eqn:Hst;
    [discriminate|].
  assert (Hs0 : (forall q, contents w0 q = contents w q)
                /\ ((first_flush s = true /\ skip = ENCRYPTED_BLOCK_SIZE
                     /\ byte_at (default [] (_buffer s)) 0 = ESP_IMAGE_HEADER_MAGIC
                     /\ s0 = set_skipBuffer s
                              (Some (ztake ENCRYPTED_BLOCK_SIZE
                                       (default [] (_buffer s)))))
                    \/ (first_flush s = false /\ skip = 0 /\ s0 = s))).
  { unfold stash_first_block in Hst. fold (first_flush s) in Hst.
    destruct (first_flush s); [|injection Hst as <- <- <-; auto].
    destruct (negb _) eqn:Hm; [discriminate|].
    unfold malloc in Hst.
    destruct (malloc_ok E (now w)); [|discriminate].
    injection Hst as <- <- <-. split; [intros; apply contents_log|].
    left. repeat split. apply negb_false_iff in Hm. lia. }
  destruct Hs0 as (Hc0 & Hs0).
  set (w1 := if (_progress s0 =? 0) && _progress_callback s0
             then log (EProgress 0 (_size s0)) w0 else w0) in H.
  assert (Hc1 : forall q, contents w1 q = contents w q).
  { intros q. subst w1. destruct (_ && _); rewrite ?contents_log; apply Hc0. }
  destruct (partitionEraseRange E w1 (_partition s0) (_progress s0)
              SPI_FLASH_SEC_SIZE) as [[|] w2] eqn:He;
    [|destruct (_abort s0 w2 UPDATE_ERROR_ERASE); discriminate].
  apply partitionEraseRange_result in He.
  destruct He as (_ & [(? & _)|(_ & q & c & Hq & Hc & Hb & ->)]); [discriminate|].
  destruct (partitionWrite E _ (_partition s0) _ _ _) as [[|] w3] eqn:Hw;
    [|destruct (_abort s0 w3 UPDATE_ERROR_WRITE); discriminate].
  apply partitionWrite_result in Hw.
  destruct Hw as (_ & [(? & _)|(_ & q2 & m & c2 & Hq2 & Hm & Hc2 & Hb2 & ->)]);
    [discriminate|].
  assert (q2 = q) as -> by congruence.
  rewrite (contents_store_eq _ _ c) in Hc2 by (rewrite contents_log; exact Hc).
  apply (inj Some) in Hc2. subst c2.
  destruct (_buffer s0) as [b|] eqn:Hbuf; [|discriminate].
  cbn [fmap option_fmap option_map] in Hm. apply (inj Some) in Hm. subst m.
  rewrite Hc1 in Hc.
  assert (Hfields : _partition s0 = _partition s /\ _buffer s0 = _buffer s
                    /\ _progress s0 = _progress s /\ _bufferLen s0 = _bufferLen s
                    /\ _command s0 = _command s /\ _md5 s0 = _md5 s
                    /\ _error s0 = _error s /\ _size s0 = _size s
                    /\ _target_md5 s0 = _target_md5 s
                    /\ _skipBuffer s0
                       = (if first_flush s
                          then Some (ztake ENCRYPTED_BLOCK_SIZE b)
                          else _skipBuffer s)).
  { destruct Hs0 as [(Hf & _ & _ & ->)|(Hf & _ & ->)]; rewrite Hf; st_simpl;
      repeat split; try reflexivity.
    st_simpl. rewrite Hbuf. reflexivity. }
  destruct Hfields as (Hp & Hbf & Hpr & Hbl & Hcm & Hmd & Her & Hsz & Htm & Hsk).
  assert (Hskip : skip = if first_flush s then ENCRYPTED_BLOCK_SIZE else 0).
  { destruct Hs0 as [(-> & -> & _)|(-> & -> & _)]; reflexivity. }
  assert (Hdrop : skip / 4 * 4 = skip).
  { rewrite Hskip. destruct (first_flush s); reflexivity. }
  rewrite Hdrop in *.
  exists q, c, b. rewrite <- Hp, <- Hbf, <- Hpr, <- Hbl, <- Hskip.
  split; [exact Hq|]. split; [exact Hc|]. split; [exact Hbuf|].
  split; [exact Hb|]. split; [rewrite zlen_splice in Hb2; exact Hb2|].
  assert (Hff : (_progress s0 =? 0) && (_command s0 =? U_FLASH) = first_flush s).
  { unfold first_flush. rewrite Hpr, Hcm. reflexivity. }
  rewrite Hff in H.
  split.
  { apply (f_equal snd) in H. cbn [snd] in H. subst w'.
    match goal with
    | |- contents (if ?x then _ else _) _ = _ => destruct x
    end; rewrite ?contents_log;
      (erewrite contents_store_eq;
       [reflexivity|erewrite contents_log, contents_store_eq;
                    [reflexivity|rewrite contents_log, Hc1; exact Hc]]). }
  split.
  { intros q' Hne. apply (f_equal snd) in H. cbn [snd] in H. subst w'.
    match goal with
    | |- contents (if ?x then _ else _) _ = _ => destruct x
    end; rewrite ?contents_log;
      rewrite contents_store_ne, contents_log, contents_store_ne, contents_log
        by congruence; apply Hc1. }
  split.
  { intros Hf. destruct Hs0 as [(_ & _ & Hm & _)|(Hf' & _)]; [|congruence].
    rewrite <- Hbf, Hbuf in Hm. exact Hm. }
  apply (f_equal (fun x => snd (fst x))) in H. cbn [fst snd] in H. subst s'.
  destruct (first_flush s); st_simpl; rewrite ?Hbuf; st_simpl;
    cbn [fmap option_fmap option_map default]; unfold id; rewrite ?Hmd;
    repeat split; auto.
Qed.

Lemma same_below_refl n w : same_below n w w.
Proof. intros q. destruct (contents w q) as [c|]; [exists c|]; auto. Qed.

Lemma same_below_trans n w1 w2 w3 :
  same_below n w1 w2 -> same_below n w2 w3 -> same_below n w1 w3.
Proof.
  intros H1 H2 q. specialize (H1 q). specialize (H2 q).
  destruct (contents w1 q) as [c|].
  - destruct H1 as (c2 & Hc2 & Hl2 & Hi2). rewrite Hc2 in H2.
    destruct H2 as (c3 & Hc3 & Hl3 & Hi3).
    exists c3. split; [exact Hc3|]. split; [congruence|].
    intros i Hi. rewrite Hi3, Hi2 by exact Hi. reflexivity.
  - rewrite H1 in H2. exact H2.
Qed.

Lemma same_below_ext n w w' :
  (forall q, contents w' q = contents w q) -> same_below n w w'.
Proof.
  intros H q. rewrite H. destruct (contents w q) as [c|]; [exists c|]; auto.
Qed.

Lemma same_below_store n w q c off data :
  contents w q = Some c -> (n <= Z.to_nat off)%nat ->
  same_below n w (store w q (splice off data c)).
Proof.
  intros Hc Hn q'. destruct (decide (q = q')) as [<-|Hne].
  - rewrite Hc. exists (splice off data c).
    rewrite (contents_store_eq _ _ c) by exact Hc.
    split; [reflexivity|]. split; [apply length_splice|].
    intros i Hi. apply lookup_splice_lt. lia.
  - rewrite contents_store_ne by exact Hne.
    destruct (contents w q') as [c'|]; [exists c'|]; auto.
Qed.

Lemma same_below_log n e w : same_below n w (log e w).
Proof. apply same_below_ext. intros; apply contents_log. Qed.

Lemma same_below_abort n s w e : same_below n w (snd (_abort s w e)).
Proof. apply same_below_ext. intros; apply contents_abort. Qed.

Lemma same_below_erase (E : Env) n w p off len r w' :
  partitionEraseRange E w p off len = (r, w') ->
  (n <= Z.to_nat off)%nat -> same_below n w w'.
Proof.
  intros H Hn. apply partitionEraseRange_result in H.
  destruct H as (_ & [(_ & H)|(_ & q & c & _ & Hc & _ & ->)]).
  - apply same_below_ext, H.
  - eapply same_below_trans; [apply (same_below_log n (EErase off len))|].
    apply same_below_store; [rewrite contents_log; exact Hc|exact Hn].
Qed.

Lemma same_below_write (E : Env) n w p off src len r w' :
  partitionWrite E w p off src len = (r, w') ->
  (n <= Z.to_nat off)%nat -> same_below n w w'.
Proof.
  intros H Hn. apply partitionWrite_result in H.
  destruct H as (_ & [(_ & H)|(_ & q & m & c & _ & _ & Hc & _ & ->)]).
  - apply same_below_ext, H.
  - eapply same_below_trans; [apply (same_below_log n (EWrite off len))|].
    apply same_below_store; [rewrite contents_log; exact Hc|exact Hn].
Qed.

(** A flush, whatever its result, leaves the partitions as they are below
    the progress. *)
Lemma writeBuffer_same_below (E : Env) s w r s' w' :
  0 <= _progress s < SIZE_MOD ->
  _writeBuffer E s w = (r, s', w') ->
  same_below (Z.to_nat (_progress s)) w w'.
Proof.
  intros Hp H. unfold _writeBuffer in H.
  destruct (stash_first_block E s w) as [[s0 w0]|[[skip s0] w0]] eqn:Hst.
  { injection H as _ _ <-. apply same_below_ext.
    unfold stash_first_block, malloc, _abort, _reset in Hst.
    repeat match type of Hst with
    | context [if ?c then _ else _] => destruct c
    end; try discriminate; apply (inj inl) in Hst;
      apply (f_equal snd) in Hst; cbn [snd] in Hst; subst w0; intros q;
      try destruct (_buffer s); rewrite ?contents_log; reflexivity. }
  assert (Hs0 : same_below (Z.to_nat (_progress s)) w w0
                /\ _progress s0 = _progress s
                /\ (skip = 0 \/ _progress s = 0)).
  { unfold stash_first_block, malloc in Hst.
    destruct (_progress s =? 0) eqn:H0; cbn [andb] in Hst;
      [|injection Hst as <- <- <-; repeat split; auto using same_below_refl].
    repeat match type of Hst with
    | context [if ?c then _ else _] => destruct c
    end; try discriminate; injection Hst as <- <- <-; st_simpl;
      (split; [|split; [reflexivity|lia]]);
      auto using same_below_refl, same_below_log. }
  destruct Hs0 as (Hw0 & Hpr & Hskip). rewrite Hpr in H.
  set (w1 := if (_progress s =? 0) && _progress_callback s0
             then log (EProgress 0 (_size s0)) w0 else w0) in H.
  assert (Hw1 : same_below (Z.to_nat (_progress s)) w w1).
  { subst w1. destruct (_ && _); [|exact Hw0].
    eapply same_below_trans; [exact Hw0|apply same_below_log]. }
  destruct (partitionEraseRange E w1 _ _ _) as [re w2] eqn:He.
  apply same_below_erase with (n := Z.to_nat (_progress s)) in He; [|lia].
  assert (Hw2 : same_below (Z.to_nat (_progress s)) w w2)
    by (eapply same_below_trans; eassumption).
  destruct re.
  2:{ pose proof (same_below_abort (Z.to_nat (_progress s)) s0 w2
                    UPDATE_ERROR_ERASE) as Ha.
      destruct (_abort s0 w2 UPDATE_ERROR_ERASE). injection H as _ _ <-.
      eapply same_below_trans; eassumption. }
  destruct (partitionWrite E w2 _ _ _ _) as [rw w3] eqn:Hw.
  apply same_below_write with (n := Z.to_nat (_progress s)) in Hw.
  2:{ destruct Hskip as [-> | ->].
      - rewrite Z.add_0_r, wrap_small by lia. lia.
      - simpl. lia. }
  assert (Hw3 : same_below (Z.to_nat (_progress s)) w w3)
    by (eapply same_below_trans; eassumption).
  destruct rw.
  2:{ pose proof (same_below_abort (Z.to_nat (_progress s)) s0 w3
                    UPDATE_ERROR_WRITE) as Ha.
      destruct (_abort s0 w3 UPDATE_ERROR_WRITE). injection H as _ _ <-.
      eapply same_below_trans; eassumption. }
  apply (f_equal snd) in H. cbn [snd] in H. subst w'.
  match goal with
  | |- same_below _ _ (if ?c then _ else _) => destruct c
  end; [|exact Hw3].
  eapply same_below_trans; [exact Hw3|apply same_below_log].
Qed.

Lemma same_below_first_byte n w w' p :
  (0 < n)%nat -> same_below n w w' ->
  byte_at (target_contents w' p) 0 = byte_at (target_contents w p) 0.
Proof.
  intros Hn H. destruct p as [q|]; [|reflexivity]. cbn [target_contents].
  specialize (H q). destruct (contents w q) as [c|].
  - destruct H as (c' & -> & _ & Hi). cbn [default].
    unfold byte_at. rewrite Hi by (simpl; lia). reflexivity.
  - rewrite H. reflexivity.
Qed.

Lemma same_below_size n w w' p :
  same_below n w w' -> partition_size w' p = partition_size w p.
Proof.
  intros H. unfold partition_size, zlen. destruct p as [q|]; [|reflexivity].
  cbn [target_contents]. specialize (H q). destruct (contents w q) as [c|].
  - destruct H as (c' & -> & Hl & _). cbn [default]. unfold id.
    rewrite Hl. reflexivity.
  - rewrite H. reflexivity.
Qed.

(** ** The activation writes the stash back *)

Lemma enablePartition_ok (E : Env) s w w' :
  _enablePartition E s w = (true, w') ->
  exists q k c,
    _partition s = Some q /\ _skipBuffer s = Some k /\ contents w q = Some c
    /\ ENCRYPTED_BLOCK_SIZE <= zlen c
    /\ contents w' q = Some (splice 0 (ztake ENCRYPTED_BLOCK_SIZE k) c).
Proof.
  unfold _enablePartition. destruct (_partition s) as [q|] eqn:Hq; [|discriminate].
  intros H. apply partitionWrite_result in H.
  destruct H as (_ & [(? & _)|(_ & q' & m & c & Hq' & Hm & Hc & Hb & ->)]);
    [discriminate|].
  apply (inj Some) in Hq'. subst q'.
  exists q, m, c. split; [reflexivity|]. split; [exact Hm|].
  split; [exact Hc|]. split; [lia|].
  apply (contents_store_eq _ _ c). rewrite contents_log. exact Hc.
Qed.

Lemma contents_partitionIsBootable (E : Env) w p q :
  contents (snd (_partitionIsBootable E w p)) q = contents w q.
Proof.
  unfold _partitionIsBootable, partitionRead. destruct p as [p|]; [|reflexivity].
  destruct (contents w p); [|apply contents_log].
  destruct (_ && _); [destruct (negb _)|]; apply contents_log.
Qed.

Lemma contents_set_boot_partition (E : Env) w p q :
  contents (snd (esp_ota_set_boot_partition E w p)) q = contents w q.
Proof.
  unfold esp_ota_set_boot_partition. destruct p as [p|]; [|reflexivity].
  destruct (set_boot_ok E (now w)); cbn [snd];
    rewrite ?contents_set_boot; apply contents_log.
Qed.

Lemma signatureValid_ok (E : Env) s w s' w' :
  _signatureValid E s w = (true, s', w') ->
  s' = s
  /\ exists w1, _enablePartition E s w = (true, w1)
                /\ forall q, contents w' q = contents w1 q.
Proof.
  unfold _signatureValid.
  destruct (_enablePartition E s w) as [[|] w1]; cbn [negb].
  2:{ rewrite (abort_eta s w1 UPDATE_ERROR_NO_PARTITION). discriminate. }
  destruct (sha256 E _ _).
  2:{ rewrite (abort_eta s _ UPDATE_ERROR_GET_SHA256). discriminate. }
  destruct (negb (pk_parse_ok E _)).
  { rewrite (abort_eta s _ UPDATE_ERROR_SIGNATURE_NOT_VALID). discriminate. }
  destruct (negb (pk_verify_ok E _ _ _)).
  { rewrite (abort_eta s _ UPDATE_ERROR_SIGNATURE_NOT_VALID). discriminate. }
  intros H. apply pair_equal_spec in H. destruct H as [H <-].
  apply pair_equal_spec in H. destruct H as [_ <-].
  split; [reflexivity|]. exists w1. split; [reflexivity|].
  intros q. rewrite !contents_log. reflexivity.
Qed.

Lemma verifyEnd_ok (E : Env) s w s' w' :
  _verifyEnd E s w = (true, s', w') ->
  _partition s' = _partition s
  /\ ((_command s = U_FLASH
       /\ exists w1, _enablePartition E s w = (true, w1)
                     /\ forall q, contents w' q = contents w1 q)
      \/ (_command s <> U_FLASH /\ forall q, contents w' q = contents w q)).
Proof.
  unfold _verifyEnd. destruct (_command s =? U_FLASH) eqn:Hc.
  - destruct (_enablePartition E s w) as [[|] w1].
    2:{ cbn [negb]. rewrite (abort_eta s w1 UPDATE_ERROR_READ). discriminate. }
    pose proof (fun q => contents_partitionIsBootable E w1 (_partition s) q) as Hb.
    destruct (_partitionIsBootable E w1 (_partition s)) as [[|] w2]; cbn [negb].
    2:{ rewrite (abort_eta s w2 UPDATE_ERROR_READ). discriminate. }
    pose proof (fun q => contents_set_boot_partition E w2 (_partition s) q) as Hsb.
    destruct (esp_ota_set_boot_partition E w2 (_partition s)) as [[|] w3].
    2:{ rewrite (abort_eta s w3 UPDATE_ERROR_ACTIVATE). discriminate. }
    pose proof (fun q => contents_reset s w3 q) as Hr.
    destruct (_reset s w3) as [s4 w4] eqn:Hrs.
    intros H. apply pair_equal_spec in H. destruct H as [H <-].
    apply pair_equal_spec in H. destruct H as [_ <-].
    split; [unfold _reset in Hrs; apply pair_equal_spec in Hrs;
            destruct Hrs as [<- _]; reflexivity|].
    left. split; [lia|]. exists w1. split; [reflexivity|].
    intros q. cbn [snd] in *. rewrite Hr, Hsb, Hb. reflexivity.
  - destruct (_command s =? U_SPIFFS); [|discriminate].
    pose proof (fun q => contents_reset s w q) as Hr.
    destruct (_reset s w) as [s4 w4] eqn:Hrs.
    intros H. apply pair_equal_spec in H. destruct H as [H <-].
    apply pair_equal_spec in H. destruct H as [_ <-].
    split; [unfold _reset in Hrs; apply pair_equal_spec in Hrs;
            destruct Hrs as [<- _]; reflexivity|].
    right. split; [lia|exact Hr].
Qed.

(** ** The deferred first block *)

Lemma erased_not_magic : ERASED <> ESP_IMAGE_HEADER_MAGIC.
Proof. discriminate. Qed.

Lemma first_byte_same_below n s s' w w' :
  (0 < n)%nat -> same_below n w w' -> _partition s' = _partition s ->
  first_byte s' w' = first_byte s w.
Proof.
  intros Hn H Hp. unfold first_byte. rewrite Hp.
  eapply same_below_first_byte; eassumption.
Qed.

Lemma first_byte_ext s s' w w' :
  (forall q, contents w' q = contents w q) -> _partition s' = _partition s ->
  first_byte s' w' = first_byte s w.
Proof.
  intros H Hp. unfold first_byte. rewrite Hp, (target_contents_ext w w'); auto.
Qed.

Lemma partition_size_ext w w' p :
  (forall q, contents w' q = contents w q) ->
  partition_size w' p = partition_size w p.
Proof. intros H. unfold partition_size. rewrite (target_contents_ext w w'); auto. Qed.

(** A flush keeps the first block deferred, and after a successful flush
    the first byte of the partition reads as erased. *)
Lemma writeBuffer_deferred (E : Env) s w r s' w' :
  deferred s w ->
  _writeBuffer E s w = (r, s', w') ->
  deferred s' w'
  /\ (r = true -> _progress s' <> 0 /\ first_byte s' w' = ERASED)
  /\ (_progress s <> 0 -> first_byte s' w' = ERASED).
Proof.
  intros (Hcmd & Hpr & Hsz & Hfb) H.
  pose proof (writeBuffer_same_below E s w r s' w' Hpr H) as Hsb.
  pose proof (writeBuffer_result E s w r s' w' H) as (_ & Hpart & Hres).
  assert (Hsz' : partition_size w' (_partition s') < SIZE_MOD).
  { rewrite Hpart, (same_below_size _ w w') by exact Hsb. exact Hsz. }
  assert (Hkeep : _progress s <> 0 -> first_byte s' w' = ERASED).
  { intros Hne. rewrite <- (Hfb Hne).
    apply (first_byte_same_below (Z.to_nat (_progress s))); auto. lia. }
  destruct Hres as [(-> & _ & _ & Hcmd' & Hpr' & _)|
                    [(-> & _ & (_ & Hp0 & _) & Hcmd')|(-> & ->)]].
  - apply writeBuffer_ok in H. cbv zeta in H.
    destruct H as (q & c & b & Hq & Hc & Hb & He & Hw & Hc' & _).
    assert (Hzc : zlen c < SIZE_MOD).
    { unfold partition_size in Hsz. rewrite Hq in Hsz.
      cbn [target_contents] in Hsz. rewrite Hc in Hsz. exact Hsz. }
    assert (Hnz : _progress s' <> 0 /\ first_byte s' w' = ERASED).
    { destruct (first_flush s) eqn:Hff.
      - unfold first_flush in Hff. apply andb_true_iff in Hff.
        destruct Hff as [H0 _]. apply Z.eqb_eq in H0. rewrite H0 in *.
        rewrite (wrap_small (0 + ENCRYPTED_BLOCK_SIZE)) in *
          by (unfold ENCRYPTED_BLOCK_SIZE, SIZE_MOD; lia).
        pose proof (wrap_range (_bufferLen s - ENCRYPTED_BLOCK_SIZE)) as Hr.
        split.
        + rewrite Hpr'.
          replace (0 + _bufferLen s)
            with (_bufferLen s - ENCRYPTED_BLOCK_SIZE + ENCRYPTED_BLOCK_SIZE)
            by lia.
          unfold wrap in *. rewrite <- Zplus_mod_idemp_l.
          rewrite Z.mod_small; unfold ENCRYPTED_BLOCK_SIZE in *; lia.
        + unfold first_byte. rewrite Hpart, Hq. cbn [target_contents].
          rewrite Hc'. cbn [default]. unfold byte_at, id.
          change (Z.to_nat 0) with 0%nat.
          rewrite lookup_splice_lt by (unfold ENCRYPTED_BLOCK_SIZE; simpl; lia).
          rewrite lookup_splice_in.
          * rewrite lookup_replicate_2; [reflexivity|].
            unfold SPI_FLASH_SEC_SIZE. lia.
          * rewrite length_replicate. unfold SPI_FLASH_SEC_SIZE. lia.
          * unfold zlen, SPI_FLASH_SEC_SIZE in He. lia.
      - assert (Hp0 : _progress s <> 0).
        { unfold first_flush in Hff. rewrite Hcmd, Z.eqb_refl, andb_true_r in Hff.
          lia. }
        split; [|exact (Hkeep Hp0)].
        rewrite Z.add_0_r, Z.sub_0_r in Hw.
        rewrite (wrap_small (_progress s)) in Hw by lia.
        pose proof (wrap_range (_bufferLen s)) as Hr.
        rewrite Hpr'. unfold wrap in *. rewrite <- Zplus_mod_idemp_r.
        rewrite Z.mod_small; lia. }
    split; [|split; [intros _; exact Hnz|exact Hkeep]].
    split; [congruence|]. split; [rewrite Hpr'; apply wrap_range|].
    split; [exact Hsz'|]. intros _. apply Hnz.
  - split; [|split; [discriminate|exact Hkeep]].
    split; [exact Hcmd'|]. split; [rewrite Hp0; unfold SIZE_MOD; lia|].
    split; [exact Hsz'|]. intros Hne. congruence.
  - split; [|split; [discriminate|exact Hkeep]].
    split; [exact Hcmd|]. split; [exact Hpr|]. split; [exact Hsz'|].
    exact Hkeep.
Qed.

Lemma abort_deferred s w e :
  deferred s w ->
  deferred (fst (_abort s w e)) (snd (_abort s w e))
  /\ (_progress s <> 0 -> first_byte (fst (_abort s w e)) (snd (_abort s w e)) = ERASED).
Proof.
  intros (Hcmd & Hpr & Hsz & Hfb).
  assert (Hc : forall q, contents (snd (_abort s w e)) q = contents w q)
    by (intros; apply contents_abort).
  split.
  - split; [reflexivity|]. split; [cbn; unfold SIZE_MOD; lia|].
    split; [|intros H; exfalso; apply H; reflexivity].
    rewrite (partition_size_ext w) by exact Hc. exact Hsz.
  - intros Hne. rewrite <- (Hfb Hne). apply first_byte_ext; [exact Hc|reflexivity].
Qed.

(** A flush that fails has changed no partition, or has erased the first
    block at least: the first byte is never left as it was written. *)
Lemma writeBuffer_unexposed (E : Env) s w r s' w' :
  deferred s w ->
  _writeBuffer E s w = (r, s', w') ->
  unexposed s w s' w'.
Proof.
  intros Hd H.
  destruct (writeBuffer_deferred E s w r s' w' Hd H) as (_ & Hok & Hkeep).
  destruct (Z.eq_dec (_progress s) 0) as [H0|Hne]; [|left; apply Hkeep, Hne].
  destruct r; [left; apply Hok; reflexivity|].
  destruct Hd as (Hcmd & _).
  unfold _writeBuffer, stash_first_block in H.
  rewrite H0, Hcmd in H.
  change ((0 =? 0) && (U_FLASH =? U_FLASH)) with true in H. cbv iota in H.
  destruct (negb _) in H.
  { rewrite (abort_eta s w UPDATE_ERROR_MAGIC_BYTE) in H. apply pair_equal_spec in H; destruct H as [H <-];
      apply pair_equal_spec in H; destruct H as [_ <-].
    right. split; [exact H0|]. intros q. apply (contents_abort s w UPDATE_ERROR_MAGIC_BYTE). }
  unfold malloc in H. destruct (malloc_ok E (now w)) in H.
  2:{ injection H as <- <-. right. split; [exact H0|].
      intros q. apply contents_log. }
  cbv beta iota zeta in H. st_simpl. rewrite H0 in H.
  match type of H with
  | context [partitionEraseRange E ?x _ _ _] => set (w2 := x) in H
  end.
  assert (Hw2 : forall q, contents w2 q = contents w q).
  { intros q. subst w2. destruct (_ && _); rewrite ?contents_log; reflexivity. }
  set (s1 := set_skipBuffer s _) in H.
  destruct (partitionEraseRange E w2 (_partition s) 0 SPI_FLASH_SEC_SIZE)
    as [[|] w3] eqn:He; apply partitionEraseRange_result in He;
    destruct He as (_ & [(He & Hc3)|(He & q & c & Hq & Hc & Hlen & Hw3)]);
    try discriminate He.
  2:{ rewrite (abort_eta s1 w3 UPDATE_ERROR_ERASE) in H.
      apply pair_equal_spec in H; destruct H as [H <-];
      apply pair_equal_spec in H; destruct H as [_ <-].
      right. split; [exact H0|]. intros q.
      rewrite (contents_abort s1 w3 UPDATE_ERROR_ERASE), Hc3. apply Hw2. }
  destruct (partitionWrite E w3 _ _ _ _) as [[|] w4] eqn:Hwr; [discriminate|].
  apply partitionWrite_result in Hwr.
  destruct Hwr as (_ & [(_ & Hc4)|(Hwr & _)]); [|discriminate Hwr].
  rewrite (abort_eta s1 w4 UPDATE_ERROR_WRITE) in H.
  apply pair_equal_spec in H; destruct H as [H <-];
  apply pair_equal_spec in H; destruct H as [_ <-].
  left. unfold first_byte.
  change (_partition (fst (_abort s1 w4 UPDATE_ERROR_WRITE))) with (_partition s).
  rewrite Hq. cbn [target_contents].
  rewrite (contents_abort s1 w4 UPDATE_ERROR_WRITE), Hc4, Hw3.
  rewrite (contents_store_eq _ q c) by (rewrite contents_log; exact Hc).
  cbn [default]. unfold byte_at, id. change (Z.to_nat 0) with 0%nat.
  rewrite lookup_splice_in.
  - rewrite lookup_replicate_2; [reflexivity|]. unfold SPI_FLASH_SEC_SIZE. lia.
  - rewrite length_replicate. unfold SPI_FLASH_SEC_SIZE. lia.
  - unfold zlen, SPI_FLASH_SEC_SIZE in Hlen. lia.
Qed.

(** The invariant holds when a call begins and is kept by every step. *)
Lemma shielded_init s w : deferred s w -> shielded s w s w.
Proof.
  intros Hd. split; [exact Hd|]. split; [reflexivity|].
  destruct (Z.eq_dec (_progress s) 0) as [H0|Hne].
  - right. auto.
  - left. apply Hd, Hne.
Qed.

Lemma shielded_step s0 w0 s w s' w' :
  shielded s0 w0 s w -> deferred s' w' -> _partition s' = _partition s ->
  unexposed s w s' w' -> shielded s0 w0 s' w'.
Proof.
  intros (_ & Hp & Hu) Hd' Hp' Hu'.
  split; [exact Hd'|]. split; [congruence|].
  destruct Hu' as [He|[_ Hc]]; [left; exact He|].
  assert (Hfb : first_byte s' w' = first_byte s w)
    by (apply first_byte_ext; assumption).
  destruct Hu as [He|[H0 Hc0]]; [left; congruence|].
  right. split; [exact H0|]. intros q. rewrite Hc. apply Hc0.
Qed.

Lemma shielded_flush (E : Env) s0 w0 s w r s' w' :
  shielded s0 w0 s w -> _writeBuffer E s w = (r, s', w') ->
  shielded s0 w0 s' w'.
Proof.
  intros Hs H. pose proof Hs as (Hd & _).
  apply (shielded_step s0 w0 s w); [exact Hs| | |].
  - apply (writeBuffer_deferred E s w r s' w' Hd H).
  - apply (writeBuffer_result E s w r s' w' H).
  - exact (writeBuffer_unexposed E s w r s' w' Hd H).
Qed.

Lemma shielded_abort s0 w0 s w e :
  shielded s0 w0 s w ->
  shielded s0 w0 (fst (_abort s w e)) (snd (_abort s w e)).
Proof.
  intros Hs. pose proof Hs as (Hd & _).
  destruct (abort_deferred s w e Hd) as [Hd' Hk].
  apply (shielded_step s0 w0 s w); [exact Hs|exact Hd'|reflexivity|].
  destruct (Z.eq_dec (_progress s) 0) as [H0|Hne]; [|left; apply Hk, Hne].
  right. split; [exact H0|]. intros q. apply contents_abort.
Qed.

Lemma shielded_append s0 w0 s w data from n :
  shielded s0 w0 s w -> shielded s0 w0 (buffer_append s data from n) w.
Proof. exact id. Qed.

Lemma write_loop_shielded (E : Env) s0 w0 fuel data len left_ s w res :
  shielded s0 w0 s w ->
  write_loop E fuel data len left_ s w = Some res ->
  match res with
  | inl (_, s', w') | inr (_, s', w') => shielded s0 w0 s' w'
  end.
Proof.
  revert left_ s w. induction fuel as [|fuel IH]; intros left_ s w Hs;
    cbn [write_loop];
    destruct (wrap (_bufferLen s + left_) >? SPI_FLASH_SEC_SIZE);
    try discriminate;
    try (intros [= <-]; exact Hs).
  destruct (_writeBuffer E _ w) as [[r s1] w1] eqn:Hw.
  apply (shielded_flush E s0 w0) in Hw; [|apply shielded_append, Hs].
  destruct r.
  - apply IH, Hw.
  - intros [= <-]. exact Hw.
Qed.

Lemma write_shielded (E : Env) s0 w0 data s w n s' w' :
  shielded s0 w0 s w ->
  write E data s w = Some (n, s', w') ->
  shielded s0 w0 s' w'.
Proof.
  intros Hs. unfold write.
  destruct (hasError s || negb (isRunning s)).
  { intros [= _ <- <-]. exact Hs. }
  destruct (zlen data >? remaining s).
  { pose proof (shielded_abort s0 w0 s w UPDATE_ERROR_SPACE Hs) as Ha.
    destruct (_abort s w UPDATE_ERROR_SPACE). intros [= _ <- <-]. exact Ha. }
  destruct (write_loop E _ data _ _ s w) as [res|] eqn:Hl; [|discriminate].
  apply (write_loop_shielded E s0 w0) in Hl; [|exact Hs].
  destruct res as [[[r s1] w1]|[[l s1] w1]].
  { intros [= _ <- <-]. exact Hl. }
  destruct (_ =? _).
  - destruct (_writeBuffer E _ w1) as [[r s2] w2] eqn:Hw.
    apply (shielded_flush E s0 w0) in Hw; [|apply shielded_append, Hl].
    destruct r; intros [= _ <- <-]; exact Hw.
  - intros [= _ <- <-]. apply shielded_append, Hl.
Qed.

Lemma stream_loop_shielded (E : Env) s0 w0 fuel written st s w n s' w' st' :
  shielded s0 w0 s w ->
  stream_loop E fuel written st s w = Some (n, s', w', st') ->
  shielded s0 w0 s' w'.
Proof.
  revert written st s w. induction fuel as [|fuel IH]; intros written st s w Hs;
    cbn [stream_loop]; destruct (remaining s =? 0);
    try discriminate;
    try (intros [= _ <- <- _]; exact Hs).
  destruct (read_retry 300 0 st _) as [[[got|] st1]|]; [| |discriminate].
  - destruct (_ || _).
    + destruct (_writeBuffer E _ w) as [[r s1] w1] eqn:Hw.
      apply (shielded_flush E s0 w0) in Hw; [|apply shielded_append, Hs].
      destruct r.
      * apply IH, Hw.
      * intros [= _ <- <- _]. exact Hw.
    + apply IH. apply shielded_append, Hs.
  - pose proof (shielded_abort s0 w0 s w UPDATE_ERROR_STREAM Hs) as Ha.
    destruct (_abort s w UPDATE_ERROR_STREAM). intros [= _ <- <- _]. exact Ha.
Qed.

Lemma writeStream_shielded (E : Env) s0 w0 data s w n s' w' st' :
  shielded s0 w0 s w ->
  writeStream E data s w = Some (n, s', w', st') ->
  shielded s0 w0 s' w'.
Proof.
  intros Hs. unfold writeStream.
  destruct (hasError s || negb (isRunning s)).
  { intros [= _ <- <- _]. exact Hs. }
  unfold _verifyHeader. pose proof Hs as ((Hcmd & _) & _).
  rewrite Hcmd, Z.eqb_refl.
  destruct (negb _).
  - pose proof (shielded_abort s0 w0 s w UPDATE_ERROR_MAGIC_BYTE Hs) as Ha.
    destruct (_abort s w UPDATE_ERROR_MAGIC_BYTE) as [s1 w1] eqn:Hab.
    assert (Hr : _reset s1 w1 = (s1, w1)).
    { unfold _abort, _reset in Hab. injection Hab as <- <-. reflexivity. }
    rewrite Hr. intros [= _ <- <- _]. exact Ha.
  - apply stream_loop_shielded. exact Hs.
Qed.

Lemma shielded_ext s0 w0 s w w' :
  shielded s0 w0 s w -> (forall q, contents w' q = contents w q) ->
  shielded s0 w0 s w'.
Proof.
  intros (Hd & Hp & Hu) Hc.
  assert (Hfb : first_byte s w' = first_byte s w)
    by (apply first_byte_ext; [exact Hc|reflexivity]).
  split; [|split; [exact Hp|]].
  - destruct Hd as (Hcmd & Hpr & Hsz & Hk).
    split; [exact Hcmd|]. split; [exact Hpr|].
    split; [rewrite (partition_size_ext w) by exact Hc; exact Hsz|].
    intros Hne. rewrite Hfb. apply Hk, Hne.
  - destruct Hu as [He|[H0 Hc0]]; [left; congruence|].
    right. split; [exact H0|]. intros q. rewrite Hc. apply Hc0.
Qed.

(** When [end] fails on the premature-end check or on the hash check, it has
    not written the stash back. *)
Lemma end_shielded (E : Env) s0 w0 b s w r s' w' :
  shielded s0 w0 s w ->
  end_ E b s w = (r, s', w') ->
  _error s' = UPDATE_ERROR_ABORT \/ _error s' = UPDATE_ERROR_MD5 ->
  shielded s0 w0 s' w'.
Proof.
  intros Hs. unfold end_.
  destruct (hasError s) eqn:He; cbn [orb].
  { intros [= _ <- <-] _. exact Hs. }
  apply hasError_false in He.
  destruct (_size s =? 0).
  { intros [= _ <- <-] _. exact Hs. }
  destruct (_ && _).
  { pose proof (shielded_abort s0 w0 s w UPDATE_ERROR_ABORT Hs) as Ha.
    destruct (_abort s w UPDATE_ERROR_ABORT). intros [= _ <- <-] _. exact Ha. }
  pose proof (end_flush_result E b s w) as (_ & Hfe).
  assert (Hf : shielded s0 w0 (fst (end_flush E b s w))
                 (snd (end_flush E b s w))).
  { unfold end_flush. destruct b; [|exact Hs].
    destruct (_bufferLen s >? 0); [|exact Hs].
    destruct (_writeBuffer E s w) as [[r1 s1] w1] eqn:Hw.
    apply (shielded_flush E s0 w0) in Hw; [exact Hw|exact Hs]. }
  destruct (end_flush E b s w) as [s1 w1]. st_simpl.
  unfold end_verify.
  destruct (_ && _).
  { rewrite (abort_eta s1 _ UPDATE_ERROR_MD5). intros [= _ <- <-] _.
    apply shielded_abort, (shielded_ext s0 w0 s1 w1); [exact Hf|].
    intros q. apply contents_log. }
  assert (Herr1 : _error s1 <> UPDATE_ERROR_ABORT /\ _error s1 <> UPDATE_ERROR_MD5).
  { unfold flush_error in Hfe.
    destruct Hfe as [->|([->|[->| ->]] & _)]; rewrite ?He; split; discriminate. }
  assert (Hv : forall s2 w2 r0 s3 w3,
             _error s2 <> UPDATE_ERROR_ABORT /\ _error s2 <> UPDATE_ERROR_MD5 ->
             _verifyEnd E s2 w2 = (r0, s3, w3) ->
             _error s3 = UPDATE_ERROR_ABORT \/ _error s3 = UPDATE_ERROR_MD5 ->
             shielded s0 w0 s3 w3).
  { intros s2 w2 r0 s3 w3 [H1 H2] Hve Herr. exfalso.
    apply verifyEnd_result in Hve. unfold activation_error in Hve.
    destruct Hve as [(_ & [[Hx|Hx]|Hx])|(_ & -> & _)]; destruct Herr; congruence. }
  destruct (pubKey_toParse E) as [key|]; [|intros H; eapply Hv; eassumption].
  destruct (_signatureValid E s1 _) as [[rs s2] w2] eqn:Hsv.
  apply signatureValid_result in Hsv.
  destruct Hsv as [(-> & ->)|(-> & _ & _)]; [intros H; eapply Hv; eassumption|].
  unfold _abort, _reset. intros [= _ <- _] [Hx|Hx]; discriminate Hx.
Qed.

(** A successful [begin] starts a session of the command asked for, on a
    partition that can hold the size, with an empty buffer of one erase
    block, and changes no partition. *)
Lemma begin_ok (E : Env) size command ledPin ledOn label s w s' w' :
  begin E size command ledPin ledOn label s w = (true, s', w') ->
  (command = U_FLASH \/ command = U_SPIFFS)
  /\ _command s' = command
  /\ _error s' = UPDATE_ERROR_OK
  /\ _progress s' = 0 /\ _bufferLen s' = 0
  /\ _md5 s' = []
  /\ _size s' = (if size =? UPDATE_SIZE_UNKNOWN
                 then partition_size w (_partition s') else size)
  /\ size <> 0
  /\ _size s' <= partition_size w (_partition s')
  /\ (exists q b, _partition s' = Some q /\ _buffer s' = Some b
                  /\ zlen b = SPI_FLASH_SEC_SIZE
                  /\ (command = U_FLASH -> q = P_OTA))
  /\ (forall q, contents w' q = contents w q).
Proof.
  unfold begin. destruct (_size s >? 0); [discriminate|].
  unfold _reset. cbv beta iota.
  set (w1 := match _buffer _ with Some _ => log EFree w | None => w end).
  assert (Hw1 : forall q, contents w1 q = contents w q).
  { intros q. subst w1. destruct (_buffer _); [apply contents_log|reflexivity]. }
  assert (Hps : forall p, partition_size w1 p = partition_size w p).
  { intros p. apply partition_size_ext, Hw1. }
  destruct (size =? 0) eqn:Hs0; [discriminate|].
  match goal with
  | |- context [match ?sel with inl _ => _ | inr _ => _ end] =>
      destruct sel as [x|x] eqn:Hsel; [discriminate|]
  end.
  assert (Hx : (command = U_FLASH \/ command = U_SPIFFS)
               /\ _error x = UPDATE_ERROR_OK /\ _progress x = 0
               /\ _bufferLen x = 0 /\ _md5 x = []
               /\ exists q, _partition x = Some q
                            /\ (command = U_FLASH -> q = P_OTA)).
  { destruct (command =? U_FLASH) eqn:Hc1.
    - unfold esp_ota_get_next_update_partition in Hsel. st_simpl.
      destruct (ota w1); [|discriminate]. injection Hsel as <-. st_simpl.
      repeat split; try (left; lia). exists P_OTA. auto.
    - destruct (command =? U_SPIFFS) eqn:Hc2; [|discriminate].
      st_simpl.
      destruct (find_spiffs w1 label) as [q|] eqn:Hf.
      + injection Hsel as <-. st_simpl.
        repeat split; try (right; lia). exists q. split; [reflexivity|lia].
      + destruct (find_fat w1) as [q|] eqn:Hf2; [|discriminate].
        injection Hsel as <-. st_simpl.
        repeat split; try (right; lia). exists q. split; [reflexivity|lia]. }
  destruct Hx as (Hcmd & He & Hp & Hbl & Hmd & q & Hq & Hota).
  rewrite Hps.
  destruct (_ >? _) eqn:Hgt; [discriminate|].
  unfold malloc. destruct (malloc_ok E (now w1)); [|discriminate].
  intros H. apply (f_equal (fun x => (snd (fst x), snd x))) in H.
  cbn [fst snd] in H. apply pair_equal_spec in H. destruct H as [Hs' Hw'].
  subst s' w'. st_simpl.
  split; [exact Hcmd|]. repeat split; auto; try lia.
  exists q, (heap_junk E (now w1) <$> seq 0 (Z.to_nat SPI_FLASH_SEC_SIZE)).
  split; [exact Hq|]. split; [reflexivity|]. split; [|exact Hota].
  unfold zlen. rewrite length_fmap, length_seq. unfold SPI_FLASH_SEC_SIZE. lia.
Qed.

Lemma begin_deferred (E : Env) size ledPin ledOn label s w s' w' :
  (forall q c, contents w q = Some c -> zlen c < SIZE_MOD) ->
  begin E size U_FLASH ledPin ledOn label s w = (true, s', w') ->
  deferred s' w'.
Proof.
  intros Hsz H. apply begin_ok in H.
  destruct H as (_ & Hcmd & _ & Hp & _ & _ & _ & _ & _ & (q & b & Hq & _) & Hc).
  split; [exact Hcmd|]. split; [rewrite Hp; unfold SIZE_MOD; lia|].
  split; [|intros Hne; congruence].
  rewrite (partition_size_ext w) by exact Hc.
  unfold partition_size. rewrite Hq. cbn [target_contents].
  destruct (contents w q) as [c|] eqn:Hcq; [exact (Hsz q c Hcq)|].
  unfold SIZE_MOD; reflexivity.
Qed.

(** Whatever the signature check concludes, once its first step has
    written the stash back the first byte of the partition is the first
    byte of the stash. *)
Lemma signatureValid_first_byte (E : Env) s w k w1 r s' w' :
  _skipBuffer s = Some k -> k <> [] ->
  _enablePartition E s w = (true, w1) ->
  _signatureValid E s w = (r, s', w') ->
  first_byte s' w' = byte_at k 0.
Proof.
  intros Hk Hne Hen H.
  assert (Hfb : first_byte s w1 = byte_at k 0).
  { apply enablePartition_ok in Hen.
    destruct Hen as (q & k' & c & Hq & Hk' & Hc & H16 & Hc1).
    assert (k' = k) as -> by congruence.
    unfold first_byte. rewrite Hq. cbn [target_contents]. rewrite Hc1.
    cbn [default]. unfold byte_at, id. change (Z.to_nat 0) with 0%nat.
    rewrite lookup_splice_in.
    - unfold ztake. rewrite lookup_take_lt by (unfold ENCRYPTED_BLOCK_SIZE; simpl; lia).
      reflexivity.
    - unfold ztake. rewrite length_take. destruct k; [congruence|].
      unfold ENCRYPTED_BLOCK_SIZE. simpl. lia.
    - unfold zlen, ENCRYPTED_BLOCK_SIZE in H16. lia. }
  rewrite <- Hfb. unfold _signatureValid in H. rewrite Hen in H. cbn [negb] in H.
  assert (Ha : forall w2 e r0,
             (forall q, contents w2 q = contents w1 q) ->
             (let '(s0, w3) := _abort s w2 e in (r0, s0, w3)) = (r, s', w') ->
             first_byte s' w' = first_byte s w1).
  { intros w2 e r0 Hc. rewrite (abort_eta s w2 e). intros [= _ <- <-].
    apply first_byte_ext; [|reflexivity].
    intros q. exact (eq_trans (contents_abort s w2 e q) (Hc q)). }
  destruct (sha256 E _ _).
  2:{ eapply Ha; [|exact H]. intros q. apply contents_log. }
  destruct (negb (pk_parse_ok E _)).
  { eapply Ha; [|exact H]. intros q. rewrite !contents_log. reflexivity. }
  destruct (negb (pk_verify_ok E _ _ _)).
  { eapply Ha; [|exact H]. intros q. rewrite !contents_log. reflexivity. }
  apply pair_equal_spec in H. destruct H as [H <-].
  apply pair_equal_spec in H. destruct H as [_ <-].
  apply first_byte_ext; [|reflexivity].
  intros q. rewrite !contents_log. reflexivity.
Qed.

(** X23: in a firmware session the first block stays deferred through
    every flush, [write] and [writeStream], and through an [end] that fails
    on the premature-end check or on the hash check: each of them keeps the
    invariant [deferred], which [begin] establishes, and leaves the first
    byte of the partition reading as erased (which is not the magic byte),
    unless it began before the first flush and changed no partition at all.
    A call that makes the first flush and then aborts is covered: it has
    changed the partition.  After a successful flush the first byte reads
    as erased. *)
Theorem first_block_deferred (E : Env) (s : UpdateClass) (w : World) :
  deferred s w ->
  (forall r s' w',
      _writeBuffer E s w = (r, s', w') ->
      deferred s' w'
      /\ (r = true -> first_byte s' w' = ERASED)
      /\ unexposed s w s' w')
  /\ (forall data, exists n s' w',
        write E data s w = Some (n, s', w')
        /\ deferred s' w' /\ unexposed s w s' w')
  /\ (forall data, exists n s' w' st',
        writeStream E data s w = Some (n, s', w', st')
        /\ deferred s' w' /\ unexposed s w s' w')
  /\ (forall evenIfRemaining r s' w',
        end_ E evenIfRemaining s w = (r, s', w') ->
        _error s' = UPDATE_ERROR_ABORT \/ _error s' = UPDATE_ERROR_MD5 ->
        deferred s' w' /\ unexposed s w s' w').
Proof.
  intros Hd. pose proof (shielded_init s w Hd) as Hs.
  split; [|split; [|split]].
  - intros r s' w' H.
    destruct (shielded_flush E s w s w r s' w' Hs H) as (Hd' & _ & Hu).
    split; [exact Hd'|]. split; [|exact Hu].
    intros Hr.
    destruct (writeBuffer_deferred E s w r s' w' Hd H) as (_ & Hok & _).
    apply (Hok Hr).
  - intros data. destruct (write_total E data s w) as [[[n s'] w'] H].
    exists n, s', w'. split; [exact H|].
    destruct (write_shielded E s w data s w n s' w' Hs H) as (Hd' & _ & Hu).
    split; assumption.
  - intros data.
    destruct (writeStream_total E data s w) as [[[[n s'] w'] st'] H].
    exists n, s', w', st'. split; [exact H|].
    destruct (writeStream_shielded E s w data s w n s' w' st' Hs H)
      as (Hd' & _ & Hu).
    split; assumption.
  - intros b r s' w' H Herr.
    destruct (end_shielded E s w b s w r s' w' Hs H Herr) as (Hd' & _ & Hu).
    split; assumption.
Qed.

(** C1: the code breaks the claim.  A firmware image is written in full,
    a key is configured and the signature does not verify: [end] returns
    [false] with SignatureVerificationFailed, and the first byte of the
    partition, erased until then, is the magic byte.  [_signatureValid]
    has written the stash back before verifying and nothing blanks it when
    the verification fails. *)
Lemma failed_signature_leaves_magic :
  exists s w s' w',
    session badSigE 20 U_FLASH [img20] UpdateClass_new w0 = Some (s, w)
    /\ first_byte s w = ERASED
    /\ end_ badSigE false s w = (false, s', w')
    /\ _error s' = UPDATE_ERROR_SIGNATURE_VERIFICATION
    /\ first_byte s' w' = ESP_IMAGE_HEADER_MAGIC.
Proof.
  eexists _, _, _, _. split; [vm_compute; reflexivity|].
  split; [vm_compute; reflexivity|].
  split; [vm_compute; reflexivity|].
  split; vm_compute; reflexivity.
Qed.

(** ** The bytes a session has accepted *)

Lemma zlen_app (l k : list Z) : zlen (l ++ k) = zlen l + zlen k.
Proof. unfold zlen. rewrite length_app. lia. Qed.

Lemma zlen_nonneg (l : list Z) : 0 <= zlen l.
Proof. unfold zlen. lia. Qed.

Lemma zlen_ztake n (l : list Z) : 0 <= n <= zlen l -> zlen (ztake n l) = n.
Proof. unfold zlen, ztake. rewrite length_take. lia. Qed.

Lemma zlen_zdrop n (l : list Z) : 0 <= n <= zlen l -> zlen (zdrop n l) = zlen l - n.
Proof. unfold zlen, zdrop. rewrite length_drop. lia. Qed.

Lemma ztake_add a b (l : list Z) :
  0 <= a -> 0 <= b -> ztake (a + b) l = ztake a l ++ ztake b (zdrop a l).
Proof.
  intros Ha Hb. unfold ztake, zdrop.
  rewrite Z2Nat.inj_add by lia. symmetry. apply take_take_drop.
Qed.

Lemma ztake_all n (l : list Z) : zlen l <= n -> ztake n l = l.
Proof. unfold zlen, ztake. intros H. apply take_ge. lia. Qed.

(** Bytes appended to the pending buffer are accepted. *)
Lemma accepted_append A N cmd s w data from n :
  accepted A N cmd s w ->
  0 <= from -> 0 <= n -> from + n <= zlen data ->
  _bufferLen s + n <= SPI_FLASH_SEC_SIZE ->
  zlen A + n <= N ->
  accepted (A ++ ztake n (zdrop from data)) N cmd
           (buffer_append s data from n) w.
Proof.
  intros [He Hs Hc HN Hp Hb Hl Hle Ht Hst] Hf Hn Hfn Hbn HAn.
  assert (Hsl : zlen (ztake n (zdrop from data)) = n).
  { apply zlen_ztake. rewrite zlen_zdrop by lia. lia. }
  assert (Hw : wrap (_bufferLen s + n) = _bufferLen s + n).
  { apply wrap_small. unfold SPI_FLASH_SEC_SIZE, SIZE_MOD in *. lia. }
  constructor; unfold buffer_append; st_simpl; rewrite ?Hw, ?zlen_app, ?Hsl;
    try assumption; try lia.
  - destruct Ht as (q & c & b & Hq & Hcq & Hzc & HNc & Hbuf & Hzb & Hbi & Hci).
    exists q, c, (splice (_bufferLen s) (ztake n (zdrop from data)) b).
    rewrite Hbuf. cbn [fmap option_fmap option_map].
    split; [exact Hq|]. split; [exact Hcq|]. split; [exact Hzc|].
    split; [exact HNc|]. split; [reflexivity|].
    split; [rewrite zlen_splice; exact Hzb|]. split.
    + intros i Hi. unfold zlen in *.
      destruct (decide (i < Z.to_nat (_bufferLen s))%nat) as [Hlt|Hge].
      * rewrite lookup_splice_lt by exact Hlt.
        rewrite lookup_app_l by lia. apply Hbi, Hlt.
      * rewrite lookup_splice_in by lia.
        rewrite lookup_app_r by lia. f_equal. lia.
    + intros i Hi. unfold zlen in *. rewrite lookup_app_l by lia. apply Hci, Hi.
  - intros Hcf Hne. destruct (Hst Hcf Hne) as (H16 & k & Hk & Hki).
    split; [exact H16|]. exists k. split; [exact Hk|].
    intros i Hi. unfold zlen, ENCRYPTED_BLOCK_SIZE in *.
    rewrite lookup_app_l by lia. apply Hki, Hi.
Qed.

Lemma wrap_neg x : - SIZE_MOD <= x < 0 -> wrap x = x + SIZE_MOD.
Proof.
  intros H. unfold wrap. symmetry.
  apply (Z.mod_unique_pos x SIZE_MOD (-1)); lia.
Qed.

(** A successful flush moves the pending bytes to the partition. *)
Lemma accepted_flush (E : Env) A N cmd s w s' w' :
  accepted A N cmd s w ->
  _writeBuffer E s w = (true, s', w') ->
  accepted A N cmd s' w' /\ _bufferLen s' = 0 /\ _progress s' = zlen A.
Proof.
  intros [He Hs Hc HN Hp Hb Hl Hle Ht Hst] H.
  apply writeBuffer_ok in H. cbv zeta in H.
  destruct H as (q & c & b & Hq & Hcq & Hbuf & Her & Hwr & Hc' & _ & Hmagic
                 & Hsk' & Hbuf' & _ & Hp' & Hbl' & He' & Hs' & Hcmd' & Hpart' & _).
  destruct Ht as (q0 & c0 & b0 & Hq0 & Hcq0 & Hzc & HNc & Hbuf0 & Hzb & Hbi & Hci).
  assert (q0 = q) as -> by congruence.
  assert (c0 = c) as -> by congruence.
  assert (b0 = b) as -> by congruence.
  set (skip := if first_flush s then ENCRYPTED_BLOCK_SIZE else 0) in *.
  assert (Hskip : (first_flush s = true /\ skip = ENCRYPTED_BLOCK_SIZE
                   /\ _progress s = 0 /\ cmd = U_FLASH)
                  \/ (first_flush s = false /\ skip = 0
                      /\ (cmd = U_FLASH -> _progress s <> 0))).
  { subst skip. unfold first_flush. rewrite Hc.
    destruct (_progress s =? 0) eqn:H0; destruct (cmd =? U_FLASH) eqn:H1;
      cbn [andb]; [left|right..]; repeat split; auto; lia. }
  assert (Hsk0 : 0 <= skip <= ENCRYPTED_BLOCK_SIZE).
  { unfold ENCRYPTED_BLOCK_SIZE in *.
    destruct Hskip as [(_ & -> & _)|(_ & -> & _)]; lia. }
  clearbody skip.
  assert (Hps : wrap (_progress s + skip) = _progress s + skip).
  { apply wrap_small. unfold ENCRYPTED_BLOCK_SIZE, SIZE_MOD in *.
    destruct Hskip as [(_ & -> & -> & _)|(_ & -> & _)]; lia. }
  rewrite Hps in *.
  assert (Hbs : wrap (_bufferLen s - skip) = _bufferLen s - skip
                /\ skip <= _bufferLen s).
  { pose proof (wrap_range (_bufferLen s - skip)) as Hr.
    destruct (decide (skip <= _bufferLen s)) as [Hle'|Hgt].
    - split; [|exact Hle']. apply wrap_small.
      unfold SPI_FLASH_SEC_SIZE, ENCRYPTED_BLOCK_SIZE, SIZE_MOD in *. lia.
    - exfalso. rewrite wrap_neg in Hwr;
        unfold ENCRYPTED_BLOCK_SIZE, SPI_FLASH_SEC_SIZE, SIZE_MOD in *; lia. }
  destruct Hbs as [Hbs Hskle]. rewrite Hbs in *.
  assert (Hp'' : _progress s' = zlen A).
  { rewrite Hp', <- Hl. apply wrap_small. unfold SIZE_MOD in *. lia. }
  split; [|split; [exact Hbl'|exact Hp'']].
  constructor; rewrite ?He', ?Hs', ?Hcmd', ?Hbl', ?Hp'';
    try assumption; try (unfold SPI_FLASH_SEC_SIZE; lia); try apply zlen_nonneg.
  - eexists q, _, _. rewrite Hpart'.
    split; [exact Hq|]. split; [exact Hc'|].
    split; [rewrite !zlen_splice; exact Hzc|].
    split; [rewrite !zlen_splice; exact HNc|].
    split; [exact Hbuf'|].
    split; [destruct (first_flush s); rewrite ?zlen_splice; exact Hzb|].
    split; [intros i Hi; simpl in Hi; lia|].
    intros i Hi. unfold zlen in *.
    destruct (decide (i < Z.to_nat (_progress s + skip))%nat) as [Hlt|Hge].
    + rewrite lookup_splice_lt by exact Hlt.
      destruct Hskip as [(_ & Hsk & H0 & Hcf)|(_ & Hsk & _)].
      * exfalso. rewrite Hcf in Hi. unfold stashed in Hi.
        rewrite Z.eqb_refl in Hi. rewrite Hsk, H0 in Hlt. lia.
      * rewrite Hsk, Z.add_0_r in Hlt.
        rewrite lookup_splice_lt by exact Hlt. apply Hci. lia.
    + rewrite lookup_splice_in.
      * unfold ztake, zdrop. rewrite lookup_take_lt by lia.
        rewrite lookup_drop.
        replace (Z.to_nat skip + (i - Z.to_nat (_progress s + skip)))%nat
          with (i - Z.to_nat (_progress s))%nat by lia.
        rewrite Hbi by lia. f_equal. lia.
      * unfold ztake, zdrop. rewrite length_take, length_drop.
        unfold SPI_FLASH_SEC_SIZE in *. lia.
      * rewrite length_splice. lia.
  - intros Hcf _.
    destruct Hskip as [(Hff & Hsk & H0 & _)|(Hff & Hsk & Hnz)].
    + rewrite Hsk in *. split; [lia|].
      rewrite Hsk', Hff. eexists. split; [reflexivity|].
      intros i Hi. unfold ztake. rewrite lookup_take_lt by exact Hi.
      rewrite Hbi by (unfold ENCRYPTED_BLOCK_SIZE in *; lia).
      rewrite H0. reflexivity.
    + destruct (Hst Hcf (Hnz Hcf)) as (H16 & k & Hk & Hki).
      split; [lia|]. rewrite Hsk', Hff. exists k. auto.
Qed.

(** A flush that fails sets an error, or has given up on the allocation of
    the stash and left the session and the partitions as they were. *)
Lemma writeBuffer_failed (E : Env) s w s' w' :
  _error s = UPDATE_ERROR_OK ->
  _writeBuffer E s w = (false, s', w') ->
  hasError s' = true
  \/ (s' = set_skipBuffer s None /\ _progress s = 0
      /\ forall q, contents w' q = contents w q).
Proof.
  intros He H.
  pose proof (writeBuffer_result E s w false s' w' H) as (_ & _ & Hres).
  destruct Hres as [(? & _)|[(_ & Hfe & _)|(_ & Hs')]]; [discriminate| |].
  { left. unfold hasError, flush_error in *.
    destruct Hfe as [->|[->| ->]]; reflexivity. }
  unfold _writeBuffer in H.
  destruct (stash_first_block E s w) as [[s0 w0]|[[skip s0] w0]] eqn:Hst.
  - unfold stash_first_block, malloc, _abort, _reset in Hst.
    destruct (_progress s =? 0) eqn:H0; cbn [andb] in Hst;
      [|discriminate].
    repeat match type of Hst with
    | context [if ?c then _ else _] => destruct c
    end; try discriminate; apply (inj inl) in Hst;
      apply pair_equal_spec in Hst; destruct Hst as [Hs0 Hw0];
      apply pair_equal_spec in H; destruct H as [H Hw']; subst w0 w';
      apply pair_equal_spec in H; destruct H as [_ <-];
      first [ left; rewrite <- Hs0; reflexivity
            | right; split; [exact Hs'|]; split; [lia|];
              intros q; apply contents_log ].
  - left.
    assert (Hs0 : _error s0 = UPDATE_ERROR_OK).
    { unfold stash_first_block, malloc in Hst.
      repeat match type of Hst with
      | context [if ?c then _ else _] => destruct c
      end; try discriminate; apply (inj inr) in Hst;
        apply pair_equal_spec in Hst; destruct Hst as [Hst _];
        apply pair_equal_spec in Hst; destruct Hst as [_ <-]; exact He. }
    destruct (partitionEraseRange E _ _ _ _) as [[|] w2].
    + destruct (partitionWrite E _ _ _ _ _) as [[|] w3]; [discriminate|].
      rewrite (abort_eta s0 w3 UPDATE_ERROR_WRITE) in H.
      apply pair_equal_spec in H. destruct H as [H _].
      apply pair_equal_spec in H. destruct H as [_ <-]. reflexivity.
    + rewrite (abort_eta s0 w2 UPDATE_ERROR_ERASE) in H.
      apply pair_equal_spec in H. destruct H as [H _].
      apply pair_equal_spec in H. destruct H as [_ <-]. reflexivity.
Qed.

(** The loop of [write] accepts the bytes it moves through the buffer; it
    returns early only with fewer bytes than it was given. *)
Lemma write_loop_accepted (E : Env) A N cmd data fuel left_ s w res :
  accepted (A ++ ztake (zlen data - left_) data) N cmd s w ->
  0 <= left_ <= zlen data ->
  zlen A + zlen data <= N ->
  write_loop E fuel data (zlen data) left_ s w = Some res ->
  match res with
  | inl (n, _, _) => n < zlen data
  | inr (l, s', w') =>
      0 <= l <= left_ /\ ((l = left_ /\ s' = s /\ w' = w) \/ 0 < l)
      /\ _bufferLen s' + l <= SPI_FLASH_SEC_SIZE
      /\ accepted (A ++ ztake (zlen data - l) data) N cmd s' w'
  end.
Proof.
  revert left_ s w.
  assert (Hexit : forall left_ s w,
            accepted (A ++ ztake (zlen data - left_) data) N cmd s w ->
            0 <= left_ <= zlen data -> zlen A + zlen data <= N ->
            wrap (_bufferLen s + left_) = _bufferLen s + left_).
  { intros left_ s w Hacc Hl HA. apply wrap_small.
    pose proof (acc_len _ _ _ _ _ Hacc) as Hlen.
    pose proof (acc_progress _ _ _ _ _ Hacc).
    pose proof (acc_bufferLen _ _ _ _ _ Hacc).
    pose proof (acc_N _ _ _ _ _ Hacc).
    rewrite zlen_app, zlen_ztake in Hlen by lia.
    pose proof (zlen_nonneg A). unfold SIZE_MOD in *. lia. }
  induction fuel as [|fuel IH]; intros left_ s w Hacc Hl HA;
    cbn [write_loop]; rewrite (Hexit left_ s w Hacc Hl HA);
    destruct (_bufferLen s + left_ >? SPI_FLASH_SEC_SIZE) eqn:Hc;
    try discriminate;
    try (intros [= <-]; split; [lia|]; split; [left; auto|];
         split; [lia|exact Hacc]).
  pose proof (acc_bufferLen _ _ _ _ _ Hacc) as Hb.
  pose proof (acc_N _ _ _ _ _ Hacc) as HN.
  pose proof (zlen_nonneg A) as HA0.
  assert (Ht : wrap (SPI_FLASH_SEC_SIZE - _bufferLen s)
               = SPI_FLASH_SEC_SIZE - _bufferLen s)
    by (apply wrap_small; unfold SPI_FLASH_SEC_SIZE, SIZE_MOD in *; lia).
  assert (Hf : wrap (zlen data - left_) = zlen data - left_)
    by (apply wrap_small; unfold SIZE_MOD in *; lia).
  rewrite Ht, Hf.
  set (toBuff := SPI_FLASH_SEC_SIZE - _bufferLen s) in *.
  assert (Hacc1 : accepted (A ++ ztake (zlen data - (left_ - toBuff)) data) N cmd
                    (buffer_append s data (zlen data - left_) toBuff) w).
  { replace (zlen data - (left_ - toBuff))
      with (zlen data - left_ + toBuff) by lia.
    rewrite ztake_add, app_assoc by lia.
    apply accepted_append; try assumption; try lia.
    rewrite zlen_app, zlen_ztake by lia. lia. }
  destruct (_writeBuffer E _ w) as [[[|] s1] w1] eqn:Hwb.
  - eapply accepted_flush in Hwb; [|exact Hacc1].
    destruct Hwb as (Hacc2 & Hbl2 & _).
    assert (Hl' : wrap (left_ - toBuff) = left_ - toBuff)
      by (apply wrap_small; unfold SIZE_MOD in *; lia).
    rewrite Hl'. intros Hres.
    specialize (IH (left_ - toBuff) s1 w1 Hacc2 ltac:(lia) HA Hres).
    destruct res as [[[n ?] ?]|[[l s'] w']]; [exact IH|].
    destruct IH as (H1 & H2 & H3 & H4). unfold toBuff in *.
    split; [lia|]. split; [right; lia|]. split; [lia|exact H4].
  - intros [= <-]. lia.
Qed.

Lemma accepted_remaining A N cmd s w :
  accepted A N cmd s w -> remaining s = N - _progress s.
Proof.
  intros [He Hs Hc HN Hp Hb Hl Hle Ht Hst]. unfold remaining. rewrite Hs.
  apply wrap_small. unfold SIZE_MOD in *. lia.
Qed.

(** A [write] that accepts all of its bytes extends the accepted bytes. *)
Lemma write_accepted (E : Env) A N cmd data s w s' w' :
  alive A N cmd s w ->
  zlen A + zlen data <= N ->
  write E data s w = Some (zlen data, s', w') ->
  alive (A ++ data) N cmd s' w'.
Proof.
  intros [Herr|[Hacc Hset]] HA.
  { unfold write. rewrite Herr. cbn [orb]. intros [= _ <- <-]. left. exact Herr. }
  pose proof (acc_N _ _ _ _ _ Hacc) as HN.
  pose proof (acc_progress _ _ _ _ _ Hacc) as Hp.
  pose proof (acc_bufferLen _ _ _ _ _ Hacc) as Hb.
  pose proof (acc_len _ _ _ _ _ Hacc) as Hlen.
  pose proof (zlen_nonneg A) as HA0.
  pose proof (zlen_nonneg data) as Hd0.
  unfold write.
  replace (hasError s) with false
    by (symmetry; apply hasError_false, (acc_error _ _ _ _ _ Hacc)).
  unfold isRunning. rewrite (acc_size _ _ _ _ _ Hacc).
  destruct (N >? 0) eqn:HN0; [|lia]. cbn [orb negb].
  rewrite (accepted_remaining _ _ _ _ _ Hacc).
  destruct (zlen data >? N - _progress s) eqn:Hgt; [lia|].
  destruct (write_loop E _ data _ _ s w) as [res|] eqn:Hloop; [|discriminate].
  eapply (write_loop_accepted E A N cmd) in Hloop; [| |lia|exact HA].
  2:{ rewrite Z.sub_diag. unfold ztake. cbn [Z.to_nat take].
      rewrite app_nil_r. exact Hacc. }
  destruct res as [[[n s1] w1]|[[l s1] w1]].
  { intros [= Hn _ _]. lia. }
  destruct Hloop as (Hl & Hl' & Hbl & Hacc1).
  assert (Hwl : wrap (zlen data - l) = zlen data - l)
    by (apply wrap_small; unfold SIZE_MOD in *; lia).
  rewrite Hwl.
  assert (Hacc2 : accepted (A ++ data) N cmd
                    (buffer_append s1 data (zlen data - l) l) w1).
  { replace (A ++ data)
      with ((A ++ ztake (zlen data - l) data)
              ++ ztake l (zdrop (zlen data - l) data)).
    - apply accepted_append; try assumption; try lia.
      rewrite zlen_app, zlen_ztake by lia. lia.
    - rewrite <- app_assoc, <- ztake_add by lia. f_equal.
      apply ztake_all. lia. }
  rewrite (accepted_remaining _ _ _ _ _ Hacc2).
  destruct (_bufferLen _ =? _) eqn:Heq.
  - destruct (_writeBuffer E _ w1) as [[[|] s2] w2] eqn:Hwb.
    + intros [= <- <-]. eapply accepted_flush in Hwb; [|exact Hacc2].
      destruct Hwb as (Hacc3 & Hbl3 & _). right. split; [exact Hacc3|].
      intros _. exact Hbl3.
    + intros [= Hn <- <-]. assert (l = 0) by lia. subst l.
      destruct Hl' as [(Hl0 & -> & ->)|Hl0]; [|lia].
      apply writeBuffer_failed in Hwb; [|apply (acc_error _ _ _ _ _ Hacc2)].
      destruct Hwb as [Herr|(_ & Hp0 & _)]; [left; exact Herr|].
      exfalso. apply Z.eqb_eq in Heq. unfold buffer_append in Heq, Hp0.
      st_simpl. rewrite Z.add_0_r in Heq.
      rewrite wrap_small in Heq by (unfold SPI_FLASH_SEC_SIZE, SIZE_MOD in *; lia).
      specialize (Hset Heq). lia.
  - intros [= <- <-]. right. split; [exact Hacc2|].
    intros Hx. apply Z.eqb_neq in Heq. contradiction.
Qed.

(** Chunks that are all accepted in full extend the accepted bytes by
    their concatenation. *)
Lemma write_chunks_accepted (E : Env) N cmd chunks A s w s' w' :
  alive A N cmd s w ->
  zlen A + zlen (concat chunks) <= N ->
  write_chunks E chunks s w = Some (s', w') ->
  alive (A ++ concat chunks) N cmd s' w'.
Proof.
  revert A s w. induction chunks as [|c chunks IH]; intros A s w Hal HA;
    cbn [write_chunks concat].
  { intros [= <- <-]. rewrite app_nil_r. exact Hal. }
  cbn [concat] in HA. rewrite zlen_app in HA.
  pose proof (zlen_nonneg (concat chunks)) as Hc0.
  destruct (write E c s w) as [[[n s1] w1]|] eqn:Hw; [|discriminate].
  destruct (n =? zlen c) eqn:Hn; [|discriminate].
  apply Z.eqb_eq in Hn. subst n.
  apply (write_accepted E A N cmd) in Hw; [|exact Hal|lia].
  intros Hrest. rewrite app_assoc. apply (IH _ _ _ Hw); [|exact Hrest].
  rewrite zlen_app. lia.
Qed.

(** ** The image is complete once the stash is back *)

(** Writing the stash back completes the image on the partition. *)
Lemma stash_restored (A k c : list Z) N :
  ENCRYPTED_BLOCK_SIZE <= N -> N <= zlen c -> zlen A = N ->
  (forall i, (i < Z.to_nat ENCRYPTED_BLOCK_SIZE)%nat -> k !! i = A !! i) ->
  (forall i, (Z.to_nat ENCRYPTED_BLOCK_SIZE <= i < Z.to_nat N)%nat ->
             c !! i = A !! i) ->
  forall i, (i < Z.to_nat N)%nat ->
            splice 0 (ztake ENCRYPTED_BLOCK_SIZE k) c !! i = A !! i.
Proof.
  intros H16 HN HA Hk Hc i Hi. unfold ENCRYPTED_BLOCK_SIZE, zlen in *.
  assert (Hlk : (16 <= length k)%nat).
  { assert (is_Some (k !! 15%nat)) as Hs.
    { rewrite Hk by lia. apply lookup_lt_is_Some. lia. }
    apply lookup_lt_is_Some in Hs. lia. }
  assert (Hlt : length (ztake 16 k) = 16%nat).
  { unfold ztake. rewrite length_take. lia. }
  destruct (decide (i < 16)%nat) as [Hlo|Hhi].
  - rewrite lookup_splice_in by (rewrite ?Hlt; simpl; lia).
    unfold ztake. rewrite lookup_take_lt by (simpl; lia).
    simpl. rewrite Nat.sub_0_r. apply Hk. lia.
  - rewrite lookup_splice_ge by (rewrite ?Hlt; simpl; lia).
    apply Hc. lia.
Qed.

Lemma ztake_eq_of_lookup (A c : list Z) N :
  zlen A = N -> N <= zlen c ->
  (forall i, (i < Z.to_nat N)%nat -> c !! i = A !! i) ->
  ztake N c = A.
Proof.
  intros HA HN H. unfold zlen, ztake in *. apply list_eq. intros i.
  destruct (decide (i < Z.to_nat N)%nat) as [Hlt|Hge].
  - rewrite lookup_take_lt by exact Hlt. apply H, Hlt.
  - rewrite lookup_take_ge by lia. symmetry. apply lookup_ge_None. lia.
Qed.

(** ** The round trip *)

Lemma begin_accepted (E : Env) size cmd ledPin ledOn label s0 w0 s1 w1 :
  (forall q c, contents w0 q = Some c -> zlen c < SIZE_MOD) ->
  0 <= size -> size <> UPDATE_SIZE_UNKNOWN ->
  begin E size cmd ledPin ledOn label s0 w0 = (true, s1, w1) ->
  (cmd = U_FLASH \/ cmd = U_SPIFFS)
  /\ alive [] size cmd s1 w1.
Proof.
  intros Hsz H0 Hu H. apply begin_ok in H.
  destruct H as (Hcmd & Hc & He & Hp & Hbl & _ & Hs & Hne & Hle
                 & (q & b & Hq & Hb & Hzb & _) & Hw).
  destruct (size =? UPDATE_SIZE_UNKNOWN) eqn:Hu'; [lia|].
  split; [exact Hcmd|]. right.
  assert (Hcq : exists c, contents w0 q = Some c /\ size <= zlen c).
  { rewrite Hs in Hle. unfold partition_size in Hle. rewrite Hq in Hle.
    cbn [target_contents] in Hle.
    destruct (contents w0 q) as [c|]; [exists c; auto|].
    cbn [default] in Hle. unfold zlen in Hle. cbn [length] in Hle. lia. }
  destruct Hcq as (c & Hcq & Hcl). pose proof (Hsz q c Hcq) as Hzc.
  split; [|intros _; exact Hbl].
  constructor; rewrite ?Hp, ?Hbl; try assumption;
    try (unfold SPI_FLASH_SEC_SIZE; cbn; lia); try lia; try reflexivity.
  exists q, c, b. rewrite Hw. repeat split; auto; intros i Hi; simpl in Hi; lia.
Qed.

(** X9: the round trip, for a firmware target and for a data target without
    a verification key: when [begin(size)] succeeds, the chunks of an image
    of that size are all accepted and [end] succeeds, the first [size]
    bytes of the target partition are the image, whatever the chunks. *)
Lemma roundtrip_supported (E : Env) size cmd ledPin ledOn label chunks
    s0 w0 s1 w1 s2 w2 evenIfRemaining s3 w3 :
  (forall q c, contents w0 q = Some c -> zlen c < SIZE_MOD) ->
  cmd = U_FLASH \/ pubKey_toParse E = None ->
  size = zlen (concat chunks) ->
  size <> UPDATE_SIZE_UNKNOWN ->
  begin E size cmd ledPin ledOn label s0 w0 = (true, s1, w1) ->
  write_chunks E chunks s1 w1 = Some (s2, w2) ->
  end_ E evenIfRemaining s2 w2 = (true, s3, w3) ->
  ztake size (target_contents w3 (_partition s3)) = concat chunks.
Proof.
  intros Hsz Hsup Hsize Hu Hb Hw He.
  pose proof (zlen_nonneg (concat chunks)) as H0.
  apply begin_accepted in Hb; [|exact Hsz|lia|exact Hu].
  destruct Hb as [Hcmd Hal].
  apply (write_chunks_accepted E size cmd chunks []) in Hw;
    [|exact Hal|change (zlen []) with 0; lia].
  cbn [app] in Hw. set (A := concat chunks) in *.
  destruct Hw as [Herr|[Hacc Hset]].
  { unfold end_ in He. rewrite Herr in He. discriminate. }
  destruct Hacc as [Her Hs Hc HN Hp Hbl Hlen Hle Ht Hst].
  assert (Hbl0 : _bufferLen s2 = 0) by (apply Hset; lia).
  assert (Hp0 : _progress s2 = size) by lia.
  destruct Ht as (q & c & b & Hq & Hcq & Hzc & HNc & _ & _ & _ & Hci).
  set (s2' := set_size s2 (progress s2)).
  assert (Hflush : end_flush E evenIfRemaining s2 w2
                   = (if evenIfRemaining then s2' else s2, w2)).
  { unfold end_flush. destruct evenIfRemaining; [|reflexivity].
    destruct (_bufferLen s2 >? 0) eqn:Hgt; [lia|reflexivity]. }
  unfold end_ in He.
  replace (hasError s2) with false in He by (symmetry; apply hasError_false, Her).
  destruct (_size s2 =? 0) eqn:Hs0; [lia|].
  unfold isFinished in He. rewrite Hp0, Hs, Z.eqb_refl in He.
  cbn [orb negb andb] in He. rewrite Hflush in He.
  set (t := if evenIfRemaining then s2' else s2) in *.
  assert (Ht : _partition t = Some q /\ _command t = cmd
               /\ _skipBuffer t = _skipBuffer s2).
  { subst t s2'. destruct evenIfRemaining; st_simpl; auto. }
  destruct Ht as (Htq & Htc & Htk). clearbody t.
  (* the image is on the partition once the stash is back *)
  assert (Hdone : forall w' wa,
            _enablePartition E t w' = (true, wa) ->
            cmd = U_FLASH ->
            (forall i, (Z.to_nat ENCRYPTED_BLOCK_SIZE <= i < Z.to_nat size)%nat ->
                       default [] (contents w' q) !! i = A !! i) ->
            zlen (default [] (contents w' q)) = zlen c ->
            (forall i, (i < Z.to_nat size)%nat ->
                       default [] (contents wa q) !! i = A !! i)
            /\ zlen (default [] (contents wa q)) = zlen c).
  { intros w' wa Hen Hcf Hi Hl. apply enablePartition_ok in Hen.
    destruct Hen as (q' & k & c' & Hq' & Hk & Hc' & H16 & Hc1).
    assert (q' = q) as -> by congruence.
    rewrite Hc' in Hi, Hl. rewrite Hc1. cbn [default] in *. unfold id in *.
    destruct (Hst Hcf ltac:(lia)) as (H16' & k' & Hk' & Hki).
    assert (k' = k) as -> by congruence.
    split; [|rewrite zlen_splice; exact Hl].
    apply (stash_restored A k c' size); auto; lia. }
  assert (Hfinal : forall s w r,
            _partition s = Some q -> _command s = cmd ->
            _skipBuffer s = _skipBuffer t ->
            (cmd = U_FLASH \/ forall i, (i < Z.to_nat size)%nat ->
                                default [] (contents w q) !! i = A !! i) ->
            (forall i, (Z.to_nat ENCRYPTED_BLOCK_SIZE <= i < Z.to_nat size)%nat ->
                       default [] (contents w q) !! i = A !! i) ->
            zlen (default [] (contents w q)) = zlen c ->
            _verifyEnd E s w = (r, s3, w3) -> r = true ->
            ztake size (target_contents w3 (_partition s3)) = A).
  { intros s w r Hsq Hsc Hsk Hall Hi Hl Hv ->. apply verifyEnd_ok in Hv.
    destruct Hv as (Hp3 & [(Hcf & wa & Hen & Hw3)|(Hcn & Hw3)]).
    - rewrite Hp3, Hsq. cbn [target_contents]. rewrite Hw3.
      assert (Hen' : _enablePartition E t w = (true, wa)).
      { unfold _enablePartition in *. rewrite Hsq in Hen.
        rewrite Htq, <- Hsk. exact Hen. }
      destruct (Hdone w wa Hen' ltac:(congruence) Hi Hl) as [Hd1 Hd2].
      apply ztake_eq_of_lookup; auto; lia.
    - rewrite Hp3, Hsq. cbn [target_contents]. rewrite Hw3.
      destruct Hall as [Hcf|Hall]; [congruence|].
      apply ztake_eq_of_lookup; auto; lia. }
  assert (Hi0 : forall i, (Z.to_nat (stashed cmd) <= i < Z.to_nat size)%nat ->
                          default [] (contents w2 q) !! i = A !! i).
  { intros i Hi. rewrite Hcq. cbn [default]. apply Hci. lia. }
  assert (Hst16 : (Z.to_nat (stashed cmd) <= Z.to_nat ENCRYPTED_BLOCK_SIZE)%nat).
  { unfold stashed. destruct (cmd =? U_FLASH); unfold ENCRYPTED_BLOCK_SIZE; lia. }
  unfold end_verify in He.
  destruct (_ && _) in He.
  { rewrite (abort_eta t _ UPDATE_ERROR_MD5) in He. discriminate. }
  destruct (pubKey_toParse E) as [key|] eqn:Hkey.
  - destruct Hsup as [Hcf|?]; [|discriminate].
    destruct (_signatureValid E t _) as [[[|] t1] wv] eqn:Hsv.
    2:{ rewrite (abort_eta t1 wv UPDATE_ERROR_SIGNATURE_VERIFICATION) in He.
        discriminate. }
    apply signatureValid_ok in Hsv. destruct Hsv as (-> & wa & Hen & Hwv).
    destruct (Hdone (log EMd5Calculate w2) wa Hen Hcf) as [Hd1 Hd2].
    { intros i Hi. rewrite contents_log. apply Hi0. lia. }
    { rewrite contents_log, Hcq. reflexivity. }
    refine (Hfinal t wv true Htq Htc eq_refl _ _ _ He eq_refl).
    + right. intros i Hi. rewrite Hwv. apply Hd1, Hi.
    + intros i Hi. rewrite Hwv. apply Hd1. lia.
    + rewrite Hwv. exact Hd2.
  - refine (Hfinal t (log EMd5Calculate w2) true Htq Htc eq_refl _ _ _ He eq_refl).
    + destruct Hcmd as [Hcf|Hcs]; [left; exact Hcf|right].
      intros i Hi. rewrite contents_log. apply Hi0.
      unfold stashed. rewrite Hcs. cbn. lia.
    + intros i Hi. rewrite contents_log. apply Hi0. lia.
    + rewrite contents_log, Hcq. reflexivity.
Qed.

Example roundtrip_supported_example :
  exists s2 w2 s3 w3,
    session okE 20 U_FLASH [take 7 img20; []; drop 7 img20] UpdateClass_new w0
    = Some (s2, w2)
    /\ end_ okE false s2 w2 = (true, s3, w3)
    /\ ztake 20 (target_contents w3 (_partition s3)) = img20.
Proof.
  eexists _, _, _, _. split; [vm_compute; reflexivity|].
  split; [vm_compute; reflexivity|].
  refine (roundtrip_supported okE 20 U_FLASH (-1) 0 None
            [take 7 img20; []; drop 7 img20] UpdateClass_new w0
            _ _ _ _ false _ _ _ _ _ _ _ _ _).
  - intros q c Hc. destruct q; vm_compute in Hc; try discriminate;
      apply (inj Some) in Hc; subst c; vm_compute; reflexivity.
  - left; reflexivity.
  - vm_compute; reflexivity.
  - vm_compute; discriminate.
  - vm_compute; reflexivity.
  - vm_compute; reflexivity.
  - vm_compute; reflexivity.
Defined.

(** C2, the code at the failing input: an engine that has activated a
    firmware image keeps its stash; a later data session with a key
    configured writes the whole data image, and then the signature check of
    [end] writes that stale stash over the first block of the data
    partition.  [end] succeeds, and the partition does not hold the data
    image. *)
Lemma stale_stash_overwrites_data :
  exists s1 w1 s2 w2 s3 w3 s4 w4,
    session keyE 20 U_FLASH [img20] UpdateClass_new w0 = Some (s1, w1)
    /\ end_ keyE false s1 w1 = (true, s2, w2)
    /\ session keyE 20 U_SPIFFS [take 7 data20; drop 7 data20] s2 w2
       = Some (s3, w3)
    /\ ztake 20 (target_contents w3 (_partition s3)) = data20
    /\ end_ keyE false s3 w3 = (true, s4, w4)
    /\ _error s4 = UPDATE_ERROR_OK
    /\ _partition s4 = Some P_SPIFFS
    /\ ztake 20 (target_contents w4 (_partition s4))
       = ztake 16 img20 ++ zdrop 16 data20
    /\ ztake 20 (target_contents w4 (_partition s4)) <> data20.
Proof.
  eexists _, _, _, _, _, _, _, _.
  split; [vm_compute; reflexivity|]. split; [vm_compute; reflexivity|].
  split; [vm_compute; reflexivity|]. split; [vm_compute; reflexivity|].
  split; [vm_compute; reflexivity|]. split; [vm_compute; reflexivity|].
  split; [vm_compute; reflexivity|]. split; [vm_compute; reflexivity|].
  vm_compute; discriminate.
Qed.

(** * Further properties of the engine *)

(** ** What the operations leave alone *)

Lemma same_settings_refl s : same_settings s s.
Proof. unfold same_settings. tauto. Qed.

Lemma same_settings_trans s1 s2 s3 :
  same_settings s1 s2 -> same_settings s2 s3 -> same_settings s1 s3.
Proof. unfold same_settings. intuition congruence. Qed.

Lemma confined_refl p cb w : confined p cb w w.
Proof. unfold confined. auto. Qed.

Lemma confined_trans p cb w1 w2 w3 :
  confined p cb w1 w2 -> confined p cb w2 w3 -> confined p cb w1 w3.
Proof.
  intros (H1 & H2 & H3) (K1 & K2 & K3). split; [|split].
  - intros q Hq. rewrite K1, H1 by exact Hq. reflexivity.
  - congruence.
  - intros Hcb d t Hin. apply (H3 Hcb), (K3 Hcb), Hin.
Qed.

Lemma confined_log p cb e w w' :
  (cb = false -> forall d t, e <> EProgress d t) ->
  confined p cb w w' -> confined p cb w (log e w').
Proof.
  intros He (H1 & H2 & H3). split; [|split].
  - intros q Hq. rewrite contents_log. apply H1, Hq.
  - exact H2.
  - intros Hcb d t [Heq|Hin]; [exfalso; exact (He Hcb d t Heq)|].
    apply (H3 Hcb), Hin.
Qed.

Lemma confined_store cb w w' q c :
  confined (Some q) cb w w' -> confined (Some q) cb w (store w' q c).
Proof.
  intros (H1 & H2 & H3). split; [|split].
  - intros q' Hq. rewrite contents_store_ne by congruence. apply H1, Hq.
  - destruct q; exact H2.
  - destruct q; exact H3.
Qed.

Ltac quiet := intros _ ? ?; discriminate.

Lemma confined_reset p cb s w : confined p cb w (snd (_reset s w)).
Proof.
  unfold _reset. st_simpl.
  destruct (_buffer s); [apply confined_log; [quiet|]|]; apply confined_refl.
Qed.

Lemma confined_abort p cb s w e : confined p cb w (snd (_abort s w e)).
Proof. apply confined_reset. Qed.

Lemma confined_malloc E p cb w n : confined p cb w (snd (malloc E w n)).
Proof.
  unfold malloc. destruct (malloc_ok E (now w)); st_simpl;
    (apply confined_log; [quiet|apply confined_refl]).
Qed.

Lemma confined_partitionEraseRange E p cb w off len :
  confined p cb w (snd (partitionEraseRange E w p off len)).
Proof.
  unfold partitionEraseRange. destruct p as [q|]; [|apply confined_refl].
  destruct (contents w q); [destruct (_ && _)|]; st_simpl;
    try apply confined_store; (apply confined_log; [quiet|apply confined_refl]).
Qed.

Lemma confined_partitionWrite E p cb w off src len :
  confined p cb w (snd (partitionWrite E w p off src len)).
Proof.
  unfold partitionWrite. destruct p as [q|]; [|apply confined_refl].
  destruct src; [|apply confined_refl].
  destruct (contents w q); [destruct (_ && _)|]; st_simpl;
    try apply confined_store; (apply confined_log; [quiet|apply confined_refl]).
Qed.

Lemma confined_partitionRead E p p' cb w off len :
  confined p cb w (snd (partitionRead E w p' off len)).
Proof.
  unfold partitionRead. destruct p' as [q|]; [|apply confined_refl].
  destruct (contents w q); [destruct (_ && _)|]; st_simpl;
    (apply confined_log; [quiet|apply confined_refl]).
Qed.

Lemma confined_partitionIsBootable E p p' cb w :
  confined p cb w (snd (_partitionIsBootable E w p')).
Proof.
  unfold _partitionIsBootable. destruct p'; [|apply confined_refl].
  pose proof (confined_partitionRead E p (Some p0) cb w 0 ENCRYPTED_BLOCK_SIZE) as H.
  destruct (partitionRead E w (Some p0) 0 ENCRYPTED_BLOCK_SIZE) as [[buf|] w1];
    [destruct (negb _)|]; exact H.
Qed.

Lemma confined_enablePartition E cb s w :
  confined (_partition s) cb w (snd (_enablePartition E s w)).
Proof.
  unfold _enablePartition. destruct (_partition s) eqn:Hp; [|apply confined_refl].
  apply confined_partitionWrite.
Qed.

Lemma abort_settings s w e : same_settings s (fst (_abort s w e)).
Proof. unfold same_settings, _abort, _reset. st_simpl. tauto. Qed.

Lemma reset_settings s w : same_settings s (fst (_reset s w)).
Proof. unfold same_settings, _reset. st_simpl. tauto. Qed.

(** A flush keeps the settings and stays inside the target partition. *)
Lemma writeBuffer_settings (E : Env) s w r s' w' :
  _writeBuffer E s w = (r, s', w') -> same_settings s s'.
Proof.
  intros H. unfold _writeBuffer, stash_first_block, _abort, _reset in H.
  unfold same_settings.
  split_branches; simplify_eq; st_simpl; tauto.
Qed.

Lemma writeBuffer_confined (E : Env) s w :
  confined (_partition s) (_progress_callback s) w (snd (_writeBuffer E s w)).
Proof.
  set (p := _partition s). set (cb := _progress_callback s).
  assert (Hab : forall s0 w0 e, confined p cb w w0 ->
            confined p cb w
              (snd (let '(s1, w1) := _abort s0 w0 e in (false, s1, w1)))).
  { intros s0 w0 e H. pose proof (confined_abort p cb s0 w0 e) as Ha.
    destruct (_abort s0 w0 e). st_simpl. eapply confined_trans; eassumption. }
  unfold _writeBuffer.
  assert (Hst : match stash_first_block E s w with
                | inl (_, w0) => confined p cb w w0
                | inr (_, s0, w0) =>
                    confined p cb w w0 /\ _partition s0 = p
                    /\ _progress_callback s0 = cb
                end).
  { unfold stash_first_block. destruct (_ && _).
    - destruct (negb _).
      + pose proof (confined_abort p cb s w UPDATE_ERROR_MAGIC_BYTE) as Ha.
        destruct (_abort s w UPDATE_ERROR_MAGIC_BYTE). exact Ha.
      + pose proof (confined_malloc E p cb w ENCRYPTED_BLOCK_SIZE) as Hm.
        destruct (malloc E w ENCRYPTED_BLOCK_SIZE) as [[m|] w1]; st_simpl; auto.
    - split; [apply confined_refl|auto]. }
  destruct (stash_first_block E s w) as [[s0 w0]|[[skip s0] w0]]; [exact Hst|].
  destruct Hst as (H0 & Hp & Hcb).
  set (w1 := if _ && _ then _ else w0).
  assert (H1 : confined p cb w w1).
  { subst w1. destruct (_progress s0 =? 0); cbn [andb]; [|exact H0].
    destruct (_progress_callback s0) eqn:Hc; [|exact H0].
    apply confined_log; [|exact H0]. intros Hf. congruence. }
  clearbody w1.
  pose proof (confined_partitionEraseRange E (_partition s0) cb w1 (_progress s0)
                SPI_FLASH_SEC_SIZE) as H2.
  destruct (partitionEraseRange E w1 _ _ _) as [[|] w2]; st_simpl;
    rewrite Hp in H2; [|apply Hab; eapply confined_trans; eassumption].
  match goal with
  | |- context [partitionWrite E w2 ?q ?o ?m ?l] =>
      pose proof (confined_partitionWrite E q cb w2 o m l) as H3;
      destruct (partitionWrite E w2 q o m l) as [[|] w3]
  end; st_simpl; rewrite Hp in H3;
    [|apply Hab; eapply confined_trans; [|exact H3];
      eapply confined_trans; eassumption].
  assert (H4 : confined p cb w w3).
  { eapply confined_trans; [|exact H3]. eapply confined_trans; eassumption. }
  match goal with
  | |- context [if _progress_callback ?t then _ else _] =>
      replace (_progress_callback t) with cb
  end.
  2:{ destruct (_ && _); st_simpl; symmetry; exact Hcb. }
  destruct cb eqn:Hc; [|exact H4].
  apply confined_log; [discriminate|exact H4].
Qed.

Lemma buffer_append_settings s data from n :
  same_settings s (buffer_append s data from n).
Proof. unfold same_settings, buffer_append. st_simpl. tauto. Qed.

Lemma writeBuffer_frame (E : Env) s w r s' w' :
  _writeBuffer E s w = (r, s', w') ->
  same_settings s s' /\ confined (_partition s) (_progress_callback s) w w'.
Proof.
  intros H. split; [exact (writeBuffer_settings E s w r s' w' H)|].
  pose proof (writeBuffer_confined E s w) as Hc. rewrite H in Hc. exact Hc.
Qed.

Lemma confined_settings s s' w w' w'' :
  same_settings s s' ->
  confined (_partition s) (_progress_callback s) w w' ->
  confined (_partition s') (_progress_callback s') w' w'' ->
  confined (_partition s) (_progress_callback s) w w''.
Proof.
  intros (Hp & Hcb & _) H1 H2. rewrite Hp, Hcb in H2.
  eapply confined_trans; eassumption.
Qed.

Lemma write_loop_frame (E : Env) fuel data len left_ s w res :
  write_loop E fuel data len left_ s w = Some res ->
  match res with
  | inl (_, s', w') | inr (_, s', w') =>
      same_settings s s'
      /\ confined (_partition s) (_progress_callback s) w w'
  end.
Proof.
  revert left_ s w. induction fuel as [|fuel IH]; intros left_ s w;
    cbn [write_loop]; destruct (_ >? _); try discriminate;
    try (intros [= <-]; split; [apply same_settings_refl|apply confined_refl]).
  set (s1 := buffer_append s data _ _).
  pose proof (buffer_append_settings s data (wrap (len - left_))
                (wrap (SPI_FLASH_SEC_SIZE - _bufferLen s))) as Hs1.
  fold s1 in Hs1.
  destruct (_writeBuffer E s1 w) as [[[|] s2] w2] eqn:Hwb;
    apply writeBuffer_frame in Hwb; destruct Hwb as [Hs2 Hc2].
  - intros Hres. apply IH in Hres.
    assert (Hs : same_settings s s2) by exact (same_settings_trans _ _ _ Hs1 Hs2).
    destruct res as [[[n s'] w']|[[l s'] w']]; destruct Hres as [Hs3 Hc3];
      (split; [exact (same_settings_trans _ _ _ Hs Hs3)|]);
      (eapply (confined_settings s s2); [exact Hs| |exact Hc3]);
      destruct Hs1 as (Hp & Hcb & _); rewrite <- Hp, <- Hcb; exact Hc2.
  - intros [= <-]. split; [exact (same_settings_trans _ _ _ Hs1 Hs2)|].
    destruct Hs1 as (Hp & Hcb & _); rewrite <- Hp, <- Hcb; exact Hc2.
Qed.

Lemma write_frame (E : Env) data s w n s' w' :
  write E data s w = Some (n, s', w') ->
  same_settings s s' /\ confined (_partition s) (_progress_callback s) w w'.
Proof.
  unfold write. destruct (_ || _).
  { intros [= _ <- <-]. split; [apply same_settings_refl|apply confined_refl]. }
  destruct (_ >? _).
  { pose proof (abort_settings s w UPDATE_ERROR_SPACE) as Hs.
    pose proof (confined_abort (_partition s) (_progress_callback s) s w
                  UPDATE_ERROR_SPACE) as Hc.
    destruct (_abort s w UPDATE_ERROR_SPACE). intros [= _ <- <-]. auto. }
  destruct (write_loop E _ data _ _ s w) as [res|] eqn:Hloop; [|discriminate].
  apply write_loop_frame in Hloop.
  destruct res as [[[n1 s1] w1]|[[l s1] w1]]; destruct Hloop as [Hs1 Hc1].
  { intros [= _ <- <-]. auto. }
  set (s2 := buffer_append s1 data _ _).
  pose proof (buffer_append_settings s1 data (wrap (zlen data - l)) l) as Hs2.
  fold s2 in Hs2.
  assert (Hs : same_settings s s2) by exact (same_settings_trans _ _ _ Hs1 Hs2).
  assert (Hc : confined (_partition s) (_progress_callback s) w w1) by exact Hc1.
  destruct (_ =? _).
  - destruct (_writeBuffer E s2 w1) as [[[|] s3] w3] eqn:Hwb;
      apply writeBuffer_frame in Hwb; destruct Hwb as [Hs3 Hc3];
      intros [= _ <- <-];
      (split; [exact (same_settings_trans _ _ _ Hs Hs3)|]);
      exact (confined_settings s s2 w w1 _ Hs Hc Hc3).
  - intros [= _ <- <-]. split; [exact Hs|exact Hc].
Qed.

Lemma stream_loop_frame (E : Env) fuel written st s w n s' w' st' :
  stream_loop E fuel written st s w = Some (n, s', w', st') ->
  same_settings s s' /\ confined (_partition s) (_progress_callback s) w w'.
Proof.
  revert written st s w. induction fuel as [|fuel IH]; intros written st s w;
    cbn [stream_loop]; destruct (remaining s =? 0); try discriminate;
    try (intros [= _ <- <- _]; split;
         [apply same_settings_refl|apply confined_refl]).
  destruct (read_retry 300 0 st _) as [[[got|] st1]|]; [| |discriminate].
  - set (s1 := buffer_append s got 0 (zlen got)).
    pose proof (buffer_append_settings s got 0 (zlen got)) as Hs1. fold s1 in Hs1.
    assert (Hrest : forall s2 w2,
              same_settings s1 s2 ->
              confined (_partition s1) (_progress_callback s1) w w2 ->
              stream_loop E fuel (wrap (written + zlen got)) st1 s2 w2
              = Some (n, s', w', st') ->
              same_settings s s'
              /\ confined (_partition s) (_progress_callback s) w w').
    { intros s2 w2 Hs2 Hc2 Hres. apply IH in Hres. destruct Hres as [Hs3 Hc3].
      assert (Hs : same_settings s s2) by exact (same_settings_trans _ _ _ Hs1 Hs2).
      split; [exact (same_settings_trans _ _ _ Hs Hs3)|].
      eapply (confined_settings s s2); [exact Hs| |exact Hc3].
      destruct Hs1 as (Hp & Hcb & _); rewrite <- Hp, <- Hcb; exact Hc2. }
    destruct (_ || _).
    + destruct (_writeBuffer E s1 w) as [[[|] s2] w2] eqn:Hwb;
        apply writeBuffer_frame in Hwb; destruct Hwb as [Hs2 Hc2].
      * apply Hrest; assumption.
      * intros [= _ <- <- _]. split; [exact (same_settings_trans _ _ _ Hs1 Hs2)|].
        destruct Hs1 as (Hp & Hcb & _); rewrite <- Hp, <- Hcb; exact Hc2.
    + apply Hrest; [apply same_settings_refl|apply confined_refl].
  - pose proof (abort_settings s w UPDATE_ERROR_STREAM) as Hs.
    pose proof (confined_abort (_partition s) (_progress_callback s) s w
                  UPDATE_ERROR_STREAM) as Hc.
    destruct (_abort s w UPDATE_ERROR_STREAM). intros [= _ <- <- _]. auto.
Qed.

Lemma writeStream_frame (E : Env) data s w n s' w' st' :
  writeStream E data s w = Some (n, s', w', st') ->
  same_settings s s' /\ confined (_partition s) (_progress_callback s) w w'.
Proof.
  unfold writeStream. destruct (_ || _).
  { intros [= _ <- <- _]. split; [apply same_settings_refl|apply confined_refl]. }
  unfold _verifyHeader.
  pose proof (abort_settings s w UPDATE_ERROR_MAGIC_BYTE) as Hs.
  pose proof (confined_abort (_partition s) (_progress_callback s) s w
                UPDATE_ERROR_MAGIC_BYTE) as Hc.
  assert (Hre : forall s1 w1,
            same_settings s s1 ->
            confined (_partition s) (_progress_callback s) w w1 ->
            (let '(s2, w2) := _reset s1 w1 in Some (0, s2, w2, data))
            = Some (n, s', w', st') ->
            same_settings s s'
            /\ confined (_partition s) (_progress_callback s) w w').
  { intros s1 w1 Hs1 Hc1.
    pose proof (reset_settings s1 w1) as Hs2.
    pose proof (confined_reset (_partition s) (_progress_callback s) s1 w1) as Hc2.
    destruct (_reset s1 w1). intros [= _ <- <- _].
    split; [exact (same_settings_trans _ _ _ Hs1 Hs2)|].
    exact (confined_trans _ _ _ _ _ Hc1 Hc2). }
  destruct (_command s =? U_FLASH).
  - destruct (negb _).
    + destruct (_abort s w UPDATE_ERROR_MAGIC_BYTE). apply Hre; assumption.
    + apply stream_loop_frame.
  - destruct (_command s =? U_SPIFFS); [apply stream_loop_frame|].
    apply Hre; [apply same_settings_refl|apply confined_refl].
Qed.

Lemma confined_touched p cb w w' : confined p cb w w' -> touched p cb w w'.
Proof. intros (H1 & _ & H3). split; assumption. Qed.

Lemma touched_trans p cb w1 w2 w3 :
  touched p cb w1 w2 -> touched p cb w2 w3 -> touched p cb w1 w3.
Proof.
  intros (H1 & H3) (K1 & K3). split.
  - intros q Hq. rewrite K1, H1 by exact Hq. reflexivity.
  - intros Hcb d t Hin. apply (H3 Hcb), (K3 Hcb), Hin.
Qed.

Lemma confined_boot p cb w w' : confined p cb w w' -> boot_target w' = boot_target w.
Proof. intros (_ & H & _). exact H. Qed.

(** The boot selector marks the partition it is given, or nothing. *)
Lemma set_boot_partition_frame (E : Env) p p' cb w r w' :
  esp_ota_set_boot_partition E w p = (r, w') ->
  touched p' cb w w'
  /\ (forall q, contents w' q = contents w q)
  /\ (r = true -> boot_target w' = p)
  /\ (r = false -> boot_target w' = boot_target w).
Proof.
  unfold esp_ota_set_boot_partition. destruct p as [q|].
  2:{ intros [= <- <-]. split; [apply confined_touched, confined_refl|].
      split; [reflexivity|]. split; [discriminate|reflexivity]. }
  destruct (set_boot_ok E (now w)); intros [= <- <-].
  - split; [split|split; [|split; [reflexivity|discriminate]]].
    + intros q' _. rewrite contents_set_boot. apply contents_log.
    + intros _ d t [Heq|Hin]; [discriminate|exact Hin].
    + intros q'. rewrite contents_set_boot. apply contents_log.
  - split; [apply confined_touched, confined_log; [quiet|apply confined_refl]|].
    split; [intros q'; apply contents_log|].
    split; [discriminate|reflexivity].
Qed.

(** A partition found bootable starts with the magic byte. *)
Lemma partitionIsBootable_true (E : Env) w p w' :
  _partitionIsBootable E w p = (true, w') ->
  byte_at (target_contents w p) 0 = ESP_IMAGE_HEADER_MAGIC
  /\ exists q, p = Some q.
Proof.
  unfold _partitionIsBootable, partitionRead. destruct p as [q|]; [|discriminate].
  cbn [target_contents].
  destruct (contents w q) as [c|]; [|discriminate].
  destruct (read_ok E (now w) && (0 + ENCRYPTED_BLOCK_SIZE <=? zlen c)) eqn:Hok;
    [|discriminate].
  destruct (negb _) eqn:Hm; [discriminate|]. intros _.
  split; [|exists q; reflexivity].
  apply negb_false_iff, Z.eqb_eq in Hm. rewrite <- Hm.
  cbn [default]. unfold byte_at, ztake, zdrop, ENCRYPTED_BLOCK_SIZE.
  cbn [Z.to_nat drop]. rewrite lookup_take_lt by (simpl; lia). reflexivity.
Qed.

Lemma first_byte_contents s s' w w' :
  _partition s' = _partition s ->
  (forall q, contents w' q = contents w q) ->
  first_byte s' w' = first_byte s w.
Proof.
  intros Hp Hc. unfold first_byte. rewrite Hp.
  rewrite (target_contents_ext w w'); [reflexivity|exact Hc].
Qed.

(** The activation: what [_verifyEnd] leaves. *)
Lemma verifyEnd_frame (E : Env) cb s w r s' w' :
  _verifyEnd E s w = (r, s', w') ->
  same_settings s s'
  /\ touched (_partition s) cb w w'
  /\ (r = false -> boot_target w' = boot_target w)
  /\ (r = true ->
      idle s'
      /\ ((_command s = U_FLASH /\ boot_target w' = _partition s
           /\ first_byte s' w' = ESP_IMAGE_HEADER_MAGIC)
          \/ (_command s = U_SPIFFS /\ boot_target w' = boot_target w))).
Proof.
  assert (Hab : forall w0 e,
            touched (_partition s) cb w w0 -> boot_target w0 = boot_target w ->
            (let '(s1, w1) := _abort s w0 e in (false, s1, w1)) = (r, s', w') ->
            same_settings s s' /\ touched (_partition s) cb w w'
            /\ (r = false -> boot_target w' = boot_target w)
            /\ (r = true ->
                idle s'
                /\ ((_command s = U_FLASH /\ boot_target w' = (_partition s)
                     /\ first_byte s' w' = ESP_IMAGE_HEADER_MAGIC)
                    \/ (_command s = U_SPIFFS
                        /\ boot_target w' = boot_target w)))).
  { intros w0 e Ht Hb.
    pose proof (abort_settings s w0 e) as Hs.
    pose proof (confined_abort (_partition s) cb s w0 e) as Hc.
    destruct (_abort s w0 e). st_simpl. intros [= <- <- <-].
    split; [exact Hs|]. split.
    - eapply touched_trans; [exact Ht|apply confined_touched, Hc].
    - split; [|discriminate]. intros _.
      rewrite (confined_boot _ _ _ _ Hc). exact Hb. }
  unfold _verifyEnd. destruct (_command s =? U_FLASH) eqn:Hcmd.
  - apply Z.eqb_eq in Hcmd.
    pose proof (confined_enablePartition E cb s w) as H1.
    destruct (_enablePartition E s w) as [en w1]. st_simpl.
    destruct en; cbn [negb].
    2:{ apply Hab; [apply confined_touched, H1|apply (confined_boot _ _ _ _ H1)]. }
    pose proof (confined_partitionIsBootable E (_partition s) (_partition s) cb w1) as H2.
    pose proof (fun q => contents_partitionIsBootable E w1 (_partition s) q) as Hc2.
    destruct (_partitionIsBootable E w1 (_partition s)) as [bo w2] eqn:Hbo. st_simpl.
    assert (H12 : confined (_partition s) cb w w2) by (eapply confined_trans; eassumption).
    destruct bo; cbn [negb].
    2:{ apply Hab; [apply confined_touched, H12|apply (confined_boot _ _ _ _ H12)]. }
    apply partitionIsBootable_true in Hbo. destruct Hbo as [Hmagic _].
    destruct (esp_ota_set_boot_partition E w2 (_partition s)) as [ok w3] eqn:Hsb.
    apply (set_boot_partition_frame E (_partition s) (_partition s) cb) in Hsb.
    destruct Hsb as (H3 & Hc3 & Hbt & Hbf).
    assert (H13 : touched (_partition s) cb w w3).
    { eapply touched_trans; [apply confined_touched, H12|exact H3]. }
    destruct ok.
    2:{ apply Hab; [exact H13|].
        rewrite (Hbf eq_refl). apply (confined_boot _ _ _ _ H12). }
    pose proof (reset_settings s w3) as Hs.
    pose proof (confined_reset (_partition s) cb s w3) as Hc.
    pose proof (fun q => contents_reset s w3 q) as Hc4.
    assert (Hidle : idle (fst (_reset s w3))).
    { unfold idle, _reset. st_simpl. tauto. }
    destruct (_reset s w3) as [s4 w4]. st_simpl. intros [= <- <- <-].
    split; [exact Hs|]. split.
    { eapply touched_trans; [exact H13|apply confined_touched, Hc]. }
    split; [discriminate|]. intros _. split; [exact Hidle|]. left.
    split; [exact Hcmd|]. split.
    { rewrite (confined_boot _ _ _ _ Hc). apply Hbt. reflexivity. }
    rewrite <- Hmagic. unfold first_byte.
    destruct Hs as (Hp4 & _). rewrite Hp4. f_equal.
    apply target_contents_ext. intros q. rewrite Hc4, Hc3, Hc2. reflexivity.
  - destruct (_command s =? U_SPIFFS) eqn:Hcs.
    + apply Z.eqb_eq in Hcs.
      pose proof (reset_settings s w) as Hs.
      pose proof (confined_reset (_partition s) cb s w) as Hc.
      assert (Hidle : idle (fst (_reset s w))).
      { unfold idle, _reset. st_simpl. tauto. }
      destruct (_reset s w) as [s4 w4]. st_simpl. intros [= <- <- <-].
      split; [exact Hs|]. split; [apply confined_touched, Hc|].
      split; [discriminate|]. intros _. split; [exact Hidle|]. right.
      split; [exact Hcs|apply (confined_boot _ _ _ _ Hc)].
    + intros [= <- <- <-]. split; [apply same_settings_refl|].
      split; [apply confined_touched, confined_refl|].
      split; [reflexivity|discriminate].
Qed.

Lemma signatureValid_settings (E : Env) s w r s' w' :
  _signatureValid E s w = (r, s', w') -> same_settings s s'.
Proof.
  intros H. unfold _signatureValid, _abort, _reset in H. unfold same_settings.
  split_branches; simplify_eq; st_simpl; tauto.
Qed.

Lemma signatureValid_confined (E : Env) cb s w :
  confined (_partition s) cb w (snd (_signatureValid E s w)).
Proof.
  unfold _signatureValid.
  pose proof (confined_enablePartition E cb s w) as H1.
  destruct (_enablePartition E s w) as [rc w1]. st_simpl.
  assert (Ha : forall w2 e, confined (_partition s) cb w w2 ->
            confined (_partition s) cb w
              (snd (let '(s0, w3) := _abort s w2 e in (false, s0, w3)))).
  { intros w2 e H2. pose proof (confined_abort (_partition s) cb s w2 e) as H3.
    destruct (_abort s w2 e). st_simpl. eapply confined_trans; eassumption. }
  destruct (negb rc); [apply Ha, H1|].
  destruct (sha256 E _ _).
  - destruct (negb (pk_parse_ok E _)).
    { apply Ha. repeat (apply confined_log; [quiet|]). exact H1. }
    destruct (negb (pk_verify_ok E _ _ _)).
    { apply Ha. repeat (apply confined_log; [quiet|]). exact H1. }
    st_simpl. repeat (apply confined_log; [quiet|]). exact H1.
  - apply Ha. repeat (apply confined_log; [quiet|]). exact H1.
Qed.

(** The flush of [end(true)] keeps the settings and stays inside the
    target partition; it leaves a firmware session one. *)
Lemma end_flush_frame (E : Env) b s w :
  same_settings s (fst (end_flush E b s w))
  /\ confined (_partition s) (_progress_callback s) w (snd (end_flush E b s w))
  /\ (_command (fst (end_flush E b s w)) = _command s
      \/ (b = true /\ _command (fst (end_flush E b s w)) = U_FLASH)).
Proof.
  unfold end_flush. destruct b.
  2:{ split; [apply same_settings_refl|]. split; [apply confined_refl|auto]. }
  destruct (_bufferLen s >? 0).
  2:{ st_simpl. split; [unfold same_settings; st_simpl; tauto|].
      split; [apply confined_refl|auto]. }
  destruct (_writeBuffer E s w) as [[r s1] w1] eqn:Hwb.
  pose proof (writeBuffer_frame E s w r s1 w1 Hwb) as [Hs Hc].
  apply writeBuffer_result in Hwb. st_simpl.
  split; [unfold same_settings in *; st_simpl; exact Hs|].
  split; [exact Hc|].
  destruct Hwb as (_ & _ & [H|[H|H]]).
  - left. tauto.
  - right. tauto.
  - left. destruct H as [_ ->]. reflexivity.
Qed.

Lemma end_verify_frame (E : Env) cb s w r s' w' :
  end_verify E s w = (r, s', w') ->
  same_settings s s'
  /\ touched (_partition s) cb w w'
  /\ (r = false -> boot_target w' = boot_target w)
  /\ (r = true ->
      idle s'
      /\ ((_command s = U_FLASH /\ boot_target w' = _partition s
           /\ first_byte s' w' = ESP_IMAGE_HEADER_MAGIC)
          \/ (_command s = U_SPIFFS /\ boot_target w' = boot_target w))).
Proof.
  assert (H0 : confined (_partition s) cb w (log EMd5Calculate w)).
  { apply confined_log; [quiet|apply confined_refl]. }
  assert (Hab : forall s0 w0 e,
            same_settings s s0 ->
            confined (_partition s) cb w w0 ->
            (let '(s1, w1) := _abort s0 w0 e in (false, s1, w1)) = (r, s', w') ->
            same_settings s s' /\ touched (_partition s) cb w w'
            /\ (r = false -> boot_target w' = boot_target w)
            /\ (r = true ->
                idle s'
                /\ ((_command s = U_FLASH /\ boot_target w' = _partition s
                     /\ first_byte s' w' = ESP_IMAGE_HEADER_MAGIC)
                    \/ (_command s = U_SPIFFS
                        /\ boot_target w' = boot_target w)))).
  { intros s0 w0 e Hs0 Hc0.
    pose proof (abort_settings s0 w0 e) as Hs.
    pose proof (confined_abort (_partition s) cb s0 w0 e) as Hc.
    destruct (_abort s0 w0 e). st_simpl. intros [= <- <- <-].
    assert (Hcc : confined (_partition s) cb w w1)
      by exact (confined_trans _ _ _ _ _ Hc0 Hc).
    split; [exact (same_settings_trans _ _ _ Hs0 Hs)|].
    split; [apply confined_touched, Hcc|].
    split; [|discriminate]. intros _. apply (confined_boot _ _ _ _ Hcc). }
  assert (Hve : forall w0,
            confined (_partition s) cb w w0 ->
            _verifyEnd E s w0 = (r, s', w') ->
            same_settings s s' /\ touched (_partition s) cb w w'
            /\ (r = false -> boot_target w' = boot_target w)
            /\ (r = true ->
                idle s'
                /\ ((_command s = U_FLASH /\ boot_target w' = _partition s
                     /\ first_byte s' w' = ESP_IMAGE_HEADER_MAGIC)
                    \/ (_command s = U_SPIFFS
                        /\ boot_target w' = boot_target w)))).
  { intros w0 Hc0 Hv. apply (verifyEnd_frame E cb) in Hv.
    destruct Hv as (Hs & Ht & Hf & Htr).
    pose proof (confined_boot _ _ _ _ Hc0) as Hb0.
    split; [exact Hs|].
    split; [eapply touched_trans; [apply confined_touched, Hc0|exact Ht]|].
    split; [intros Hr; rewrite (Hf Hr); exact Hb0|].
    intros Hr. destruct (Htr Hr) as (Hi & [H|[H1 H2]]).
    - split; [exact Hi|left; exact H].
    - split; [exact Hi|right]. split; [exact H1|]. rewrite H2. exact Hb0. }
  unfold end_verify. destruct (_ && _).
  { apply Hab; [apply same_settings_refl|exact H0]. }
  destruct (pubKey_toParse E); [|apply Hve, H0].
  pose proof (signatureValid_confined E cb s (log EMd5Calculate w)) as Hc1.
  destruct (_signatureValid E s _) as [[[|] s1] w1] eqn:Hsv; st_simpl.
  - apply signatureValid_ok in Hsv. destruct Hsv as [-> _].
    apply Hve. exact (confined_trans _ _ _ _ _ H0 Hc1).
  - apply signatureValid_settings in Hsv.
    apply Hab; [exact Hsv|exact (confined_trans _ _ _ _ _ H0 Hc1)].
Qed.

(** What [end] leaves: the settings, the other partitions, the boot
    selection unless it succeeds. *)
Lemma end_frame (E : Env) b s w r s' w' :
  end_ E b s w = (r, s', w') ->
  same_settings s s'
  /\ touched (_partition s) (_progress_callback s) w w'
  /\ (r = false -> boot_target w' = boot_target w)
  /\ (r = true ->
      idle s'
      /\ ((boot_target w' = _partition s
           /\ first_byte s' w' = ESP_IMAGE_HEADER_MAGIC
           /\ (_command s = U_FLASH \/ b = true))
          \/ (_command s = U_SPIFFS /\ boot_target w' = boot_target w))).
Proof.
  unfold end_. destruct (_ || _).
  { intros [= <- <- <-]. split; [apply same_settings_refl|].
    split; [apply confined_touched, confined_refl|].
    split; [reflexivity|discriminate]. }
  destruct (_ && _).
  { pose proof (abort_settings s w UPDATE_ERROR_ABORT) as Hs.
    pose proof (confined_abort (_partition s) (_progress_callback s) s w
                  UPDATE_ERROR_ABORT) as Hc.
    destruct (_abort s w UPDATE_ERROR_ABORT). st_simpl. intros [= <- <- <-].
    split; [exact Hs|]. split; [apply confined_touched, Hc|].
    split; [|discriminate]. intros _. apply (confined_boot _ _ _ _ Hc). }
  destruct (end_flush_frame E b s w) as (Hs1 & Hc1 & Hcmd).
  destruct (end_flush E b s w) as [s1 w1]. st_simpl.
  intros Hv. apply (end_verify_frame E (_progress_callback s)) in Hv.
  destruct Hs1 as (Hp & Hrest). rewrite Hp in Hv.
  destruct Hv as (Hs & Ht & Hf & Htr).
  pose proof (confined_boot _ _ _ _ Hc1) as Hb1.
  split; [exact (same_settings_trans _ _ _ (conj Hp Hrest) Hs)|].
  split; [eapply touched_trans; [apply confined_touched, Hc1|exact Ht]|].
  split; [intros Hr; rewrite (Hf Hr); exact Hb1|].
  intros Hr. destruct (Htr Hr) as (Hi & [(H1 & H2 & H3)|[H1 H2]]).
  - split; [exact Hi|left]. split; [exact H2|]. split; [exact H3|].
    destruct Hcmd as [Hcmd|[Hb _]]; [left; congruence|right; exact Hb].
  - split; [exact Hi|].
    destruct Hcmd as [Hcmd|[Hb Hcf]].
    + right. split; [congruence|]. rewrite H2. exact Hb1.
    + exfalso. rewrite Hcf in H1. discriminate.
Qed.

Lemma begin_confined (E : Env) size command ledPin ledOn label s w :
  confined None false w (snd (begin E size command ledPin ledOn label s w)).
Proof.
  unfold begin. destruct (_size s >? 0); [apply confined_refl|].
  pose proof (confined_reset None false (set_led s ledPin (negb (ledOn =? 0))) w)
    as Hr.
  destruct (_reset _ w) as [s1 w1]. st_simpl.
  destruct (size =? 0); [exact Hr|]. cbv zeta.
  match goal with
  | |- context [match ?c with inl _ => _ | inr _ => _ end] => destruct c as [s2|s2]
  end; [exact Hr|].
  destruct (_ >? _); [exact Hr|].
  pose proof (confined_malloc E None false w1 SPI_FLASH_SEC_SIZE) as Hm.
  destruct (malloc E w1 SPI_FLASH_SEC_SIZE) as [[b|] w2]; st_simpl;
    exact (confined_trans _ _ _ _ _ Hr Hm).
Qed.

Lemma canRollBack_confined (E : Env) s w :
  confined None false w (snd (canRollBack E s w)).
Proof.
  unfold canRollBack. destruct (_buffer s); [apply confined_refl|].
  apply confined_partitionIsBootable.
Qed.

Lemma confined_none_contents cb w w' q :
  confined None cb w w' -> contents w' q = contents w q.
Proof. intros (H & _). apply H. discriminate. Qed.

(** ** Roll back *)

(** X18: when [rollBack] returns [true] no session holds the buffer,
    [canRollBack] holds as well, the other OTA partition starts with the
    magic byte and has become the boot selection, and no partition has
    been changed. *)
Theorem rollBack_switches_to_bootable (E : Env) (s : UpdateClass)
    (w w' : World) :
  rollBack E s w = (true, w') ->
  _buffer s = None
  /\ fst (canRollBack E s w) = true
  /\ boot_target w' = Some P_OTA
  /\ byte_at (target_contents w (Some P_OTA)) 0 = ESP_IMAGE_HEADER_MAGIC
  /\ forall q, contents w' q = contents w q.
Proof.
  unfold rollBack, canRollBack. destruct (_buffer s); [discriminate|].
  pose proof (fun q => contents_partitionIsBootable E w
                         (esp_ota_get_next_update_partition w) q) as Hc1.
  destruct (_partitionIsBootable E w _) as [[|] w1] eqn:Hb; [|discriminate].
  intros Hsb. split; [reflexivity|]. split; [reflexivity|].
  apply partitionIsBootable_true in Hb. destruct Hb as [Hm [q Hq]].
  assert (Hota : esp_ota_get_next_update_partition w = Some P_OTA).
  { unfold esp_ota_get_next_update_partition in *.
    destruct (ota w); [reflexivity|discriminate]. }
  rewrite Hota in *.
  apply (set_boot_partition_frame E _ None false) in Hsb.
  destruct Hsb as (_ & Hc2 & Hbt & _).
  split; [apply Hbt; reflexivity|]. split; [exact Hm|].
  intros q'. rewrite Hc2. apply Hc1.
Qed.

(** X19: while a session holds its buffer, in particular after a
    successful [begin], [rollBack] and [canRollBack] return [false] and do
    nothing; a [rollBack] that returns [false] leaves the boot selection
    and the partitions as they are, and so does every [canRollBack]. *)
Theorem rollBack_refused (E : Env) (s : UpdateClass) (w : World) :
  (_buffer s <> None ->
   rollBack E s w = (false, w) /\ canRollBack E s w = (false, w))
  /\ (forall size command ledPin ledOn label s1 w1,
        begin E size command ledPin ledOn label s w = (true, s1, w1) ->
        rollBack E s1 w1 = (false, w1) /\ canRollBack E s1 w1 = (false, w1))
  /\ (forall w', rollBack E s w = (false, w') ->
        boot_target w' = boot_target w
        /\ forall q, contents w' q = contents w q)
  /\ boot_target (snd (canRollBack E s w)) = boot_target w
  /\ forall q, contents (snd (canRollBack E s w)) q = contents w q.
Proof.
  assert (H1 : forall s0 w0, _buffer s0 <> None ->
            rollBack E s0 w0 = (false, w0) /\ canRollBack E s0 w0 = (false, w0)).
  { intros s0 w0 Hb. unfold rollBack, canRollBack.
    destruct (_buffer s0); [auto|congruence]. }
  split; [apply H1|]. split.
  { intros size command ledPin ledOn label s1 w1 Hbeg. apply H1.
    apply begin_result in Hbeg.
    destruct Hbeg as [(_ & ? & _)|[(_ & _ & _ & _ & _ & Hb)|(_ & ? & _)]];
      [discriminate|exact Hb|discriminate]. }
  split.
  { unfold rollBack. destruct (_buffer s); [intros w' [= <-]; auto|].
    pose proof (confined_partitionIsBootable E None
                  (esp_ota_get_next_update_partition w) false w) as Hc1.
    destruct (_partitionIsBootable E w _) as [[|] w1].
    - intros w' Hsb. apply (set_boot_partition_frame E _ None false) in Hsb.
      destruct Hsb as (_ & Hc2 & _ & Hbf). st_simpl. split.
      + rewrite (Hbf eq_refl). apply (confined_boot _ _ _ _ Hc1).
      + intros q. rewrite Hc2. apply (confined_none_contents _ _ _ _ Hc1).
    - intros w' [= <-]. st_simpl. split.
      + apply (confined_boot _ _ _ _ Hc1).
      + intros q. apply (confined_none_contents _ _ _ _ Hc1). }
  pose proof (canRollBack_confined E s w) as Hc. split.
  - apply (confined_boot _ _ _ _ Hc).
  - intros q. apply (confined_none_contents _ _ _ _ Hc).
Qed.

(** ** Error messages *)

(** X22: every error code has a message of its own, none of them the
    fallback text; the message is "No Error" exactly when there is no
    sticky error, and [printError] prints it as its last line. *)
Theorem errorString_identifies_error (s s' : UpdateClass) :
  (errorString s = errorString s' <-> getError s = getError s')
  /\ (errorString s = "No Error"%string <-> hasError s = false)
  /\ errorString s <> "UNKNOWN"%string
  /\ forall out, last (printError out s) = Some (errorString s).
Proof.
  split; [|split; [|split]].
  - unfold errorString, getError.
    destruct (_error s), (_error s'); split; first [reflexivity|discriminate].
  - unfold errorString, hasError.
    destruct (_error s); split; first [reflexivity|discriminate].
  - unfold errorString. destruct (_error s); discriminate.
  - intros out. unfold printError. apply last_snoc.
Qed.

(** ** When begin succeeds *)

(** X1: [begin] returns [true] exactly when no session is running, the
    size is not 0, the command selects a partition that exists and that
    the size fits ([UPDATE_SIZE_UNKNOWN] always fits), and the
    pending-write buffer can be allocated. *)
Theorem begin_succeeds_iff (E : Env) (size command ledPin ledOn : Z)
    (label : option string) (s : UpdateClass) (w : World) :
  fst (fst (begin E size command ledPin ledOn label s w)) = true
  <-> (isRunning s = false /\ size <> 0
       /\ (exists q, begin_target w command label = Some q
             /\ (size = UPDATE_SIZE_UNKNOWN
                 \/ size <= partition_size w (Some q)))
       /\ malloc_ok E (now (snd (_reset s w))) = true).
Proof.
  unfold begin, isRunning. destruct (_size s >? 0).
  { split; [discriminate|]. intros (H & _). discriminate. }
  unfold _reset. cbv beta iota. st_simpl.
  set (w1 := match _buffer s with Some _ => log EFree w | None => w end).
  assert (Hw1 : forall q, contents w1 q = contents w q).
  { intros q. subst w1. destruct (_buffer s); [apply contents_log|reflexivity]. }
  assert (Hps : forall p, partition_size w1 p = partition_size w p).
  { intros p. apply partition_size_ext, Hw1. }
  assert (Hbt : begin_target w1 command label = begin_target w command label).
  { subst w1. destruct (_buffer s); reflexivity. }
  rewrite <- Hbt. clear Hbt.
  destruct (size =? 0) eqn:Hs0.
  { split; [discriminate|]. intros (_ & H & _). lia. }
  assert (Hne : size <> 0) by lia.
  match goal with
  | |- context [match ?c with inl _ => _ | inr _ => _ end] =>
      set (sel := c)
  end.
  assert (Hsel : match sel with
                 | inl _ => begin_target w1 command label = None
                 | inr x => _partition x = begin_target w1 command label
                            /\ exists q, _partition x = Some q
                 end).
  { subst sel. unfold begin_target.
    destruct (command =? U_FLASH).
    - st_simpl. destruct (esp_ota_get_next_update_partition w1) as [q|];
        [split; [reflexivity|exists q; reflexivity]|reflexivity].
    - destruct (command =? U_SPIFFS); [|reflexivity]. st_simpl.
      destruct (find_spiffs w1 label) as [q|];
        [split; [reflexivity|exists q; reflexivity]|].
      destruct (find_fat w1) as [q|];
        [split; [reflexivity|exists q; reflexivity]|reflexivity]. }
  destruct sel as [x|x].
  { rewrite Hsel. split; [discriminate|].
    intros (_ & _ & (q & Hq & _) & _). discriminate. }
  destruct Hsel as (Hx & q & Hq). rewrite <- Hx, Hq, Hps.
  set (psize := partition_size w (Some q)).
  destruct ((if size =? UPDATE_SIZE_UNKNOWN then psize else size) >? psize)
    eqn:Hgt.
  { split; [discriminate|]. intros (_ & _ & (q' & Hq' & Hfit) & _).
    apply (inj Some) in Hq'. subst q'. fold psize in Hfit.
    destruct (size =? UPDATE_SIZE_UNKNOWN) eqn:Hu; lia. }
  unfold malloc. destruct (malloc_ok E (now w1)).
  - split; [|reflexivity]. intros _. split; [reflexivity|].
    split; [exact Hne|]. split; [|reflexivity].
    exists q. split; [reflexivity|]. fold psize.
    destruct (size =? UPDATE_SIZE_UNKNOWN) eqn:Hu; lia.
  - split; [discriminate|]. intros (_ & _ & _ & H). discriminate.
Qed.

Lemma begin_targets (E : Env) size command ledPin ledOn label s w :
  (_size s >? 0) = false ->
  _target_md5 (snd (fst (begin E size command ledPin ledOn label s w)))
  = EmptyString
  /\ _target_signature (snd (fst (begin E size command ledPin ledOn label s w)))
     = _target_signature s
  /\ _target_signature_lenght
       (snd (fst (begin E size command ledPin ledOn label s w)))
     = _target_signature_lenght s.
Proof.
  intros Hrun. unfold begin. rewrite Hrun. unfold _reset. cbv beta iota.
  destruct (size =? 0); [st_simpl; auto|].
  match goal with
  | |- context [match ?c with inl _ => _ | inr _ => _ end] =>
      assert (Hsel : match c with
                     | inl x | inr x =>
                         _target_md5 x = EmptyString
                         /\ _target_signature x = _target_signature s
                         /\ _target_signature_lenght x
                            = _target_signature_lenght s
                     end);
      [|destruct c as [x|x]]
  end.
  { destruct (command =? U_FLASH); [|destruct (command =? U_SPIFFS)];
      st_simpl;
      repeat match goal with
      | |- context [match ?c with Some _ => _ | None => _ end] => destruct c
      end; st_simpl; auto. }
  { st_simpl. exact Hsel. }
  match goal with
  | |- context [if ?c then _ else _] => destruct c
  end; [st_simpl; exact Hsel|].
  destruct (malloc E _ SPI_FLASH_SEC_SIZE) as [[b|] w2]; st_simpl; exact Hsel.
Qed.

(** [begin] empties the expected hash and keeps the signature. *)
(** X2: an expected hash and a signature set before [begin]: a [begin]
    that passes the running check empties the expected hash, whatever it
    returns, and keeps the signature. *)
Theorem begin_clears_hash_keeps_signature (E : Env)
    (size command ledPin ledOn : Z) (label : option string)
    (h sig : string) (s : UpdateClass) (w : World) :
  isRunning s = false ->
  let s1 := snd (setSignature sig (snd (setMD5 h s))) in
  let s' := snd (fst (begin E size command ledPin ledOn label s1 w)) in
  _target_md5 s' = EmptyString
  /\ _target_signature s' = sig
  /\ _target_signature_lenght s' = Z.of_nat (String.length sig).
Proof.
  unfold isRunning. intros Hrun. cbv zeta.
  assert (H1 : (_size (snd (setSignature sig (snd (setMD5 h s)))) >? 0) = false).
  { unfold setSignature, setMD5. destruct (negb _); st_simpl; exact Hrun. }
  destruct (begin_targets E size command ledPin ledOn label _ w H1)
    as (Ha & Hb & Hc).
  split; [exact Ha|]. rewrite Hb, Hc. unfold setSignature. st_simpl. auto.
Qed.

(** ** The hash follows the flushes *)

Lemma recorded_append A N cmd s w data from n :
  accepted A N cmd s w ->
  recorded A s ->
  recorded (A ++ ztake n (zdrop from data)) (buffer_append s data from n).
Proof.
  intros Hacc [Hmd Hmg].
  pose proof (acc_len _ _ _ _ _ Hacc) as Hl.
  pose proof (acc_progress _ _ _ _ _ Hacc) as Hp.
  pose proof (acc_bufferLen _ _ _ _ _ Hacc) as Hb.
  unfold recorded, buffer_append. st_simpl. split.
  - rewrite Hmd. unfold ztake, zlen in *. rewrite take_app_le by lia. reflexivity.
  - intros Hc Hne. rewrite <- (Hmg Hc Hne). unfold byte_at, zlen in *.
    rewrite lookup_app_l by (cbn; lia). reflexivity.
Qed.

Lemma splice_same_head (b : list Z) x :
  byte_at b 0 = x -> b <> [] -> splice 0 [x] b = b.
Proof.
  intros Hx Hb. destruct b as [|y b]; [congruence|].
  change (y = x) in Hx. subst y.
  unfold splice. change (Z.to_nat 0) with 0%nat. cbn. f_equal.
  rewrite ?drop_0. apply take_ge. lia.
Qed.

Lemma recorded_flush (E : Env) A N cmd s w s' w' :
  accepted A N cmd s w ->
  recorded A s ->
  _writeBuffer E s w = (true, s', w') ->
  recorded A s'.
Proof.
  intros Hacc [Hmd Hmg] H.
  destruct (accepted_flush E A N cmd s w s' w' Hacc H) as (Hacc' & Hbl' & Hp').
  destruct Hacc as [He Hs Hc HN Hp Hb Hl Hle Ht Hst].
  apply writeBuffer_ok in H. cbv zeta in H.
  destruct H as (q & c & b & Hq & Hcq & Hbuf & _ & _ & _ & _ & Hmagic
                 & _ & _ & Hmd' & _ & _ & _ & _ & Hcmd' & _).
  destruct Ht as (q0 & c0 & b0 & _ & _ & _ & _ & Hbuf0 & Hzb & Hbi & _).
  assert (b0 = b) as -> by congruence.
  assert (Hb' : (if first_flush s then splice 0 [ESP_IMAGE_HEADER_MAGIC] b else b)
                = b).
  { destruct (first_flush s); [|reflexivity].
    apply splice_same_head; [apply Hmagic; reflexivity|].
    intros ->. unfold zlen, SPI_FLASH_SEC_SIZE in Hzb. cbn in Hzb. lia. }
  rewrite Hb' in Hmd'. split.
  - rewrite Hmd', Hp', Hmd. unfold zlen, ztake in *.
    apply list_eq. intros i.
    destruct (decide (i < Z.to_nat (_progress s))%nat) as [Hlt|Hge].
    + rewrite lookup_app_l by (rewrite length_take; lia).
      rewrite !lookup_take_lt by lia. reflexivity.
    + rewrite lookup_app_r by (rewrite length_take; lia).
      rewrite length_take.
      replace (Z.to_nat (_progress s) `min` length A)%nat
        with (Z.to_nat (_progress s)) by lia.
      destruct (decide (i < length A)%nat) as [Hin|Hout].
      * rewrite !lookup_take_lt by lia. rewrite Hbi by lia. f_equal. lia.
      * rewrite !lookup_take_ge by lia. reflexivity.
  - rewrite Hcmd'. intros Hcf Hne.
    destruct (decide (_progress s = 0)) as [H0|H0]; [|exact (Hmg Hcf H0)].
    assert (Hff : first_flush s = true).
    { unfold first_flush. rewrite H0, Hcf. reflexivity. }
    rewrite <- (Hmagic Hff). unfold byte_at. f_equal.
    rewrite Hbi by (unfold zlen in *; lia). rewrite H0. reflexivity.
Qed.

Lemma write_loop_recorded (E : Env) A N cmd data fuel left_ s w res :
  accepted (A ++ ztake (zlen data - left_) data) N cmd s w ->
  recorded (A ++ ztake (zlen data - left_) data) s ->
  0 <= left_ <= zlen data ->
  zlen A + zlen data <= N ->
  write_loop E fuel data (zlen data) left_ s w = Some res ->
  match res with
  | inl _ => True
  | inr (l, s', w') => recorded (A ++ ztake (zlen data - l) data) s'
  end.
Proof.
  revert left_ s w.
  induction fuel as [|fuel IH]; intros left_ s w Hacc Hrec Hl HA;
    cbn [write_loop];
    destruct (wrap (_bufferLen s + left_) >? SPI_FLASH_SEC_SIZE) eqn:Hc;
    try discriminate; try (intros [= <-]; exact Hrec).
  pose proof (acc_bufferLen _ _ _ _ _ Hacc) as Hb.
  pose proof (acc_N _ _ _ _ _ Hacc) as HN.
  pose proof (acc_progress _ _ _ _ _ Hacc) as Hp.
  pose proof (acc_len _ _ _ _ _ Hacc) as Hlen.
  pose proof (zlen_nonneg A) as HA0.
  rewrite zlen_app, zlen_ztake in Hlen by lia.
  rewrite wrap_small in Hc by (unfold SPI_FLASH_SEC_SIZE, SIZE_MOD in *; lia).
  assert (Ht : wrap (SPI_FLASH_SEC_SIZE - _bufferLen s)
               = SPI_FLASH_SEC_SIZE - _bufferLen s)
    by (apply wrap_small; unfold SPI_FLASH_SEC_SIZE, SIZE_MOD in *; lia).
  assert (Hf : wrap (zlen data - left_) = zlen data - left_)
    by (apply wrap_small; unfold SIZE_MOD in *; lia).
  rewrite Ht, Hf.
  set (toBuff := SPI_FLASH_SEC_SIZE - _bufferLen s) in *.
  assert (Heq : A ++ ztake (zlen data - (left_ - toBuff)) data
                = (A ++ ztake (zlen data - left_) data)
                    ++ ztake toBuff (zdrop (zlen data - left_) data)).
  { replace (zlen data - (left_ - toBuff))
      with (zlen data - left_ + toBuff) by lia.
    rewrite ztake_add, app_assoc by lia. reflexivity. }
  assert (Hacc1 : accepted (A ++ ztake (zlen data - (left_ - toBuff)) data) N cmd
                    (buffer_append s data (zlen data - left_) toBuff) w).
  { rewrite Heq. apply accepted_append; try assumption; try lia.
    rewrite zlen_app, zlen_ztake by lia. lia. }
  assert (Hrec1 : recorded (A ++ ztake (zlen data - (left_ - toBuff)) data)
                    (buffer_append s data (zlen data - left_) toBuff)).
  { rewrite Heq. eapply recorded_append; eassumption. }
  destruct (_writeBuffer E _ w) as [[[|] s1] w1] eqn:Hwb.
  - pose proof (recorded_flush E _ _ _ _ _ _ _ Hacc1 Hrec1 Hwb) as Hrec2.
    eapply accepted_flush in Hwb; [|exact Hacc1].
    destruct Hwb as (Hacc2 & _ & _).
    assert (Hl' : wrap (left_ - toBuff) = left_ - toBuff)
      by (apply wrap_small; unfold SIZE_MOD in *; lia).
    rewrite Hl'. intros Hres.
    exact (IH (left_ - toBuff) s1 w1 Hacc2 Hrec2 ltac:(lia) HA Hres).
  - intros [= <-]. exact I.
Qed.

(** A [write] that accepts all of its bytes keeps the hash in step. *)
Lemma write_recorded (E : Env) A N cmd data s w s' w' :
  accepted A N cmd s w -> settled N s ->
  recorded A s ->
  zlen A + zlen data <= N ->
  write E data s w = Some (zlen data, s', w') ->
  hasError s' = true \/ recorded (A ++ data) s'.
Proof.
  intros Hacc Hset Hrec HA.
  pose proof (acc_N _ _ _ _ _ Hacc) as HN.
  pose proof (acc_progress _ _ _ _ _ Hacc) as Hp.
  pose proof (acc_bufferLen _ _ _ _ _ Hacc) as Hb.
  pose proof (acc_len _ _ _ _ _ Hacc) as Hlen.
  pose proof (zlen_nonneg A) as HA0.
  pose proof (zlen_nonneg data) as Hd0.
  unfold write.
  replace (hasError s) with false
    by (symmetry; apply hasError_false, (acc_error _ _ _ _ _ Hacc)).
  unfold isRunning. rewrite (acc_size _ _ _ _ _ Hacc).
  destruct (N >? 0) eqn:HN0; [|lia]. cbn [orb negb].
  rewrite (accepted_remaining _ _ _ _ _ Hacc).
  destruct (zlen data >? N - _progress s) eqn:Hgt; [lia|].
  assert (Hacc0 : accepted (A ++ ztake (zlen data - zlen data) data) N cmd s w).
  { rewrite Z.sub_diag. unfold ztake. cbn [Z.to_nat take].
    rewrite app_nil_r. exact Hacc. }
  assert (Hrec0 : recorded (A ++ ztake (zlen data - zlen data) data) s).
  { rewrite Z.sub_diag. unfold ztake. cbn [Z.to_nat take].
    rewrite app_nil_r. exact Hrec. }
  destruct (write_loop E _ data _ _ s w) as [res|] eqn:Hloop; [|discriminate].
  pose proof (write_loop_accepted E A N cmd data _ _ s w res Hacc0 ltac:(lia) HA
                Hloop) as Hla.
  pose proof (write_loop_recorded E A N cmd data _ _ s w res Hacc0 Hrec0
                ltac:(lia) HA Hloop) as Hlr.
  destruct res as [[[n s1] w1]|[[l s1] w1]].
  { intros [= Hn _ _]. lia. }
  destruct Hla as (Hl & Hl' & Hbl & Hacc1).
  assert (Hwl : wrap (zlen data - l) = zlen data - l)
    by (apply wrap_small; unfold SIZE_MOD in *; lia).
  rewrite Hwl.
  assert (Heq : A ++ data
                = (A ++ ztake (zlen data - l) data)
                    ++ ztake l (zdrop (zlen data - l) data)).
  { rewrite <- app_assoc, <- ztake_add by lia. f_equal.
    symmetry. apply ztake_all. lia. }
  assert (Hacc2 : accepted (A ++ data) N cmd
                    (buffer_append s1 data (zlen data - l) l) w1).
  { rewrite Heq. apply accepted_append; try assumption; try lia.
    rewrite zlen_app, zlen_ztake by lia. lia. }
  assert (Hrec2 : recorded (A ++ data) (buffer_append s1 data (zlen data - l) l)).
  { rewrite Heq. eapply recorded_append; eassumption. }
  rewrite (accepted_remaining _ _ _ _ _ Hacc2).
  destruct (_bufferLen _ =? _) eqn:Hq.
  - destruct (_writeBuffer E _ w1) as [[[|] s2] w2] eqn:Hwb.
    + intros [= <- <-]. right.
      exact (recorded_flush E _ _ _ _ _ _ _ Hacc2 Hrec2 Hwb).
    + intros [= Hn <- <-]. assert (l = 0) by lia. subst l.
      destruct Hl' as [(Hl0 & -> & ->)|Hl0]; [|lia].
      apply writeBuffer_failed in Hwb; [|apply (acc_error _ _ _ _ _ Hacc2)].
      destruct Hwb as [Herr|(_ & Hp0 & _)]; [left; exact Herr|].
      exfalso. apply Z.eqb_eq in Hq. unfold buffer_append in Hq, Hp0.
      st_simpl. rewrite Z.add_0_r in Hq.
      rewrite wrap_small in Hq by (unfold SPI_FLASH_SEC_SIZE, SIZE_MOD in *; lia).
      specialize (Hset Hq). lia.
  - intros [= <- <-]. right. exact Hrec2.
Qed.

(** [alive], with the hash in step. *)
Lemma write_chunks_recorded (E : Env) N cmd chunks A s w s' w' :
  alive A N cmd s w ->
  hasError s = true \/ recorded A s ->
  zlen A + zlen (concat chunks) <= N ->
  write_chunks E chunks s w = Some (s', w') ->
  hasError s' = true \/ recorded (A ++ concat chunks) s'.
Proof.
  revert A s w. induction chunks as [|c chunks IH]; intros A s w Hal Hrec HA;
    cbn [write_chunks concat].
  { intros [= <- <-]. rewrite app_nil_r. exact Hrec. }
  cbn [concat] in HA. rewrite zlen_app in HA.
  pose proof (zlen_nonneg (concat chunks)) as Hc0.
  destruct (write E c s w) as [[[n s1] w1]|] eqn:Hw; [|discriminate].
  destruct (n =? zlen c) eqn:Hn; [|discriminate].
  apply Z.eqb_eq in Hn. subst n.
  pose proof (write_accepted E A N cmd c s w s1 w1 Hal ltac:(lia) Hw) as Hal1.
  assert (Hrec1 : hasError s1 = true \/ recorded (A ++ c) s1).
  { destruct Hal as [Herr|[Hacc Hset]].
    - left. unfold write in Hw. rewrite Herr in Hw. cbn [orb] in Hw.
      injection Hw as _ <- _. exact Herr.
    - destruct Hrec as [Herr|Hrec].
      + pose proof (proj2 (hasError_false s) (acc_error _ _ _ _ _ Hacc)).
        congruence.
      + eapply write_recorded; try eassumption. lia. }
  intros Hrest. rewrite app_assoc. apply (IH _ _ _ Hal1 Hrec1); [|exact Hrest].
  rewrite zlen_app. lia.
Qed.

(** ** From the last write to the checks of end *)

Lemma accepted_verify_ready A N cmd t w :
  accepted A N cmd t w -> _bufferLen t = 0 -> recorded A t ->
  verify_ready A cmd t w.
Proof.
  intros [He Hs Hc HN Hp Hb Hl Hle Ht Hst] Hb0 [Hmd Hmg].
  assert (Hpa : _progress t = zlen A) by lia.
  split; [exact Hc|]. split.
  { rewrite Hmd, Hpa. apply ztake_all. lia. }
  split.
  { destruct Ht as (q & c & b & Hq & Hcq & Hzc & HNc & _ & _ & _ & Hci).
    exists q, c. split; [exact Hq|]. split; [exact Hcq|]. split; [lia|].
    intros i Hi. apply Hci. lia. }
  intros Hcf Hne. destruct (Hst Hcf ltac:(lia)) as (H16 & k & Hk & Hki).
  split; [lia|]. split; [apply Hmg; [congruence|lia]|].
  exists k. auto.
Qed.

Lemma verify_ready_ext A cmd t t' w w' :
  verify_ready A cmd t w ->
  _command t' = _command t -> _md5 t' = _md5 t ->
  _partition t' = _partition t -> _skipBuffer t' = _skipBuffer t ->
  (forall q, contents w' q = contents w q) ->
  verify_ready A cmd t' w'.
Proof.
  intros (Hc & Hmd & (q & c & Hq & Hcq & Hrest) & Hst) H1 H2 H3 H4 Hw.
  split; [congruence|]. split; [congruence|]. split.
  - exists q, c. rewrite H3, Hw. auto.
  - rewrite H4. exact Hst.
Qed.

(** A flush that fails without an error has given up on the allocation of
    the stash, on the first flush of a firmware image. *)
Lemma writeBuffer_gave_up (E : Env) s w s' w' :
  _error s = UPDATE_ERROR_OK ->
  _writeBuffer E s w = (false, s', w') ->
  hasError s' = true
  \/ (s' = set_skipBuffer s None /\ first_flush s = true).
Proof.
  intros He H.
  pose proof (writeBuffer_result E s w false s' w' H) as (_ & _ & Hres).
  destruct Hres as [(? & _)|[(_ & Hfe & _)|(_ & Hs')]]; [discriminate| |].
  { left. unfold hasError, flush_error in *.
    destruct Hfe as [->|[->| ->]]; reflexivity. }
  destruct (first_flush s) eqn:Hff; [right; auto|]. left.
  unfold _writeBuffer, stash_first_block in H. unfold first_flush in Hff.
  rewrite Hff in H.
  destruct (partitionEraseRange E _ _ _ _) as [[|] w2].
  - destruct (partitionWrite E _ _ _ _ _) as [[|] w3]; [discriminate|].
    rewrite (abort_eta s w3 UPDATE_ERROR_WRITE) in H.
    apply pair_equal_spec in H. destruct H as [H _].
    apply pair_equal_spec in H. destruct H as [_ <-]. reflexivity.
  - rewrite (abort_eta s w2 UPDATE_ERROR_ERASE) in H.
    apply pair_equal_spec in H. destruct H as [H _].
    apply pair_equal_spec in H. destruct H as [_ <-]. reflexivity.
Qed.

Lemma verifyEnd_true_error (E : Env) t w s3 w3 :
  _verifyEnd E t w = (true, s3, w3) -> _error s3 = _error t.
Proof.
  intros H. unfold _verifyEnd, _abort, _reset in H.
  split_branches; simplify_eq; reflexivity.
Qed.

(** A successful [end_verify] has kept the error it found, has found the
    expected hash empty or equal to the hash of the bytes fed, and has
    found a stash if the session is a firmware one. *)
Lemma end_verify_true (E : Env) t w s3 w3 :
  end_verify E t w = (true, s3, w3) ->
  _error s3 = _error t
  /\ (_target_md5 t = EmptyString \/ _target_md5 t = md5_hex E (_md5 t))
  /\ (_command t = U_FLASH -> exists k, _skipBuffer t = Some k).
Proof.
  assert (Hve : forall w1, _verifyEnd E t w1 = (true, s3, w3) ->
            _error s3 = _error t
            /\ (_command t = U_FLASH -> exists k, _skipBuffer t = Some k)).
  { intros w1 Hv. split; [exact (verifyEnd_true_error E t w1 s3 w3 Hv)|].
    intros Hcf. apply verifyEnd_ok in Hv.
    destruct Hv as (_ & [(_ & wa & Hen & _)|(Hn & _)]); [|contradiction].
    apply enablePartition_ok in Hen.
    destruct Hen as (q & k & c & _ & Hk & _). exists k. exact Hk. }
  unfold end_verify.
  destruct (negb (String.length (_target_md5 t) =? 0)%nat) eqn:Hlen;
    [destruct (negb (String.eqb (_target_md5 t) (md5_hex E (_md5 t)))) eqn:Hm|];
    cbn [andb].
  { rewrite (abort_eta t _ UPDATE_ERROR_MD5). discriminate. }
  all: assert (Hmd : _target_md5 t = EmptyString
                     \/ _target_md5 t = md5_hex E (_md5 t));
    [ first [ right; apply negb_false_iff, String.eqb_eq in Hm; exact Hm
            | left; apply negb_false_iff, Nat.eqb_eq in Hlen;
              destruct (_target_md5 t); [reflexivity|discriminate] ]
    | ].
  all: destruct (pubKey_toParse E);
    [ destruct (_signatureValid E t _) as [[[|] t1] wv] eqn:Hsv;
      [ apply signatureValid_ok in Hsv; destruct Hsv as (-> & _)
      | rewrite (abort_eta t1 wv UPDATE_ERROR_SIGNATURE_VERIFICATION);
        discriminate ]
    | ];
    intros Hv; destruct (Hve _ Hv) as [H1 H2];
    (split; [exact H1|]); (split; [exact Hmd|exact H2]).
Qed.

(** The checks of [end] complete the image on the partition. *)
Lemma end_verify_installs (E : Env) A cmd t w s3 w3 :
  verify_ready A cmd t w ->
  cmd = U_FLASH \/ (cmd = U_SPIFFS /\ pubKey_toParse E = None) ->
  end_verify E t w = (true, s3, w3) ->
  ztake (zlen A) (target_contents w3 (_partition s3)) = A.
Proof.
  intros (Hc & _ & (q & c & Hq & Hcq & Hle & Hci) & Hst) Hsup He.
  destruct (decide (zlen A = 0)) as [H0|H0].
  { rewrite H0. destruct A; [reflexivity|]. unfold zlen in H0. cbn in H0. lia. }
  pose proof (zlen_nonneg A) as HA0.
  set (n := zlen A) in *.
  assert (Hdone : forall w' wa,
            _enablePartition E t w' = (true, wa) ->
            cmd = U_FLASH ->
            (forall i, (Z.to_nat ENCRYPTED_BLOCK_SIZE <= i < Z.to_nat n)%nat ->
                       default [] (contents w' q) !! i = A !! i) ->
            zlen (default [] (contents w' q)) = zlen c ->
            (forall i, (i < Z.to_nat n)%nat ->
                       default [] (contents wa q) !! i = A !! i)
            /\ zlen (default [] (contents wa q)) = zlen c).
  { intros w' wa Hen Hcf Hi Hl. apply enablePartition_ok in Hen.
    destruct Hen as (q' & k & c' & Hq' & Hk & Hc' & H16 & Hc1).
    assert (q' = q) as -> by congruence.
    rewrite Hc' in Hi, Hl. rewrite Hc1. cbn [default] in *. unfold id in *.
    destruct (Hst Hcf H0) as (H16' & _ & k' & Hk' & Hki).
    assert (k' = k) as -> by congruence.
    split; [|rewrite zlen_splice; exact Hl].
    apply (stash_restored A k c' n); auto; lia. }
  assert (Hfinal : forall w1,
            (cmd = U_FLASH \/ forall i, (i < Z.to_nat n)%nat ->
                                default [] (contents w1 q) !! i = A !! i) ->
            (forall i, (Z.to_nat ENCRYPTED_BLOCK_SIZE <= i < Z.to_nat n)%nat ->
                       default [] (contents w1 q) !! i = A !! i) ->
            zlen (default [] (contents w1 q)) = zlen c ->
            _verifyEnd E t w1 = (true, s3, w3) ->
            ztake n (target_contents w3 (_partition s3)) = A).
  { intros w1 Hall Hi Hl Hv. apply verifyEnd_ok in Hv.
    destruct Hv as (Hp3 & [(Hcf & wa & Hen & Hw3)|(Hcn & Hw3)]).
    - rewrite Hp3, Hq. cbn [target_contents]. rewrite Hw3.
      destruct (Hdone w1 wa Hen ltac:(congruence) Hi Hl) as [Hd1 Hd2].
      apply ztake_eq_of_lookup; auto; lia.
    - rewrite Hp3, Hq. cbn [target_contents]. rewrite Hw3.
      destruct Hall as [Hcf|Hall]; [congruence|].
      apply ztake_eq_of_lookup; auto; lia. }
  assert (Hi0 : forall i, (Z.to_nat (stashed cmd) <= i < Z.to_nat n)%nat ->
                          default [] (contents w q) !! i = A !! i).
  { intros i Hi. rewrite Hcq. cbn [default]. apply Hci. exact Hi. }
  assert (Hst16 : (Z.to_nat (stashed cmd) <= Z.to_nat ENCRYPTED_BLOCK_SIZE)%nat).
  { unfold stashed. destruct (cmd =? U_FLASH); unfold ENCRYPTED_BLOCK_SIZE; lia. }
  unfold end_verify in He.
  destruct (_ && _) in He.
  { rewrite (abort_eta t _ UPDATE_ERROR_MD5) in He. discriminate. }
  destruct (pubKey_toParse E) as [key|] eqn:Hkey.
  - destruct Hsup as [Hcf|[_ ?]]; [|discriminate].
    destruct (_signatureValid E t _) as [[[|] t1] wv] eqn:Hsv.
    2:{ rewrite (abort_eta t1 wv UPDATE_ERROR_SIGNATURE_VERIFICATION) in He.
        discriminate. }
    apply signatureValid_ok in Hsv. destruct Hsv as (-> & wa & Hen & Hwv).
    destruct (Hdone (log EMd5Calculate w) wa Hen Hcf) as [Hd1 Hd2].
    { intros i Hi. rewrite contents_log. apply Hi0. lia. }
    { rewrite contents_log, Hcq. reflexivity. }
    refine (Hfinal wv _ _ _ He).
    + right. intros i Hi. rewrite Hwv. apply Hd1, Hi.
    + intros i Hi. rewrite Hwv. apply Hd1. lia.
    + rewrite Hwv. exact Hd2.
  - refine (Hfinal (log EMd5Calculate w) _ _ _ He).
    + destruct Hsup as [Hcf|[Hcs _]]; [left; exact Hcf|right].
      intros i Hi. rewrite contents_log. apply Hi0.
      unfold stashed. rewrite Hcs. cbn. lia.
    + intros i Hi. rewrite contents_log. apply Hi0. lia.
    + rewrite contents_log, Hcq. reflexivity.
Qed.

(** A successful [end] that reports no error has run its checks on a
    session that is ready for them. *)
Lemma end_reaches_verify (E : Env) A N cmd b s2 w2 s3 w3 :
  accepted A N cmd s2 w2 -> recorded A s2 ->
  end_ E b s2 w2 = (true, s3, w3) ->
  _bufferLen s2 = 0 \/ _error s3 = UPDATE_ERROR_OK ->
  exists t w,
    end_verify E t w = (true, s3, w3)
    /\ verify_ready A cmd t w
    /\ _target_md5 t = _target_md5 s2
    /\ (b = false -> zlen A = N).
Proof.
  intros Hacc Hrec He Herr3.
  pose proof (acc_error _ _ _ _ _ Hacc) as Her.
  pose proof (acc_size _ _ _ _ _ Hacc) as Hs.
  pose proof (acc_N _ _ _ _ _ Hacc) as HN.
  pose proof (acc_progress _ _ _ _ _ Hacc) as Hp.
  pose proof (acc_bufferLen _ _ _ _ _ Hacc) as Hbl.
  pose proof (acc_len _ _ _ _ _ Hacc) as Hlen.
  pose proof (acc_le _ _ _ _ _ Hacc) as Hle.
  unfold end_ in He.
  replace (hasError s2) with false in He by (symmetry; apply hasError_false, Her).
  destruct (_size s2 =? 0) eqn:Hs0; [lia|]. cbn [orb] in He.
  unfold isFinished in He. rewrite Hs in He.
  destruct b.
  - (* end(true) *)
    rewrite andb_false_r in He. unfold end_flush in He.
    destruct (_bufferLen s2 >? 0) eqn:Hgt.
    + destruct Herr3 as [Hz|Herr3]; [lia|].
      destruct (_writeBuffer E s2 w2) as [[[|] s'] w'] eqn:Hwb.
      * pose proof (recorded_flush E _ _ _ _ _ _ _ Hacc Hrec Hwb) as Hrec'.
        pose proof (writeBuffer_result E _ _ _ _ _ Hwb) as (Htm & _).
        apply (accepted_flush E A N cmd) in Hwb; [|exact Hacc].
        destruct Hwb as (Hacc' & Hbl' & _).
        exists (set_size s' (progress s')), w'.
        split; [exact He|]. split; [|split; [exact Htm|discriminate]].
        eapply verify_ready_ext;
          [exact (accepted_verify_ready _ _ _ _ _ Hacc' Hbl' Hrec')|..];
          reflexivity.
      * exfalso. apply end_verify_true in He. st_simpl.
        destruct He as (He3 & _ & Hstash).
        apply writeBuffer_gave_up in Hwb; [|exact Her].
        destruct Hwb as [Hbad|[-> Hff]].
        { apply hasError_false in Herr3.
          unfold hasError in *. rewrite He3 in Herr3. congruence. }
        unfold first_flush in Hff. apply andb_true_iff in Hff.
        destruct Hff as [_ Hcf]. apply Z.eqb_eq in Hcf.
        destruct (Hstash Hcf) as [k Hk]. discriminate.
    + exists (set_size s2 (progress s2)), w2.
      split; [exact He|]. split; [|split; [reflexivity|discriminate]].
      eapply verify_ready_ext;
        [exact (accepted_verify_ready _ _ _ _ _ Hacc ltac:(lia) Hrec)|..];
        reflexivity.
  - (* end(false) *)
    destruct (_progress s2 =? N) eqn:Hfin; cbn [negb andb] in He.
    2:{ rewrite (abort_eta s2 w2 UPDATE_ERROR_ABORT) in He. discriminate. }
    unfold end_flush in He. exists s2, w2.
    split; [exact He|].
    split; [exact (accepted_verify_ready _ _ _ _ _ Hacc ltac:(lia) Hrec)|].
    split; [reflexivity|]. intros _. lia.
Qed.

(** ** Sessions *)

Lemma begin_alive (E : Env) size cmd ledPin ledOn label s0 w0 s1 w1 :
  (forall q c, contents w0 q = Some c -> zlen c < SIZE_MOD) ->
  0 <= size ->
  begin E size cmd ledPin ledOn label s0 w0 = (true, s1, w1) ->
  _size s1 <> 0 ->
  (cmd = U_FLASH \/ cmd = U_SPIFFS)
  /\ alive [] (_size s1) cmd s1 w1
  /\ recorded [] s1.
Proof.
  intros Hsz H0 H Hne. apply begin_ok in H.
  destruct H as (Hcmd & Hc & He & Hp & Hbl & Hmd & Hs & Hne0 & Hle
                 & (q & b & Hq & Hb & Hzb & _) & Hw).
  split; [exact Hcmd|].
  assert (Hcq : exists c, contents w0 q = Some c /\ _size s1 <= zlen c).
  { unfold partition_size in Hle, Hs. rewrite Hq in Hle, Hs.
    cbn [target_contents] in Hle, Hs.
    destruct (contents w0 q) as [c|]; [exists c; auto|].
    exfalso. cbn [default] in *. unfold zlen in *. cbn [length] in *.
    destruct (size =? UPDATE_SIZE_UNKNOWN); lia. }
  destruct Hcq as (c & Hcq & Hcl). pose proof (Hsz q c Hcq) as Hzc.
  assert (Hpos : 0 < _size s1).
  { assert (0 <= _size s1); [|lia]. rewrite Hs.
    destruct (size =? UPDATE_SIZE_UNKNOWN); [apply zlen_nonneg|exact H0]. }
  split.
  - right. split; [|intros _; exact Hbl].
    constructor; rewrite ?Hp, ?Hbl; try assumption;
      try (unfold SPI_FLASH_SEC_SIZE; cbn; lia); try lia; try reflexivity;
      try (change (zlen []) with 0; lia).
    exists q, c, b. rewrite Hw. repeat split; auto; intros i Hi; simpl in Hi; lia.
  - split; [rewrite Hmd, Hp; reflexivity|]. intros _ Hx. congruence.
Qed.




Lemma chunks_written (E : Env) N cmd chunks s1 w1 s2 w2 :
  alive [] N cmd s1 w1 -> recorded [] s1 ->
  zlen (concat chunks) <= N ->
  write_chunks E chunks s1 w1 = Some (s2, w2) ->
  hasError s2 = true
  \/ (accepted (concat chunks) N cmd s2 w2 /\ settled N s2
      /\ recorded (concat chunks) s2).
Proof.
  intros Hal Hrec Hle Hw.
  pose proof (write_chunks_accepted E N cmd chunks [] s1 w1 s2 w2 Hal
                ltac:(change (zlen []) with 0; lia) Hw) as Hal2.
  pose proof (write_chunks_recorded E N cmd chunks [] s1 w1 s2 w2 Hal
                (or_intror Hrec) ltac:(change (zlen []) with 0; lia) Hw) as Hrec2.
  cbn [app] in *.
  destruct Hal2 as [Herr|[Hacc Hset]]; [left; exact Herr|].
  destruct Hrec2 as [Herr|Hrec2]; [left; exact Herr|]. right. auto.
Qed.


(** X10: [end(true)] installs the bytes written so far, also when they
    are fewer than the declared size or the size was left unknown: when it
    returns [true] without an error, the target partition starts with the
    bytes of the chunks (firmware target, or data target without a
    verification key). *)
Theorem end_true_installs_written (E : Env) (size cmd ledPin ledOn : Z)
    (label : option string) (chunks : list (list Z))
    (s0 : UpdateClass) (w0 : World) (s1 : UpdateClass) (w1 : World)
    (s2 : UpdateClass) (w2 : World) (s3 : UpdateClass) (w3 : World) :
  (forall q c, contents w0 q = Some c -> zlen c < SIZE_MOD) ->
  cmd = U_FLASH \/ pubKey_toParse E = None ->
  0 <= size ->
  begin E size cmd ledPin ledOn label s0 w0 = (true, s1, w1) ->
  zlen (concat chunks) <= _size s1 ->
  write_chunks E chunks s1 w1 = Some (s2, w2) ->
  end_ E true s2 w2 = (true, s3, w3) ->
  _error s3 = UPDATE_ERROR_OK ->
  ztake (zlen (concat chunks)) (target_contents w3 (_partition s3))
  = concat chunks.
Proof.
  intros Hsz Hsup H0 Hb Hle Hw He Herr.
  destruct (decide (zlen (concat chunks) = 0)) as [Hz|Hz].
  { rewrite Hz. destruct (concat chunks); [reflexivity|].
    unfold zlen in Hz. cbn in Hz. lia. }
  pose proof (zlen_nonneg (concat chunks)) as Hn.
  apply begin_alive in Hb; [|exact Hsz|exact H0|lia].
  destruct Hb as (Hcmd & Hal & Hrec).
  destruct (chunks_written E _ cmd chunks s1 w1 s2 w2 Hal Hrec Hle Hw)
    as [Hbad|(Hacc & _ & Hrec2)].
  { unfold end_ in He. rewrite Hbad in He. discriminate. }
  destruct (end_reaches_verify E _ _ _ _ _ _ _ _ Hacc Hrec2 He (or_intror Herr))
    as (t & w & Hv & Hready & _).
  apply (end_verify_installs E _ cmd t w s3 w3 Hready); [|exact Hv].
  destruct Hsup as [Hcf|Hk]; [left; exact Hcf|].
  destruct Hcmd as [Hcf|Hcs]; [left; exact Hcf|right; auto].
Qed.


(** ** The first flush of a firmware image *)

Lemma writeBuffer_wrong_magic (E : Env) s w :
  first_flush s = true ->
  byte_at (default [] (_buffer s)) 0 <> ESP_IMAGE_HEADER_MAGIC ->
  _writeBuffer E s w
  = (false, fst (_abort s w UPDATE_ERROR_MAGIC_BYTE),
     snd (_abort s w UPDATE_ERROR_MAGIC_BYTE)).
Proof.
  intros Hff Hm. unfold _writeBuffer, stash_first_block.
  unfold first_flush in Hff. rewrite Hff.
  destruct (byte_at _ 0 =? ESP_IMAGE_HEADER_MAGIC) eqn:Heq; [lia|].
  cbn [negb]. rewrite (abort_eta s w UPDATE_ERROR_MAGIC_BYTE). reflexivity.
Qed.

(** The first pending byte is the first byte accepted. *)
Lemma accepted_head A N cmd s w :
  accepted A N cmd s w -> _progress s = 0 -> 0 < _bufferLen s ->
  byte_at (default [] (_buffer s)) 0 = byte_at A 0.
Proof.
  intros [He Hs Hc HN Hp Hb Hl Hle Ht Hst] H0 Hpos.
  destruct Ht as (q & c & b & _ & _ & _ & _ & Hbuf & _ & Hbi & _).
  rewrite Hbuf. change (default [] (Some b)) with b. unfold byte_at.
  change (Z.to_nat 0) with 0%nat. rewrite (Hbi 0%nat) by lia.
  rewrite H0. reflexivity.
Qed.

Lemma byte_at_app_take (A data : list Z) n :
  0 < n -> data <> [] ->
  byte_at (A ++ ztake n (zdrop 0 data)) 0 = byte_at (A ++ data) 0.
Proof.
  intros Hn Hd. unfold byte_at, ztake, zdrop. change (Z.to_nat 0) with 0%nat.
  rewrite drop_0. destruct A as [|a A]; [|reflexivity]. cbn [app].
  destruct data as [|d data]; [congruence|].
  destruct (Z.to_nat n) eqn:Hk; [lia|]. reflexivity.
Qed.

Lemma byte_at_app_nonempty (A B : list Z) :
  0 < zlen A -> byte_at (A ++ B) 0 = byte_at A 0.
Proof.
  intros H. destruct A; [unfold zlen in H; cbn in H; lia|reflexivity].
Qed.

(** X14: a firmware image whose first byte is not the magic byte is
    rejected by the [write] that brings the first flush (the one that
    fills the buffer or completes the image), not before: that call
    returns 0 and aborts the session with WrongMagicByte, and no partition
    is changed by it. *)
Theorem write_rejects_wrong_magic (E : Env) (size ledPin ledOn : Z)
    (label : option string) (chunks : list (list Z)) (data : list Z)
    (s0 : UpdateClass) (w0 : World) (s1 : UpdateClass) (w1 : World)
    (s2 : UpdateClass) (w2 : World) :
  (forall q c, contents w0 q = Some c -> zlen c < SIZE_MOD) ->
  0 <= size ->
  begin E size U_FLASH ledPin ledOn label s0 w0 = (true, s1, w1) ->
  write_chunks E chunks s1 w1 = Some (s2, w2) ->
  hasError s2 = false ->
  data <> [] ->
  zlen (concat chunks) + zlen data <= _size s1 ->
  zlen (concat chunks) + zlen data = _size s1
  \/ zlen (concat chunks) + zlen data > SPI_FLASH_SEC_SIZE ->
  byte_at (concat chunks ++ data) 0 <> ESP_IMAGE_HEADER_MAGIC ->
  exists s3 w3,
    write E data s2 w2 = Some (0, s3, w3)
    /\ _error s3 = UPDATE_ERROR_MAGIC_BYTE
    /\ idle s3
    /\ forall q, contents w3 q = contents w2 q.
Proof.
  intros Hsz H0 Hb Hw Hok Hd Hle Htrig Hmagic.
  pose proof (zlen_nonneg (concat chunks)) as HA0.
  assert (Hlen : 0 < zlen data).
  { destruct data; [congruence|]. unfold zlen. cbn [length]. lia. }
  apply begin_alive in Hb; [|exact Hsz|exact H0|lia].
  destruct Hb as (_ & Hal & Hrec).
  destruct (chunks_written E _ U_FLASH chunks s1 w1 s2 w2 Hal Hrec
              ltac:(lia) Hw) as [Hbad|(Hacc & Hset & Hrec2)]; [congruence|].
  set (A := concat chunks) in *. set (N := _size s1) in *.
  pose proof (acc_N _ _ _ _ _ Hacc) as HN.
  pose proof (acc_progress _ _ _ _ _ Hacc) as Hp.
  pose proof (acc_bufferLen _ _ _ _ _ Hacc) as Hbl.
  pose proof (acc_len _ _ _ _ _ Hacc) as Hl.
  pose proof (acc_cmd _ _ _ _ _ Hacc) as Hcf.
  assert (Hp0 : _progress s2 = 0).
  { destruct (decide (_progress s2 = 0)) as [H|H]; [exact H|]. exfalso.
    destruct Hrec2 as [_ Hmg]. apply Hmagic.
    rewrite byte_at_app_nonempty by lia. exact (Hmg Hcf H). }
  assert (Hab : forall s w,
            exists s3 w3,
              Some (0, fst (_abort s w UPDATE_ERROR_MAGIC_BYTE),
                    snd (_abort s w UPDATE_ERROR_MAGIC_BYTE))
              = Some (0, s3, w3)
              /\ _error s3 = UPDATE_ERROR_MAGIC_BYTE /\ idle s3
              /\ forall q, contents w3 q = contents w q).
  { intros s w. eexists _, _. split; [reflexivity|].
    split; [apply abort_error|]. split; [apply abort_idle|].
    intros q. apply contents_abort. }
  assert (Hflush : forall n,
            0 < _bufferLen s2 + n -> 0 <= n <= zlen data ->
            _bufferLen s2 + n <= SPI_FLASH_SEC_SIZE ->
            _writeBuffer E (buffer_append s2 data 0 n) w2
            = (false,
               fst (_abort (buffer_append s2 data 0 n) w2 UPDATE_ERROR_MAGIC_BYTE),
               snd (_abort (buffer_append s2 data 0 n) w2 UPDATE_ERROR_MAGIC_BYTE))).
  { intros n Hpos Hn Hfit.
    assert (Hacc1 : accepted (A ++ ztake n (zdrop 0 data)) N U_FLASH
                      (buffer_append s2 data 0 n) w2).
    { apply accepted_append; try assumption; lia. }
    apply writeBuffer_wrong_magic.
    - unfold first_flush, buffer_append. st_simpl. rewrite Hp0, Hcf. reflexivity.
    - rewrite (accepted_head _ _ _ _ _ Hacc1).
      + destruct (decide (0 < zlen A)) as [HA|HA].
        * rewrite byte_at_app_nonempty by exact HA.
          rewrite byte_at_app_nonempty in Hmagic by exact HA. exact Hmagic.
        * rewrite byte_at_app_take; [exact Hmagic|lia|exact Hd].
      + unfold buffer_append. st_simpl. exact Hp0.
      + unfold buffer_append. st_simpl.
        rewrite wrap_small by (unfold SPI_FLASH_SEC_SIZE, SIZE_MOD in *; lia).
        lia. }
  unfold write. rewrite Hok. unfold isRunning.
  rewrite (acc_size _ _ _ _ _ Hacc).
  destruct (N >? 0) eqn:HN0; [|lia]. cbn [orb negb].
  rewrite (accepted_remaining _ _ _ _ _ Hacc), Hp0, Z.sub_0_r.
  destruct (zlen data >? N) eqn:Hgt; [lia|].
  unfold write_fuel. cbn [write_loop].
  rewrite (wrap_small (_bufferLen s2 + zlen data))
    by (unfold SPI_FLASH_SEC_SIZE, SIZE_MOD in *; lia).
  destruct (_bufferLen s2 + zlen data >? SPI_FLASH_SEC_SIZE) eqn:Hc;
    cbv beta iota zeta; rewrite !Z.sub_diag; change (wrap 0) with 0.
  - 
    rewrite (wrap_small (SPI_FLASH_SEC_SIZE - _bufferLen s2))
      by (unfold SPI_FLASH_SEC_SIZE, SIZE_MOD in *; lia).
    rewrite Hflush by (unfold SPI_FLASH_SEC_SIZE in *; lia).
    apply Hab.
  - assert (Hacc1 : accepted (A ++ ztake (zlen data) (zdrop 0 data)) N U_FLASH
                      (buffer_append s2 data 0 (zlen data)) w2).
    { apply accepted_append; try assumption; lia. }
    rewrite (accepted_remaining _ _ _ _ _ Hacc1).
    unfold buffer_append at 1 2. st_simpl.
    rewrite wrap_small by (unfold SPI_FLASH_SEC_SIZE, SIZE_MOD in *; lia).
    rewrite Hp0, Z.sub_0_r.
    destruct (_bufferLen s2 + zlen data =? N) eqn:Hq; [|lia].
    rewrite Hflush by lia. apply Hab.
Qed.

(** On the first flush of a firmware image the first block is held back;
    with fewer bytes than a block pending, the length of the rest wraps
    around and the write is refused. *)
Lemma writeBuffer_short_first_block (E : Env) s w r s' w' :
  first_flush s = true ->
  0 <= _bufferLen s < ENCRYPTED_BLOCK_SIZE ->
  partition_size w (_partition s) < SIZE_MOD ->
  _writeBuffer E s w = (r, s', w') ->
  r = false
  /\ ((flush_error (_error s') /\ idle s') \/ s' = set_skipBuffer s None).
Proof.
  intros Hff Hbl Hps H. destruct r.
  - exfalso. apply writeBuffer_ok in H. cbv zeta in H. rewrite Hff in H.
    destruct H as (q & c & b & Hq & Hcq & _ & _ & Hwr & _).
    unfold partition_size in Hps. rewrite Hq in Hps.
    cbn [target_contents] in Hps. rewrite Hcq in Hps.
    change (default [] (Some c)) with c in Hps.
    unfold first_flush in Hff. apply andb_true_iff in Hff.
    destruct Hff as [Hp0 _]. apply Z.eqb_eq in Hp0. rewrite Hp0 in Hwr.
    rewrite (wrap_small (0 + ENCRYPTED_BLOCK_SIZE)) in Hwr
      by (unfold ENCRYPTED_BLOCK_SIZE, SIZE_MOD; lia).
    rewrite wrap_neg in Hwr by (unfold ENCRYPTED_BLOCK_SIZE, SIZE_MOD in *; lia).
    unfold ENCRYPTED_BLOCK_SIZE in *. lia.
  - split; [reflexivity|]. apply writeBuffer_result in H.
    destruct H as (_ & _ & [(? & _)|[(_ & Hf & Hi & _)|(_ & Hs)]]);
      [discriminate|left; auto|right; exact Hs].
Qed.

(** X15: a firmware image shorter than the first block (16 bytes) cannot
    be flushed: the [write] that completes it returns 0 with nothing
    flushed, the session being aborted by the flush or left without a
    stash. *)
Theorem write_rejects_short_firmware (E : Env) (size ledPin ledOn : Z)
    (label : option string) (chunks : list (list Z)) (data : list Z)
    (s0 : UpdateClass) (w0 : World) (s1 : UpdateClass) (w1 : World)
    (s2 : UpdateClass) (w2 : World) :
  (forall q c, contents w0 q = Some c -> zlen c < SIZE_MOD) ->
  0 <= size < ENCRYPTED_BLOCK_SIZE ->
  begin E size U_FLASH ledPin ledOn label s0 w0 = (true, s1, w1) ->
  write_chunks E chunks s1 w1 = Some (s2, w2) ->
  hasError s2 = false ->
  data <> [] ->
  zlen (concat chunks) + zlen data = size ->
  exists s3 w3,
    write E data s2 w2 = Some (0, s3, w3)
    /\ _progress s3 = 0
    /\ ((flush_error (_error s3) /\ idle s3)
        \/ (_error s3 = UPDATE_ERROR_OK /\ _skipBuffer s3 = None)).
Proof.
  intros Hsz H0 Hb Hw Hok Hd Hsum.
  pose proof (zlen_nonneg (concat chunks)) as HA0.
  assert (Hlen : 0 < zlen data).
  { destruct data; [congruence|]. unfold zlen. cbn [length]. lia. }
  pose proof (begin_ok E _ _ _ _ _ _ _ _ _ Hb) as (_ & _ & _ & _ & _ & _ & Hs1 & _).
  assert (Hu : (size =? UPDATE_SIZE_UNKNOWN) = false)
    by (unfold ENCRYPTED_BLOCK_SIZE, UPDATE_SIZE_UNKNOWN in *; lia).
  rewrite Hu in Hs1.
  apply begin_alive in Hb; [|exact Hsz|lia|lia].
  destruct Hb as (_ & Hal & Hrec). rewrite Hs1 in Hal.
  destruct (chunks_written E _ U_FLASH chunks s1 w1 s2 w2 Hal Hrec
              ltac:(lia) Hw) as [Hbad|(Hacc & Hset & Hrec2)]; [congruence|].
  set (A := concat chunks) in *.
  pose proof (acc_progress _ _ _ _ _ Hacc) as Hp.
  pose proof (acc_bufferLen _ _ _ _ _ Hacc) as Hbl.
  pose proof (acc_len _ _ _ _ _ Hacc) as Hl.
  pose proof (acc_cmd _ _ _ _ _ Hacc) as Hcf.
  assert (Hp0 : _progress s2 = 0).
  { destruct (decide (_progress s2 = 0)) as [H|H]; [exact H|]. exfalso.
    destruct (acc_stash _ _ _ _ _ Hacc eq_refl H) as [H16 _]. lia. }
  assert (Hacc1 : accepted (A ++ ztake (zlen data) (zdrop 0 data)) size U_FLASH
                    (buffer_append s2 data 0 (zlen data)) w2).
  { apply accepted_append; try assumption;
      unfold ENCRYPTED_BLOCK_SIZE, SPI_FLASH_SEC_SIZE in *; lia. }
  unfold write. rewrite Hok. unfold isRunning.
  rewrite (acc_size _ _ _ _ _ Hacc).
  destruct (size >? 0) eqn:HN0; [|lia]. cbn [orb negb].
  rewrite (accepted_remaining _ _ _ _ _ Hacc), Hp0, Z.sub_0_r.
  destruct (zlen data >? size) eqn:Hgt; [lia|].
  unfold write_fuel. cbn [write_loop].
  rewrite (wrap_small (_bufferLen s2 + zlen data))
    by (unfold ENCRYPTED_BLOCK_SIZE, SIZE_MOD in *; lia).
  destruct (_bufferLen s2 + zlen data >? SPI_FLASH_SEC_SIZE) eqn:Hc;
    [unfold ENCRYPTED_BLOCK_SIZE, SPI_FLASH_SEC_SIZE in *; lia|].
  cbv beta iota zeta. rewrite !Z.sub_diag. change (wrap 0) with 0.
  rewrite (accepted_remaining _ _ _ _ _ Hacc1).
  unfold buffer_append at 1 2. st_simpl.
  rewrite wrap_small by (unfold ENCRYPTED_BLOCK_SIZE, SIZE_MOD in *; lia).
  rewrite Hp0, Z.sub_0_r.
  destruct (_bufferLen s2 + zlen data =? size) eqn:Hq; [|lia].
  destruct (_writeBuffer E _ w2) as [[r s3] w3] eqn:Hwb.
  pose proof (acc_error _ _ _ _ _ Hacc1) as He1.
  apply writeBuffer_short_first_block in Hwb.
  - destruct Hwb as [-> Hres]. exists s3, w3. split; [reflexivity|].
    destruct Hres as [[Hf Hi]|Hs3].
    + split; [apply Hi|left; auto].
    + subst s3. st_simpl. split; [unfold buffer_append; st_simpl; exact Hp0|].
      right. split; [exact He1|reflexivity].
  - unfold first_flush, buffer_append. st_simpl. rewrite Hp0, Hcf. reflexivity.
  - unfold buffer_append. st_simpl.
    rewrite wrap_small by (unfold ENCRYPTED_BLOCK_SIZE, SIZE_MOD in *; lia). lia.
  - destruct (acc_target _ _ _ _ _ Hacc1) as (q & c & b & Hq' & Hcq & Hzc & _).
    unfold partition_size. rewrite Hq'. cbn [target_contents]. rewrite Hcq.
    exact Hzc.
Qed.

(** ** An empty write to a complete session *)

(** A flush other than the first one of a firmware image erases the block
    at the progress, and aborts the session when that block does not lie
    inside the partition. *)
Lemma writeBuffer_erases (E : Env) s w q c :
  first_flush s = false ->
  _partition s = Some q -> contents w q = Some c ->
  In (EErase (_progress s) SPI_FLASH_SEC_SIZE)
     (trace (snd (_writeBuffer E s w)))
  /\ (zlen c < _progress s + SPI_FLASH_SEC_SIZE ->
      fst (fst (_writeBuffer E s w)) = false
      /\ _error (snd (fst (_writeBuffer E s w))) = UPDATE_ERROR_ERASE
      /\ idle (snd (fst (_writeBuffer E s w)))).
Proof.
  intros Hff Hq Hc. unfold _writeBuffer, stash_first_block.
  unfold first_flush in Hff. rewrite Hff.
  set (w1 := if (_progress s =? 0) && _progress_callback s
             then log (EProgress 0 (_size s)) w else w).
  assert (Hc1 : contents w1 q = Some c).
  { subst w1. destruct ((_progress s =? 0) && _progress_callback s);
      rewrite ?contents_log; exact Hc. }
  clearbody w1. unfold partitionEraseRange. rewrite Hq, Hc1.
  destruct (erase_ok E (now w1) && (_progress s + SPI_FLASH_SEC_SIZE <=? zlen c))
    eqn:Hok.
  - set (w2 := store _ q _).
    assert (Hin : In (EErase (_progress s) SPI_FLASH_SEC_SIZE) (trace w2)).
    { subst w2. rewrite trace_store, trace_log. left. reflexivity. }
    clearbody w2. split.
    + match goal with
      | |- context [partitionWrite E w2 ?p ?o ?m ?l] =>
          pose proof (grows_partitionWrite E w2 p o m l) as Hg;
          destruct (partitionWrite E w2 p o m l) as [[|] w3]
      end; st_simpl.
      * destruct (_progress_callback _); st_simpl; rewrite ?trace_log;
          [right|]; apply (grows_In _ w2 w3 Hg Hin).
      * pose proof (grows_abort s w3 UPDATE_ERROR_WRITE) as Ha.
        destruct (_abort s w3 UPDATE_ERROR_WRITE). st_simpl.
        apply (grows_In _ w3 _ Ha), (grows_In _ w2 w3 Hg Hin).
    + intros Hlt. apply andb_true_iff in Hok. lia.
  - pose proof (grows_abort s (log (EErase (_progress s) SPI_FLASH_SEC_SIZE) w1)
                  UPDATE_ERROR_ERASE) as Ha.
    pose proof (abort_error s (log (EErase (_progress s) SPI_FLASH_SEC_SIZE) w1)
                  UPDATE_ERROR_ERASE) as He.
    pose proof (abort_idle s (log (EErase (_progress s) SPI_FLASH_SEC_SIZE) w1)
                  UPDATE_ERROR_ERASE) as Hi.
    destruct (_abort s _ UPDATE_ERROR_ERASE). st_simpl. split.
    + apply (grows_In _ _ _ Ha). rewrite trace_log. left. reflexivity.
    + intros _. auto.
Qed.

(** X16: an empty [write] to a session that has taken all of its bytes
    flushes once more: it returns 0 after an erase of the block that
    follows the image, and aborts the session with EraseFailed when that
    block does not lie inside the partition. *)
Theorem empty_write_after_completion (E : Env) (size cmd ledPin ledOn : Z)
    (label : option string) (chunks : list (list Z))
    (s0 : UpdateClass) (w0 : World) (s1 : UpdateClass) (w1 : World)
    (s2 : UpdateClass) (w2 : World) :
  (forall q c, contents w0 q = Some c -> zlen c < SIZE_MOD) ->
  0 <= size ->
  begin E size cmd ledPin ledOn label s0 w0 = (true, s1, w1) ->
  write_chunks E chunks s1 w1 = Some (s2, w2) ->
  hasError s2 = false ->
  _size s1 <> 0 ->
  zlen (concat chunks) = _size s1 ->
  exists s3 w3,
    write E [] s2 w2 = Some (0, s3, w3)
    /\ In (EErase (_size s1) SPI_FLASH_SEC_SIZE) (trace w3)
    /\ (partition_size w2 (_partition s2) < _size s1 + SPI_FLASH_SEC_SIZE ->
        _error s3 = UPDATE_ERROR_ERASE /\ idle s3).
Proof.
  intros Hsz H0 Hb Hw Hok Hne Hsum.
  apply begin_alive in Hb; [|exact Hsz|exact H0|exact Hne].
  destruct Hb as (_ & Hal & Hrec).
  destruct (chunks_written E _ cmd chunks s1 w1 s2 w2 Hal Hrec
              ltac:(lia) Hw) as [Hbad|(Hacc & Hset & _)]; [congruence|].
  set (N := _size s1) in *.
  pose proof (acc_N _ _ _ _ _ Hacc) as HN.
  pose proof (acc_progress _ _ _ _ _ Hacc) as Hp.
  pose proof (acc_bufferLen _ _ _ _ _ Hacc) as Hbl.
  pose proof (acc_len _ _ _ _ _ Hacc) as Hl.
  assert (Hbl0 : _bufferLen s2 = 0) by (apply Hset; lia).
  assert (HpN : _progress s2 = N) by lia.
  destruct (acc_target _ _ _ _ _ Hacc) as (q & c & b & Hq & Hcq & _).
  unfold write. rewrite Hok. unfold isRunning.
  rewrite (acc_size _ _ _ _ _ Hacc).
  destruct (N >? 0) eqn:HN0; [|lia]. cbn [orb negb].
  change (zlen []) with 0.
  rewrite (accepted_remaining _ _ _ _ _ Hacc), HpN, Z.sub_diag.
  change (0 >? 0) with false. cbv beta iota.
  unfold write_fuel. cbn [write_loop]. rewrite Hbl0.
  change (wrap (0 + 0) >? SPI_FLASH_SEC_SIZE) with false.
  cbv beta iota zeta. change (wrap (0 - 0)) with 0.
  set (s' := buffer_append s2 [] 0 0).
  assert (Hs' : _bufferLen s' = 0 /\ _progress s' = N /\ _size s' = N
                /\ _partition s' = Some q /\ first_flush s' = false).
  { subst s'. unfold buffer_append, first_flush. st_simpl.
    rewrite Hbl0, HpN. repeat split; auto;
      [apply (acc_size _ _ _ _ _ Hacc)|].
    destruct (N =? 0) eqn:HN'; [lia|reflexivity]. }
  destruct Hs' as (Hb' & Hp' & Hsz' & Hq' & Hff).
  unfold remaining. rewrite Hb', Hp', Hsz', Z.sub_diag.
  change (0 =? wrap 0) with true. cbv beta iota.
  destruct (writeBuffer_erases E s' w2 q c Hff Hq' Hcq) as [Hin Hfail].
  rewrite Hp' in Hin, Hfail.
  assert (Hps : partition_size w2 (_partition s2) = zlen c).
  { unfold partition_size. rewrite Hq. cbn [target_contents]. rewrite Hcq.
    reflexivity. }
  rewrite Hps.
  destruct (_writeBuffer E s' w2) as [[[|] s3] w3]; st_simpl;
    exists s3, w3; (split; [reflexivity|]); (split; [exact Hin|]);
    intros Hlt; destruct (Hfail Hlt) as (Hr & He & Hi); [discriminate|auto].
Qed.

(** ** What the operations touch *)

(** X4: [write], [writeStream] and [end] change no partition other than
    the target of the session, report progress only to a callback that is
    installed, and keep the target, the callback, the expected hash and
    the signature; [write] and [writeStream] leave the boot selection as
    it is. *)
Theorem operations_confined_to_target (E : Env) (s : UpdateClass) (w : World) :
  (forall data, exists n s' w',
      write E data s w = Some (n, s', w')
      /\ same_settings s s'
      /\ confined (_partition s) (_progress_callback s) w w')
  /\ (forall data, exists n s' w' st',
        writeStream E data s w = Some (n, s', w', st')
        /\ same_settings s s'
        /\ confined (_partition s) (_progress_callback s) w w')
  /\ (forall evenIfRemaining,
        same_settings s (snd (fst (end_ E evenIfRemaining s w)))
        /\ touched (_partition s) (_progress_callback s) w
                   (snd (end_ E evenIfRemaining s w))).
Proof.
  split; [|split].
  - intros data. destruct (write_total E data s w) as [[[n s'] w'] H].
    exists n, s', w'. split; [exact H|]. exact (write_frame E _ _ _ _ _ _ H).
  - intros data.
    destruct (writeStream_total E data s w) as [[[[n s'] w'] st'] H].
    exists n, s', w', st'. split; [exact H|].
    exact (writeStream_frame E _ _ _ _ _ _ _ H).
  - intros b. destruct (end_ E b s w) as [[r s'] w'] eqn:H.
    apply end_frame in H. destruct H as (Hs & Ht & _). auto.
Qed.

(** X3: [begin], [abort] and [canRollBack] change no partition, leave the
    boot selection as it is and report no progress. *)
Theorem begin_abort_leave_flash (E : Env) (s : UpdateClass) (w : World) :
  (forall size command ledPin ledOn label,
      confined None false w (snd (begin E size command ledPin ledOn label s w)))
  /\ confined None false w (snd (abort s w))
  /\ confined None false w (snd (canRollBack E s w)).
Proof.
  split; [|split].
  - intros. apply begin_confined.
  - apply confined_abort.
  - apply canRollBack_confined.
Qed.

(** X5: only an [end] that returns [true] changes the boot selection, and
    only to the partition of the session; it leaves the engine idle.  For
    a firmware session that partition then is the boot selection and
    starts with the magic byte; an [end(false)] of a data session leaves
    the boot selection as it is. *)
Theorem end_boot_selection (E : Env) (evenIfRemaining : bool)
    (s : UpdateClass) (w : World) (r : bool) (s' : UpdateClass) (w' : World) :
  end_ E evenIfRemaining s w = (r, s', w') ->
  (r = false -> boot_target w' = boot_target w)
  /\ (r = true ->
      idle s'
      /\ (boot_target w' = boot_target w \/ boot_target w' = _partition s))
  /\ (r = true -> _command s = U_FLASH ->
      boot_target w' = _partition s
      /\ first_byte s' w' = ESP_IMAGE_HEADER_MAGIC)
  /\ (r = true -> evenIfRemaining = false -> _command s = U_SPIFFS ->
      boot_target w' = boot_target w).
Proof.
  intros H. apply end_frame in H. destruct H as (_ & _ & Hf & Ht).
  split; [exact Hf|]. split; [|split].
  - intros Hr. destruct (Ht Hr) as (Hi & [(H1 & _)|(_ & H2)]); auto.
  - intros Hr Hcf. destruct (Ht Hr) as (_ & [(H1 & H2 & _)|(Hcs & _)]); [auto|].
    rewrite Hcf in Hcs. discriminate.
  - intros Hr Hb Hcs.
    destruct (Ht Hr) as (_ & [(_ & _ & [Hcf|Hbt])|(_ & H2)]); [| |exact H2].
    + rewrite Hcs in Hcf. discriminate.
    + congruence.
Qed.

(** ** Progress reports *)

(** X17: with a callback installed by [onProgress] a successful flush
    reports last the progress it has reached, after a report of 0 on the
    first flush; with the callback removed no flush reports anything. *)
Theorem flush_reports_progress (E : Env) (s : UpdateClass) (w : World) :
  (forall s' w',
      _writeBuffer E (onProgress true s) w = (true, s', w') ->
      _progress s' = wrap (_progress s + _bufferLen s)
      /\ exists rest,
           trace w' = EProgress (_progress s') (_size s) :: rest
           /\ (_progress s = 0 -> In (EProgress 0 (_size s)) rest))
  /\ (forall r s' w' d t,
        _writeBuffer E (onProgress false s) w = (r, s', w') ->
        In (EProgress d t) (trace w') -> In (EProgress d t) (trace w)).
Proof.
  split.
  - intros s' w' H.
    pose proof (writeBuffer_result E _ _ _ _ _ H)
      as (_ & _ & [(_ & _ & Hsz & _ & Hp & _)|[(? & _)|(? & _)]]);
      try discriminate.
    unfold onProgress in Hp, Hsz. st_simpl. split; [exact Hp|].
    unfold _writeBuffer in H.
    destruct (stash_first_block E (onProgress true s) w)
      as [[s0 w0]|[[skip s0] w0]] eqn:Hst; [discriminate|].
    assert (Hs0 : _progress s0 = _progress s /\ _size s0 = _size s
                  /\ _progress_callback s0 = true).
    { unfold stash_first_block, onProgress in Hst.
      destruct (_ && _) in Hst.
      - destruct (negb _) in Hst; [discriminate|].
        destruct (malloc E w ENCRYPTED_BLOCK_SIZE) as [[m|] wm]; [|discriminate].
        injection Hst as _ <- _. st_simpl. auto.
      - injection Hst as _ <- _. st_simpl. auto. }
    destruct Hs0 as (Hp0 & Hsz0 & Hcb0).
    rewrite Hcb0, andb_true_r in H.
    set (w1 := if _progress s0 =? 0 then log (EProgress 0 (_size s0)) w0 else w0)
      in H.
    assert (H1 : _progress s = 0 -> In (EProgress 0 (_size s)) (trace w1)).
    { intros Hz. subst w1. rewrite Hp0, Hz, Hsz0. left. reflexivity. }
    clearbody w1.
    pose proof (grows_partitionEraseRange E w1 (_partition s0) (_progress s0)
                  SPI_FLASH_SEC_SIZE) as Hg1.
    destruct (partitionEraseRange E w1 _ _ _) as [[|] w2].
    2:{ rewrite (abort_eta s0 w2 UPDATE_ERROR_ERASE) in H. discriminate. }
    match type of H with
    | context [partitionWrite E w2 ?p ?o ?m ?l] =>
        pose proof (grows_partitionWrite E w2 p o m l) as Hg2;
        destruct (partitionWrite E w2 p o m l) as [[|] w3]
    end.
    2:{ rewrite (abort_eta s0 w3 UPDATE_ERROR_WRITE) in H. discriminate. }
    st_simpl.
    match type of H with
    | context [if _progress_callback ?t then _ else _] =>
        replace (_progress_callback t) with true in H
          by (destruct (_ && _); st_simpl; symmetry; exact Hcb0)
    end.
    apply pair_equal_spec in H. destruct H as [H Hw'].
    apply pair_equal_spec in H. destruct H as [_ Hs'].
    exists (trace w3). split.
    + rewrite <- Hw', <- Hs'. rewrite trace_log.
      destruct (_ && _); st_simpl; rewrite Hsz0; reflexivity.
    + intros Hz. apply (grows_In _ w2 w3 Hg2), (grows_In _ w1 w2 Hg1), H1, Hz.
  - intros r s' w' d t H.
    pose proof (writeBuffer_confined E (onProgress false s) w) as (_ & _ & Hq).
    rewrite H in Hq. apply Hq. reflexivity.
Qed.

(** ** A premature end *)

(** X13: [end(false)] before all the declared bytes have been written
    aborts the session with Aborted and changes neither a partition nor
    the boot selection. *)
Theorem end_before_completion_aborts (E : Env) (size cmd ledPin ledOn : Z)
    (label : option string) (chunks : list (list Z))
    (s0 : UpdateClass) (w0 : World) (s1 : UpdateClass) (w1 : World)
    (s2 : UpdateClass) (w2 : World) :
  (forall q c, contents w0 q = Some c -> zlen c < SIZE_MOD) ->
  0 <= size ->
  begin E size cmd ledPin ledOn label s0 w0 = (true, s1, w1) ->
  write_chunks E chunks s1 w1 = Some (s2, w2) ->
  hasError s2 = false ->
  zlen (concat chunks) < _size s1 ->
  exists s3 w3,
    end_ E false s2 w2 = (false, s3, w3)
    /\ _error s3 = UPDATE_ERROR_ABORT
    /\ idle s3
    /\ boot_target w3 = boot_target w2
    /\ forall q, contents w3 q = contents w2 q.
Proof.
  intros Hsz H0 Hb Hw Hok Hlt.
  pose proof (zlen_nonneg (concat chunks)) as HA0.
  apply begin_alive in Hb; [|exact Hsz|exact H0|lia].
  destruct Hb as (_ & Hal & Hrec).
  destruct (chunks_written E _ cmd chunks s1 w1 s2 w2 Hal Hrec
              ltac:(lia) Hw) as [Hbad|(Hacc & _ & _)]; [congruence|].
  pose proof (acc_bufferLen _ _ _ _ _ Hacc) as Hbl.
  pose proof (acc_len _ _ _ _ _ Hacc) as Hl.
  unfold end_. rewrite Hok. rewrite (acc_size _ _ _ _ _ Hacc).
  destruct (_size s1 =? 0) eqn:Hs0; [lia|]. cbn [orb].
  unfold isFinished. rewrite (acc_size _ _ _ _ _ Hacc).
  destruct (_progress s2 =? _size s1) eqn:Hfin; [lia|]. cbn [negb andb].
  pose proof (abort_error s2 w2 UPDATE_ERROR_ABORT) as Her.
  pose proof (abort_idle s2 w2 UPDATE_ERROR_ABORT) as Hi.
  pose proof (confined_abort None false s2 w2 UPDATE_ERROR_ABORT) as Hc.
  destruct (_abort s2 w2 UPDATE_ERROR_ABORT) as [s3 w3]. st_simpl.
  exists s3, w3. split; [reflexivity|]. split; [exact Her|].
  split; [exact Hi|]. split; [apply (confined_boot _ _ _ _ Hc)|].
  intros q. apply (confined_none_contents _ _ _ _ Hc).
Qed.

(** ** Stream ingestion: the round trip *)

(** With a stream that delivers at most one byte per read, a read that
    delivers gives the answers consumed, the stalls before it being
    empty. *)
Lemma read_retry_bytes fuel tf st n r st1 :
  0 < n ->
  Forall (fun c => zlen c <= 1) (reads st) ->
  read_retry fuel tf st n = Some (r, st1) ->
  exists pre,
    reads st = pre ++ reads st1
    /\ concat pre = default [] r
    /\ match r with Some got => zlen got = 1 | None => True end.
Proof.
  intros Hn. revert tf st.
  induction fuel as [|fuel IH]; intros tf st Hall; cbn [read_retry];
    [discriminate|].
  unfold readBytes. destruct (reads st) as [|c rest] eqn:Hr.
  - change (zlen [] =? 0) with true. cbv beta iota.
    destruct (tf + 1 >=? 300).
    + intros [= <- <-]. exists []. rewrite Hr. auto.
    + intros H. apply IH in H; [|rewrite Hr; exact Hall].
      rewrite Hr in H. exact H.
  - apply Forall_cons in Hall. destruct Hall as [Hc Hrest].
    assert (Hcn : ztake n c = c) by (apply ztake_all; lia).
    rewrite Hcn. destruct (zlen c =? 0) eqn:Hz.
    + assert (c = []) as ->.
      { destruct c; [reflexivity|]. apply Z.eqb_eq in Hz.
        unfold zlen in Hz. cbn [length] in Hz. lia. }
      destruct (tf + 1 >=? 300).
      * intros [= <- <-]. exists [[]]. auto.
      * intros H. apply IH in H; [|exact Hrest].
        destruct H as (pre & Hp & Hcat & Hm). cbn [reads] in Hp.
        exists ([] :: pre). rewrite Hp. auto.
    + intros [= <- <-]. exists [c]. cbn [reads concat app default].
      rewrite app_nil_r. split; [reflexivity|]. split; [reflexivity|].
      pose proof (zlen_nonneg c). apply Z.eqb_neq in Hz. lia.
Qed.

Lemma stream_loop_bytes (E : Env) N cmd fuel :
  forall written st s w B n s' w' st',
    accepted B N cmd s w -> recorded B s ->
    written = zlen B ->
    _bufferLen s < SPI_FLASH_SEC_SIZE ->
    _progress s + _bufferLen s < N \/ (_bufferLen s = 0 /\ _progress s = N) ->
    Forall (fun c => zlen c <= 1) (reads st) ->
    stream_loop E fuel written st s w = Some (n, s', w', st') ->
    n < N
    \/ (n = N
        /\ exists pre,
             reads st = pre ++ reads st'
             /\ accepted (B ++ concat pre) N cmd s' w'
             /\ recorded (B ++ concat pre) s'
             /\ _bufferLen s' = 0 /\ _progress s' = N).
Proof.
  induction fuel as [|fuel IH];
    intros written st s w B n s' w' st' Hacc Hrec Hwr Hbl Hinv Hall;
    pose proof (acc_N _ _ _ _ _ Hacc) as HN;
    pose proof (acc_progress _ _ _ _ _ Hacc) as Hp;
    pose proof (acc_bufferLen _ _ _ _ _ Hacc) as Hb;
    pose proof (acc_len _ _ _ _ _ Hacc) as Hl;
    pose proof (acc_le _ _ _ _ _ Hacc) as Hle;
    cbn [stream_loop]; rewrite (accepted_remaining _ _ _ _ _ Hacc);
    (destruct (N - _progress s =? 0) eqn:Hrem;
     [apply Z.eqb_eq in Hrem|apply Z.eqb_neq in Hrem]); try discriminate;
    try (intros [= <- <- <- <-]; right; split; [lia|]; exists [];
         cbn [concat app]; rewrite app_nil_r;
         split; [reflexivity|]; split; [exact Hacc|]; split; [exact Hrec|lia]).
  assert (Hlt : _progress s + _bufferLen s < N) by lia.
  rewrite (wrap_small (SPI_FLASH_SEC_SIZE - _bufferLen s))
    by (unfold SPI_FLASH_SEC_SIZE, SIZE_MOD in *; lia).
  set (req := if SPI_FLASH_SEC_SIZE - _bufferLen s >? N - _progress s
              then N - _progress s else SPI_FLASH_SEC_SIZE - _bufferLen s).
  assert (Hreq : 0 < req) by (subst req; destruct (_ >? _); lia).
  destruct (read_retry 300 0 st req) as [[r st1]|] eqn:Hrr; [|discriminate].
  apply read_retry_bytes in Hrr; [|exact Hreq|exact Hall].
  destruct Hrr as (pre1 & Hpre1 & Hcat1 & Hgot).
  assert (Hall1 : Forall (fun c => zlen c <= 1) (reads st1)).
  { rewrite Hpre1 in Hall. apply Forall_app in Hall. apply Hall. }
  destruct r as [got|]; cbn [default] in Hcat1; unfold id in Hcat1.
  2:{ destruct (_abort s w UPDATE_ERROR_STREAM).
      intros [= <- _ _ _]. left. lia. }
  rewrite Hgot.
  assert (Hg1 : ztake 1 (zdrop 0 got) = got).
  { unfold zdrop. change (Z.to_nat 0) with 0%nat. rewrite drop_0.
    apply ztake_all. lia. }
  pose proof (accepted_append B N cmd s w got 0 1 Hacc ltac:(lia) ltac:(lia)
                ltac:(lia) ltac:(unfold SPI_FLASH_SEC_SIZE in *; lia)
                ltac:(lia)) as Hacc1.
  pose proof (recorded_append B N cmd s w got 0 1 Hacc Hrec) as Hrec1.
  rewrite Hg1 in Hacc1, Hrec1.
  set (s1 := buffer_append s got 0 1) in *.
  assert (Hb1 : _bufferLen s1 = _bufferLen s + 1).
  { subst s1. unfold buffer_append. st_simpl. apply wrap_small.
    unfold SPI_FLASH_SEC_SIZE, SIZE_MOD in *. lia. }
  assert (Hp1 : _progress s1 = _progress s) by reflexivity.
  assert (Hw1 : wrap (written + 1) = zlen (B ++ got)).
  { rewrite zlen_app, Hgot, Hwr. apply wrap_small.
    pose proof (zlen_nonneg B). unfold SIZE_MOD in *. lia. }
  rewrite Hw1. rewrite (accepted_remaining _ _ _ _ _ Hacc1), Hb1, Hp1.
  assert (Hnext : forall s2 w2,
            accepted (B ++ got) N cmd s2 w2 -> recorded (B ++ got) s2 ->
            _bufferLen s2 < SPI_FLASH_SEC_SIZE ->
            _progress s2 + _bufferLen s2 < N
            \/ (_bufferLen s2 = 0 /\ _progress s2 = N) ->
            stream_loop E fuel (zlen (B ++ got)) st1 s2 w2
            = Some (n, s', w', st') ->
            n < N
            \/ (n = N
                /\ exists pre,
                     reads st = pre ++ reads st'
                     /\ accepted (B ++ concat pre) N cmd s' w'
                     /\ recorded (B ++ concat pre) s'
                     /\ _bufferLen s' = 0 /\ _progress s' = N)).
  { intros s2 w2 Ha2 Hr2 Hb2 Hi2 Hres.
    apply (IH _ _ _ _ (B ++ got)) in Hres; try assumption; [|reflexivity].
    destruct Hres as [Hres|(Hn & pre2 & Hpre2 & Ha3 & Hr3 & Hb3 & Hp3)];
      [left; exact Hres|].
    right. split; [exact Hn|]. exists (pre1 ++ pre2).
    rewrite concat_app, Hcat1, app_assoc.
    split; [rewrite Hpre1, Hpre2, app_assoc; reflexivity|auto]. }
  destruct ((_bufferLen s + 1 =? N - _progress s)
            || (_bufferLen s + 1 =? SPI_FLASH_SEC_SIZE)) eqn:Hfl.
  - destruct (_writeBuffer E s1 w) as [[[|] s2] w2] eqn:Hwb.
    + pose proof (recorded_flush E _ _ _ _ _ _ _ Hacc1 Hrec1 Hwb) as Hrec2.
      apply (accepted_flush E (B ++ got) N cmd) in Hwb; [|exact Hacc1].
      destruct Hwb as (Hacc2 & Hbl2 & Hp2).
      apply Hnext; try assumption.
      * rewrite Hbl2. unfold SPI_FLASH_SEC_SIZE. lia.
      * rewrite Hbl2, Hp2.
        pose proof (acc_le _ _ _ _ _ Hacc2) as Hle2.
        destruct (decide (zlen (B ++ got) = N)); [right; auto|left; lia].
    + intros [= <- _ _ _]. left. lia.
  - apply orb_false_iff in Hfl. destruct Hfl as [Hf1 Hf2].
    apply Hnext; try assumption; [lia|left; lia].
Qed.

(** X12: the round trip of stream ingestion, for a stream that delivers
    at most one byte per read: when [writeStream] returns the declared
    size and [end] succeeds, the target partition starts with the bytes
    the stream has delivered (firmware target, or data target without a
    verification key). *)
Theorem writeStream_roundtrip (E : Env) (size cmd ledPin ledOn : Z)
    (label : option string) (data : Stream) (evenIfRemaining : bool)
    (s0 : UpdateClass) (w0 : World) (s1 : UpdateClass) (w1 : World)
    (s2 : UpdateClass) (w2 : World) (st' : Stream)
    (s3 : UpdateClass) (w3 : World) :
  (forall q c, contents w0 q = Some c -> zlen c < SIZE_MOD) ->
  cmd = U_FLASH \/ pubKey_toParse E = None ->
  0 <= size ->
  Forall (fun c => zlen c <= 1) (reads data) ->
  begin E size cmd ledPin ledOn label s0 w0 = (true, s1, w1) ->
  isRunning s1 = true ->
  writeStream E data s1 w1 = Some (_size s1, s2, w2, st') ->
  end_ E evenIfRemaining s2 w2 = (true, s3, w3) ->
  exists pre,
    reads data = pre ++ reads st'
    /\ zlen (concat pre) = _size s1
    /\ ztake (_size s1) (target_contents w3 (_partition s3)) = concat pre.
Proof.
  intros Hsz Hsup H0 Hall Hb Hrun Hws He.
  unfold isRunning in Hrun.
  apply begin_alive in Hb; [|exact Hsz|exact H0|lia].
  destruct Hb as (Hcmd & [Hbad|[Hacc Hset]] & Hrec).
  { unfold writeStream in Hws. rewrite Hbad in Hws. cbn [orb] in Hws.
    injection Hws as Hn _ _ _. lia. }
  set (N := _size s1) in *.
  pose proof (acc_N _ _ _ _ _ Hacc) as HN.
  pose proof (acc_progress _ _ _ _ _ Hacc) as Hp.
  pose proof (acc_bufferLen _ _ _ _ _ Hacc) as Hbl.
  pose proof (acc_len _ _ _ _ _ Hacc) as Hl.
  change (zlen []) with 0 in Hl.
  assert (Hloop : stream_loop E (S (length (reads data))) 0 data s1 w1
                  = Some (N, s2, w2, st')).
  { unfold writeStream in Hws.
    destruct (_ || _); [injection Hws as Hn _ _ _; lia|].
    unfold _verifyHeader in Hws.
    destruct (_command s1 =? U_FLASH).
    - destruct (negb _); [|exact Hws].
      destruct (_abort s1 w1 UPDATE_ERROR_MAGIC_BYTE) as [sa wa].
      destruct (_reset sa wa). injection Hws as Hn _ _ _. lia.
    - destruct (_command s1 =? U_SPIFFS); [exact Hws|].
      destruct (_reset s1 w1). injection Hws as Hn _ _ _. lia. }
  apply (stream_loop_bytes E N cmd _ _ _ _ _ []) in Hloop;
    try assumption; try reflexivity;
    [|unfold SPI_FLASH_SEC_SIZE; lia|left; lia].
  destruct Hloop as [Hlt|(_ & pre & Hpre & Hacc2 & Hrec2 & Hbl2 & Hp2)]; [lia|].
  cbn [app] in Hacc2, Hrec2.
  pose proof (acc_len _ _ _ _ _ Hacc2) as Hl2.
  exists pre. split; [exact Hpre|].
  assert (HlenN : zlen (concat pre) = N) by lia.
  split; [exact HlenN|].
  destruct (end_reaches_verify E _ _ _ _ _ _ _ _ Hacc2 Hrec2 He (or_introl Hbl2))
    as (t & w & Hv & Hready & _).
  rewrite <- HlenN.
  apply (end_verify_installs E _ cmd t w s3 w3 Hready); [|exact Hv].
  destruct Hsup as [Hcf|Hk]; [left; exact Hcf|].
  destruct Hcmd as [Hcf|Hcs]; [left; exact Hcf|right; auto].
Qed.

(** ** The text of the signature *)

Lemma hex_digit_hex_char upper d :
  0 <= d < 16 ->
  hex_digit (hex_char upper d) = Some d
  /\ is_space (hex_char upper d) = false
  /\ sign_of (hex_char upper d) = None.
Proof.
  intros H.
  assert (Hd : d = 0 \/ d = 1 \/ d = 2 \/ d = 3 \/ d = 4 \/ d = 5 \/ d = 6
               \/ d = 7 \/ d = 8 \/ d = 9 \/ d = 10 \/ d = 11 \/ d = 12
               \/ d = 13 \/ d = 14 \/ d = 15) by lia.
  destruct upper;
    repeat (destruct Hd as [->|Hd]; [vm_compute; auto|]);
    subst d; vm_compute; auto.
Qed.

Lemma scan_hex2_to_hex upper b rest :
  0 <= b < 256 -> scan_hex2 (to_hex upper (b :: rest)) = b.
Proof.
  intros H. unfold scan_hex2. cbn [to_hex skip_space].
  assert (Hq : 0 <= b / 16 < 16)
    by (split; [apply Z.div_pos; lia|apply Z.div_lt_upper_bound; lia]).
  assert (Hr : 0 <= b mod 16 < 16) by (apply Z.mod_pos_bound; lia).
  destruct (hex_digit_hex_char upper (b / 16) Hq) as (Hx & Hsp & Hsg).
  destruct (hex_digit_hex_char upper (b mod 16) Hr) as (Hy & _ & _).
  rewrite Hsp, Hsg, Hx, Hy.
  pose proof (Z.div_mod b 16). lia.
Qed.

Lemma length_to_hex upper bytes :
  String.length (to_hex upper bytes) = (2 * length bytes)%nat.
Proof.
  induction bytes as [|b bytes IH]; [reflexivity|].
  cbn [to_hex String.length length]. rewrite IH. lia.
Qed.

Lemma charsToBytes_reads_hex upper bytes :
  Forall (fun b => 0 <= b < 256) bytes ->
  charsToBytes (to_hex upper bytes) (length bytes) = bytes.
Proof.
  intros H. induction H as [|b bytes Hb H IH]; [reflexivity|].
  cbn [length charsToBytes]. rewrite scan_hex2_to_hex by exact Hb.
  cbn [to_hex]. rewrite IH. reflexivity.
Qed.

Lemma half_length_to_hex upper bytes :
  (String.length (to_hex upper bytes) / 2)%nat = length bytes.
Proof. rewrite length_to_hex, Nat.mul_comm. apply Nat.div_mul. lia. Qed.

(** X20: [charsToBytes] reads back the bytes of a text of two hexadecimal
    digits per byte, in lower or in upper case; half the length of the
    text is the number of the bytes. *)
Theorem charsToBytes_to_hex (upper : bool) (bytes : list Z) :
  Forall (fun b => 0 <= b < 256) bytes ->
  charsToBytes (to_hex upper bytes) (length bytes) = bytes
  /\ (String.length (to_hex upper bytes) / 2)%nat = length bytes.
Proof.
  intros H. split; [apply charsToBytes_reads_hex, H|apply half_length_to_hex].
Qed.

(** X21: the signature check hands to the verifier the bytes whose
    hexadecimal text [setSignature] was given and the first 32 bytes of
    the digest of the partition, and returns what the verifier answers,
    once the stash is written back, the digest computed and the key
    parsed. *)
Theorem signature_bytes_reach_verifier (E : Env) (upper : bool)
    (bytes : list Z) (key : string) (digest : list Z)
    (s : UpdateClass) (w w1 : World) :
  Forall (fun b => 0 <= b < 256) bytes ->
  pubKey_toParse E = Some key ->
  pk_parse_ok E key = true ->
  let s' := snd (setSignature (to_hex upper bytes) s) in
  _enablePartition E s' w = (true, w1) ->
  sha256 E (now w1) (target_contents w1 (_partition s')) = Some digest ->
  fst (fst (_signatureValid E s' w))
  = pk_verify_ok E key (ztake 32 digest) bytes.
Proof.
  intros Hb Hkey Hparse s' Hen Hsha. subst s'.
  pose proof (charsToBytes_reads_hex upper bytes Hb) as Hc.
  pose proof (half_length_to_hex upper bytes) as Hl.
  unfold _signatureValid. rewrite Hen. cbn [negb]. rewrite Hsha, Hkey.
  cbn [default]. unfold id. rewrite Hparse. cbn [negb].
  unfold setSignature. st_simpl. rewrite Hl, Hc.
  destruct (pk_verify_ok E key (ztake 32 digest) bytes); cbn [negb].
  - reflexivity.
  - match goal with
    | |- context [_abort ?s ?w ?e] => rewrite (abort_eta s w e)
    end. reflexivity.
Qed.

(** ** The errors each operation can raise *)

Lemma raises_refl allowed s : raises allowed s s.
Proof. left. auto. Qed.

Lemma writeBuffer_raises (E : Env) s w r s' w' :
  _writeBuffer E s w = (r, s', w') ->
  (_error s' = _error s /\ _command s' = _command s)
  \/ (r = false /\ flush_error_of (_command s) (_error s') /\ idle s'
      /\ _command s' = U_FLASH).
Proof.
  intros H. unfold _writeBuffer, stash_first_block, _abort, _reset in H.
  unfold flush_error_of, idle.
  split_branches; simplify_eq; st_simpl;
    first [ left; split; reflexivity
          | right; split; [reflexivity|]; split;
            [|repeat split; reflexivity];
            first [ left; reflexivity
                  | right; left; reflexivity
                  | right; right; split; [reflexivity|];
                    match goal with
                    | H : (_ && (_command s =? U_FLASH)) = true |- _ =>
                        apply andb_true_iff in H; lia
                    end ] ].
Qed.

Lemma abort_raises (allowed : update_error -> Prop) s w e :
  allowed e -> raises allowed s (fst (_abort s w e)).
Proof.
  intros H. right. split; [rewrite abort_error; exact H|apply abort_idle].
Qed.

Lemma write_loop_raises (E : Env) cmd fuel data len left_ s w res :
  _command s = cmd ->
  write_loop E fuel data len left_ s w = Some res ->
  match res with
  | inl (_, s', _) => raises (flush_error_of cmd) s s'
  | inr (_, s', _) => _error s' = _error s /\ _command s' = _command s
  end.
Proof.
  revert left_ s w. induction fuel as [|fuel IH]; intros left_ s w Hcmd;
    cbn [write_loop]; destruct (_ >? _); try discriminate;
    try (intros [= <-]; auto).
  set (s1 := buffer_append s data _ _).
  assert (H1 : _error s1 = _error s /\ _command s1 = _command s)
    by (subst s1; unfold buffer_append; st_simpl; auto).
  destruct H1 as [He1 Hc1].
  destruct (_writeBuffer E s1 w) as [[[|] s2] w2] eqn:Hwb;
    apply writeBuffer_raises in Hwb;
    destruct Hwb as [[He2 Hc2]|(Hr & Hf & Hi & _)]; try discriminate.
  - intros Hres. apply IH in Hres; [|congruence].
    destruct res as [[[n s'] w']|[[l s'] w']].
    + destruct Hres as [[He3 Hc3]|Hres]; [left; split; congruence|right; exact Hres].
    + destruct Hres as [He3 Hc3]. split; congruence.
  - intros [= <-]. left. split; congruence.
  - intros [= <-]. right. rewrite Hc1, Hcmd in Hf. auto.
Qed.

(** X7: [write] leaves the error as it is, or aborts the session with
    NotEnoughSpace, EraseFailed or WriteFailed, or, for a firmware
    session only, WrongMagicByte. *)
Theorem write_error_codes (E : Env) (data : list Z) (s : UpdateClass)
    (w : World) (n : Z) (s' : UpdateClass) (w' : World) :
  write E data s w = Some (n, s', w') ->
  _error s' = _error s
  \/ ((_error s' = UPDATE_ERROR_SPACE
       \/ flush_error_of (_command s) (_error s'))
      /\ idle s').
Proof.
  unfold write. destruct (_ || _); [intros [= _ <- _]; left; reflexivity|].
  destruct (_ >? _).
  { pose proof (abort_error s w UPDATE_ERROR_SPACE) as He.
    pose proof (abort_idle s w UPDATE_ERROR_SPACE) as Hi.
    destruct (_abort s w UPDATE_ERROR_SPACE). st_simpl.
    intros [= _ <- _]. right. auto. }
  destruct (write_loop E _ data _ _ s w) as [res|] eqn:Hloop; [|discriminate].
  apply (write_loop_raises E (_command s)) in Hloop; [|reflexivity].
  destruct res as [[[n1 s1] w1]|[[l s1] w1]].
  { intros [= _ <- _]. destruct Hloop as [[H _]|[H1 H2]]; [left; exact H|right; auto]. }
  destruct Hloop as [He1 Hc1].
  set (s2 := buffer_append s1 data _ _).
  assert (H2 : _error s2 = _error s /\ _command s2 = _command s)
    by (subst s2; unfold buffer_append; st_simpl; auto).
  destruct H2 as [He2 Hc2].
  destruct (_ =? _); [|intros [= _ <- _]; left; exact He2].
  destruct (_writeBuffer E s2 w1) as [[r s3] w3] eqn:Hwb.
  apply writeBuffer_raises in Hwb.
  assert (Hres : _error s3 = _error s
                 \/ ((_error s3 = UPDATE_ERROR_SPACE
                      \/ flush_error_of (_command s) (_error s3)) /\ idle s3)).
  { destruct Hwb as [[He3 _]|(_ & Hf & Hi & _)]; [left; congruence|right].
    rewrite Hc2 in Hf. auto. }
  destruct r; intros [= _ <- _]; exact Hres.
Qed.

Lemma stream_loop_raises (E : Env) cmd fuel written st s w n s' w' st' :
  _command s = cmd ->
  stream_loop E fuel written st s w = Some (n, s', w', st') ->
  raises (fun e => e = UPDATE_ERROR_STREAM \/ flush_error_of cmd e) s s'.
Proof.
  revert written st s w. induction fuel as [|fuel IH]; intros written st s w Hcmd;
    cbn [stream_loop]; destruct (remaining s =? 0); try discriminate;
    try (intros [= _ <- _ _]; apply raises_refl).
  destruct (read_retry 300 0 st _) as [[[got|] st1]|]; [| |discriminate].
  - set (s1 := buffer_append s got 0 (zlen got)).
    assert (H1 : _error s1 = _error s /\ _command s1 = _command s)
      by (subst s1; unfold buffer_append; st_simpl; auto).
    destruct H1 as [He1 Hc1].
    assert (Hrest : forall s2 w2,
              _error s2 = _error s /\ _command s2 = _command s ->
              stream_loop E fuel (wrap (written + zlen got)) st1 s2 w2
              = Some (n, s', w', st') ->
              raises (fun e => e = UPDATE_ERROR_STREAM \/ flush_error_of cmd e)
                     s s').
    { intros s2 w2 [He2 Hc2] Hres. apply IH in Hres; [|congruence].
      destruct Hres as [[He3 Hc3]|Hres]; [left; split; congruence|right; exact Hres]. }
    destruct (_ || _).
    + destruct (_writeBuffer E s1 w) as [[[|] s2] w2] eqn:Hwb;
        apply writeBuffer_raises in Hwb;
        destruct Hwb as [[He2 Hc2]|(Hr & Hf & Hi & _)]; try discriminate.
      * apply Hrest. split; congruence.
      * intros [= _ <- _ _]. left. split; congruence.
      * intros [= _ <- _ _]. right. rewrite Hc1, Hcmd in Hf. auto.
    + apply Hrest. auto.
  - pose proof (abort_error s w UPDATE_ERROR_STREAM) as He.
    pose proof (abort_idle s w UPDATE_ERROR_STREAM) as Hi.
    destruct (_abort s w UPDATE_ERROR_STREAM). st_simpl.
    intros [= _ <- _ _]. right. auto.
Qed.

(** X8: [writeStream] leaves the error as it is, or aborts the session
    with StreamTimeout, EraseFailed or WriteFailed, or, for a firmware
    session only, WrongMagicByte. *)
Theorem writeStream_error_codes (E : Env) (data : Stream) (s : UpdateClass)
    (w : World) (n : Z) (s' : UpdateClass) (w' : World) (st' : Stream) :
  writeStream E data s w = Some (n, s', w', st') ->
  _error s' = _error s
  \/ ((_error s' = UPDATE_ERROR_STREAM
       \/ flush_error_of (_command s) (_error s'))
      /\ idle s').
Proof.
  unfold writeStream. destruct (_ || _); [intros [= _ <- _ _]; left; reflexivity|].
  unfold _verifyHeader.
  assert (Hloop : stream_loop E (S (length (reads data))) 0 data s w
                  = Some (n, s', w', st') ->
                  _error s' = _error s
                  \/ ((_error s' = UPDATE_ERROR_STREAM
                       \/ flush_error_of (_command s) (_error s')) /\ idle s')).
  { intros H. apply (stream_loop_raises E (_command s)) in H; [|reflexivity].
    destruct H as [[H _]|[H1 H2]]; [left; exact H|right; auto]. }
  destruct (_command s =? U_FLASH) eqn:Hcf.
  - destruct (negb _); [|exact Hloop].
    pose proof (abort_error s w UPDATE_ERROR_MAGIC_BYTE) as He.
    pose proof (abort_idle s w UPDATE_ERROR_MAGIC_BYTE) as Hi.
    destruct (_abort s w UPDATE_ERROR_MAGIC_BYTE) as [s1 w1]. st_simpl.
    intros [= _ <- _ _]. right. unfold _reset, idle, flush_error_of in *. st_simpl.
    split; [|tauto]. right. right. right. split; [exact He|lia].
  - destruct (_command s =? U_SPIFFS); [exact Hloop|].
    intros [= _ <- _ _]. left. reflexivity.
Qed.

Lemma verifyEnd_outcome (E : Env) t w r s' w' :
  _command t = U_FLASH \/ _command t = U_SPIFFS ->
  _verifyEnd E t w = (r, s', w') ->
  idle s'
  /\ ((r = true /\ _error s' = _error t)
      \/ (r = false /\ end_error (_error s'))).
Proof.
  intros Hcmd H. unfold _verifyEnd, _abort, _reset in H.
  unfold end_error, idle.
  split_branches; simplify_eq; st_simpl;
    try (exfalso; lia);
    (split; [repeat split; reflexivity|]);
    first [ left; split; reflexivity
          | right; split; [reflexivity|]; tauto ].
Qed.

Lemma end_verify_outcome (E : Env) t w r s' w' :
  _command t = U_FLASH \/ _command t = U_SPIFFS ->
  end_verify E t w = (r, s', w') ->
  idle s'
  /\ ((r = true /\ _error s' = _error t)
      \/ (r = false /\ end_error (_error s'))).
Proof.
  intros Hcmd. unfold end_verify.
  assert (Hab : forall s0 w0 e,
            end_error e ->
            (let '(s1, w1) := _abort s0 w0 e in (false, s1, w1)) = (r, s', w') ->
            idle s'
            /\ ((r = true /\ _error s' = _error t)
                \/ (r = false /\ end_error (_error s')))).
  { intros s0 w0 e He.
    pose proof (abort_error s0 w0 e) as Her.
    pose proof (abort_idle s0 w0 e) as Hi.
    destruct (_abort s0 w0 e). st_simpl. intros [= <- <- <-].
    split; [exact Hi|]. right. rewrite Her. auto. }
  destruct (_ && _).
  { apply Hab. unfold end_error. tauto. }
  destruct (pubKey_toParse E); [|apply verifyEnd_outcome, Hcmd].
  destruct (_signatureValid E t _) as [[[|] t1] w1] eqn:Hsv.
  - apply signatureValid_ok in Hsv. destruct Hsv as [-> _].
    apply verifyEnd_outcome, Hcmd.
  - apply Hab. unfold end_error. tauto.
Qed.

(** X6: [end] on a running session without a sticky error always leaves
    the engine idle.  When it returns [false] the error is one of Aborted,
    HashMismatch (MD5), SignatureVerificationFailed, ReadFailed and
    ActivateFailed: the codes the signature check sets on its way are
    never the ones left.  When it returns [true] there is no error, or
    the error of a flush of [end(true)] that failed. *)
Theorem end_error_codes (E : Env) (b : bool) (s : UpdateClass) (w : World)
    (r : bool) (s' : UpdateClass) (w' : World) :
  hasError s = false ->
  isRunning s = true ->
  _command s = U_FLASH \/ _command s = U_SPIFFS ->
  end_ E b s w = (r, s', w') ->
  idle s'
  /\ ((r = true
       /\ (_error s' = UPDATE_ERROR_OK
           \/ (b = true /\ flush_error_of (_command s) (_error s'))))
      \/ (r = false /\ end_error (_error s'))).
Proof.
  intros Hok Hrun Hcmd. unfold end_. rewrite Hok.
  unfold isRunning in Hrun.
  destruct (_size s =? 0) eqn:Hs0; [lia|]. cbn [orb].
  apply hasError_false in Hok.
  destruct (_ && _).
  { pose proof (abort_error s w UPDATE_ERROR_ABORT) as Her.
    pose proof (abort_idle s w UPDATE_ERROR_ABORT) as Hi.
    destruct (_abort s w UPDATE_ERROR_ABORT). st_simpl. intros [= <- <- <-].
    split; [exact Hi|]. right. rewrite Her. unfold end_error. tauto. }
  assert (Hfl : (_error (fst (end_flush E b s w)) = UPDATE_ERROR_OK
                 \/ (b = true
                     /\ flush_error_of (_command s)
                          (_error (fst (end_flush E b s w)))))
                /\ (_command (fst (end_flush E b s w)) = U_FLASH
                    \/ _command (fst (end_flush E b s w)) = U_SPIFFS)).
  { unfold end_flush. destruct b; [|st_simpl; auto].
    destruct (_bufferLen s >? 0); [|st_simpl; auto].
    destruct (_writeBuffer E s w) as [[r1 s1] w1] eqn:Hwb.
    apply writeBuffer_raises in Hwb. st_simpl.
    destruct Hwb as [[He Hc]|(_ & Hf & Hi & Hcf)].
    - split; [left; congruence|]. rewrite Hc. exact Hcmd.
    - split; [right; auto|left; exact Hcf]. }
  destruct (end_flush E b s w) as [t w1]. st_simpl.
  destruct Hfl as [Herr Hct].
  intros Hv. apply end_verify_outcome in Hv; [|exact Hct].
  destruct Hv as (Hi & [(-> & He)|(-> & He)]).
  - split; [exact Hi|]. left. split; [reflexivity|]. rewrite He. exact Herr.
  - split; [exact Hi|]. right. auto.
Qed.

(** ** Instances of the further properties *)

(** The partitions of [w0] are smaller than 4 GiB. *)
Ltac w0_sizes :=
  let q := fresh "q" in
  let c := fresh "c" in
  let Hc := fresh "Hc" in
  intros q c Hc; destruct q; vm_compute in Hc; try discriminate;
  apply (inj Some) in Hc; subst c; vm_compute; reflexivity.

(** Prove the first conjunct by evaluation and keep it as [H]. *)
Ltac evaluate H :=
  match goal with
  | |- ?P /\ _ => assert (H : P) by (vm_compute; reflexivity); split; [exact H|]
  end.

Lemma begin_clears_hash_keeps_signature_witness :
  _target_md5
    (snd (fst (begin okE 20 U_FLASH (-1) 0 None
                 (snd (setSignature "0a0b"
                         (snd (setMD5 "d41d8cd98f00b204e9800998ecf8427e"
                                 UpdateClass_new)))) w0)))
  = EmptyString
  /\ _target_signature
       (snd (fst (begin okE 20 U_FLASH (-1) 0 None
                    (snd (setSignature "0a0b"
                            (snd (setMD5 "d41d8cd98f00b204e9800998ecf8427e"
                                    UpdateClass_new)))) w0)))
     = "0a0b"%string
  /\ _target_signature_lenght
       (snd (fst (begin okE 20 U_FLASH (-1) 0 None
                    (snd (setSignature "0a0b"
                            (snd (setMD5 "d41d8cd98f00b204e9800998ecf8427e"
                                    UpdateClass_new)))) w0)))
     = Z.of_nat (String.length "0a0b").
Proof.
  apply (begin_clears_hash_keeps_signature okE 20 U_FLASH (-1) 0 None
           "d41d8cd98f00b204e9800998ecf8427e" "0a0b" UpdateClass_new w0).
  reflexivity.
Defined.

Lemma end_boot_selection_witness :
  exists s w s' w',
    session okE 20 U_FLASH [img20] UpdateClass_new w0 = Some (s, w)
    /\ end_ okE false s w = (true, s', w')
    /\ boot_target w' = _partition s
    /\ first_byte s' w' = ESP_IMAGE_HEADER_MAGIC.
Proof.
  do 4 eexists. evaluate H1. evaluate H2.
  exact (proj1 (proj2 (proj2 (end_boot_selection okE false _ _ true _ _ H2)))
           eq_refl eq_refl).
Defined.

Lemma end_error_codes_witness :
  exists s w s' w',
    session badSigE 20 U_FLASH [img20] UpdateClass_new w0 = Some (s, w)
    /\ end_ badSigE false s w = (false, s', w')
    /\ idle s'
    /\ ((false = true
         /\ (_error s' = UPDATE_ERROR_OK
             \/ (false = true /\ flush_error_of (_command s) (_error s'))))
        \/ (false = false /\ end_error (_error s'))).
Proof.
  do 4 eexists. evaluate H1. evaluate H2.
  refine (end_error_codes badSigE false _ _ false _ _ _ _ _ H2).
  - vm_compute; reflexivity.
  - vm_compute; reflexivity.
  - left; vm_compute; reflexivity.
Defined.

Lemma write_error_codes_witness :
  exists s w s' w',
    session okE 20 U_FLASH [] UpdateClass_new w0 = Some (s, w)
    /\ write okE data20 s w = Some (0, s', w')
    /\ (_error s' = _error s
        \/ ((_error s' = UPDATE_ERROR_SPACE
             \/ flush_error_of (_command s) (_error s'))
            /\ idle s')).
Proof.
  do 4 eexists. evaluate H1. evaluate H2.
  exact (write_error_codes okE data20 _ _ 0 _ _ H2).
Defined.

Lemma writeStream_error_codes_witness :
  exists s w s' w' st',
    session okE 20 U_FLASH [] UpdateClass_new w0 = Some (s, w)
    /\ writeStream okE (mkStream 233 [take 7 img20]) s w
       = Some (7, s', w', st')
    /\ (_error s' = _error s
        \/ ((_error s' = UPDATE_ERROR_STREAM
             \/ flush_error_of (_command s) (_error s'))
            /\ idle s')).
Proof.
  do 5 eexists. evaluate H1. evaluate H2.
  exact (writeStream_error_codes okE _ _ _ 7 _ _ _ H2).
Defined.

Lemma end_true_installs_written_witness :
  exists s1 w1 s2 w2 s3 w3,
    begin okE UPDATE_SIZE_UNKNOWN U_SPIFFS (-1) 0 None UpdateClass_new w0
    = (true, s1, w1)
    /\ write_chunks okE [take 7 data20; drop 7 data20] s1 w1 = Some (s2, w2)
    /\ end_ okE true s2 w2 = (true, s3, w3)
    /\ ztake (zlen (concat [take 7 data20; drop 7 data20]))
             (target_contents w3 (_partition s3))
       = concat [take 7 data20; drop 7 data20].
Proof.
  assert (Hsz : forall q c, contents w0 q = Some c -> zlen c < SIZE_MOD)
    by w0_sizes.
  do 6 eexists. evaluate H1. evaluate H2. evaluate H3.
  refine (end_true_installs_written okE UPDATE_SIZE_UNKNOWN U_SPIFFS (-1) 0 None
            [take 7 data20; drop 7 data20] UpdateClass_new w0 _ _ _ _ _ _
            _ _ _ H1 _ H2 H3 _).
  - exact Hsz.
  - right; reflexivity.
  - vm_compute; discriminate.
  - vm_compute; discriminate.
  - vm_compute; reflexivity.
Defined.


Lemma writeStream_roundtrip_witness :
  exists s1 w1 s2 w2 st' s3 w3,
    begin okE 20 U_FLASH (-1) 0 None UpdateClass_new w0 = (true, s1, w1)
    /\ writeStream okE (mkStream 233 ((fun b => [b]) <$> img20)) s1 w1
       = Some (20, s2, w2, st')
    /\ end_ okE false s2 w2 = (true, s3, w3)
    /\ exists pre,
         (fun b => [b]) <$> img20 = pre ++ reads st'
         /\ zlen (concat pre) = 20
         /\ ztake 20 (target_contents w3 (_partition s3)) = concat pre.
Proof.
  assert (Hsz : forall q c, contents w0 q = Some c -> zlen c < SIZE_MOD)
    by w0_sizes.
  do 7 eexists. evaluate H1. evaluate H2. evaluate H3.
  refine (writeStream_roundtrip okE 20 U_FLASH (-1) 0 None
            (mkStream 233 ((fun b => [b]) <$> img20)) false
            UpdateClass_new w0 _ _ _ _ _ _ _ _ _ _ _ H1 _ H2 H3).
  - exact Hsz.
  - left; reflexivity.
  - vm_compute; discriminate.
  - repeat (constructor; [vm_compute; discriminate|]). constructor.
  - vm_compute; reflexivity.
Defined.

Lemma end_before_completion_aborts_witness :
  exists s1 w1 s2 w2,
    begin okE 20 U_FLASH (-1) 0 None UpdateClass_new w0 = (true, s1, w1)
    /\ write_chunks okE [take 7 img20] s1 w1 = Some (s2, w2)
    /\ exists s3 w3,
         end_ okE false s2 w2 = (false, s3, w3)
         /\ _error s3 = UPDATE_ERROR_ABORT
         /\ idle s3
         /\ boot_target w3 = boot_target w2
         /\ forall q, contents w3 q = contents w2 q.
Proof.
  assert (Hsz : forall q c, contents w0 q = Some c -> zlen c < SIZE_MOD)
    by w0_sizes.
  do 4 eexists. evaluate H1. evaluate H2.
  refine (end_before_completion_aborts okE 20 U_FLASH (-1) 0 None
            [take 7 img20] UpdateClass_new w0 _ _ _ _ _ _ H1 H2 _ _).
  - exact Hsz.
  - vm_compute; discriminate.
  - vm_compute; reflexivity.
  - vm_compute; reflexivity.
Defined.

Lemma write_rejects_wrong_magic_witness :
  exists s1 w1,
    begin okE 20 U_FLASH (-1) 0 None UpdateClass_new w0 = (true, s1, w1)
    /\ exists s3 w3,
         write okE data20 s1 w1 = Some (0, s3, w3)
         /\ _error s3 = UPDATE_ERROR_MAGIC_BYTE
         /\ idle s3
         /\ forall q, contents w3 q = contents w1 q.
Proof.
  assert (Hsz : forall q c, contents w0 q = Some c -> zlen c < SIZE_MOD)
    by w0_sizes.
  do 2 eexists. evaluate H1.
  refine (write_rejects_wrong_magic okE 20 (-1) 0 None [] data20
            UpdateClass_new w0 _ _ _ _ _ _ H1 eq_refl _ _ _ _ _).
  - exact Hsz.
  - vm_compute; discriminate.
  - vm_compute; reflexivity.
  - discriminate.
  - vm_compute; discriminate.
  - left; vm_compute; reflexivity.
  - vm_compute; discriminate.
Defined.

Lemma write_rejects_short_firmware_witness :
  exists s1 w1,
    begin okE 10 U_FLASH (-1) 0 None UpdateClass_new w0 = (true, s1, w1)
    /\ exists s3 w3,
         write okE (take 10 img20) s1 w1 = Some (0, s3, w3)
         /\ _progress s3 = 0
         /\ ((flush_error (_error s3) /\ idle s3)
             \/ (_error s3 = UPDATE_ERROR_OK /\ _skipBuffer s3 = None)).
Proof.
  assert (Hsz : forall q c, contents w0 q = Some c -> zlen c < SIZE_MOD)
    by w0_sizes.
  do 2 eexists. evaluate H1.
  refine (write_rejects_short_firmware okE 10 (-1) 0 None [] (take 10 img20)
            UpdateClass_new w0 _ _ _ _ _ _ H1 eq_refl _ _ _).
  - exact Hsz.
  - split; vm_compute; [discriminate|reflexivity].
  - vm_compute; reflexivity.
  - discriminate.
  - vm_compute; reflexivity.
Defined.

Lemma empty_write_after_completion_witness :
  exists s1 w1 s2 w2,
    begin okE 20 U_SPIFFS (-1) 0 None UpdateClass_new w0 = (true, s1, w1)
    /\ write_chunks okE [data20] s1 w1 = Some (s2, w2)
    /\ exists s3 w3,
         write okE [] s2 w2 = Some (0, s3, w3)
         /\ In (EErase (_size s1) SPI_FLASH_SEC_SIZE) (trace w3)
         /\ (partition_size w2 (_partition s2) < _size s1 + SPI_FLASH_SEC_SIZE ->
             _error s3 = UPDATE_ERROR_ERASE /\ idle s3).
Proof.
  assert (Hsz : forall q c, contents w0 q = Some c -> zlen c < SIZE_MOD)
    by w0_sizes.
  do 4 eexists. evaluate H1. evaluate H2.
  refine (empty_write_after_completion okE 20 U_SPIFFS (-1) 0 None [data20]
            UpdateClass_new w0 _ _ _ _ _ _ H1 H2 _ _ _).
  - exact Hsz.
  - vm_compute; discriminate.
  - vm_compute; reflexivity.
  - vm_compute; discriminate.
  - vm_compute; reflexivity.
Defined.

Lemma rollBack_switches_to_bootable_witness :
  exists s w s' w' w'',
    session okE 20 U_FLASH [img20] UpdateClass_new w0 = Some (s, w)
    /\ end_ okE false s w = (true, s', w')
    /\ rollBack okE s' w' = (true, w'')
    /\ _buffer s' = None
    /\ fst (canRollBack okE s' w') = true
    /\ boot_target w'' = Some P_OTA
    /\ byte_at (target_contents w' (Some P_OTA)) 0 = ESP_IMAGE_HEADER_MAGIC
    /\ forall q, contents w'' q = contents w' q.
Proof.
  do 5 eexists. evaluate H1. evaluate H2. evaluate H3.
  exact (rollBack_switches_to_bootable okE _ _ _ H3).
Defined.

Lemma charsToBytes_to_hex_witness :
  charsToBytes (to_hex false [0; 171; 255]) (length ([0; 171; 255] : list Z))
  = [0; 171; 255]
  /\ (String.length (to_hex false [0; 171; 255]%Z) / 2)%nat
     = length ([0; 171; 255] : list Z).
Proof.
  apply (charsToBytes_to_hex false [0; 171; 255]).
  repeat (constructor; [lia|]). constructor.
Defined.

Lemma signature_bytes_reach_verifier_witness :
  exists s w w1,
    session keyE 20 U_FLASH [img20] UpdateClass_new w0 = Some (s, w)
    /\ _enablePartition keyE (snd (setSignature (to_hex true [1; 2; 254]) s)) w
       = (true, w1)
    /\ fst (fst (_signatureValid keyE
                   (snd (setSignature (to_hex true [1; 2; 254]) s)) w))
       = pk_verify_ok keyE "PUBLIC KEY" (ztake 32 (replicate 32 0)) [1; 2; 254].
Proof.
  do 3 eexists. evaluate H1. evaluate H2.
  refine (signature_bytes_reach_verifier keyE true [1; 2; 254] "PUBLIC KEY"
            (replicate 32 0) _ _ _ _ eq_refl eq_refl H2 _).
  - repeat (constructor; [lia|]). constructor.
  - vm_compute; reflexivity.
Defined.

Lemma flush_reports_progress_witness :
  exists s w s' w',
    session okE 20 U_SPIFFS [take 7 data20] UpdateClass_new w0 = Some (s, w)
    /\ _writeBuffer okE (onProgress true s) w = (true, s', w')
    /\ _progress s' = wrap (_progress s + _bufferLen s)
    /\ exists rest,
         trace w' = EProgress (_progress s') (_size s) :: rest
         /\ (_progress s = 0 -> In (EProgress 0 (_size s)) rest).
Proof.
  do 4 eexists. evaluate H1. evaluate H2.
  exact (proj1 (flush_reports_progress okE _ _) _ _ H2).
Defined.

(** A [write] of one erase block and one byte whose second erase fails: the
    call makes the first flush and then aborts; the first byte, 0 before the
    call, reads as erased after it. *)
Lemma first_block_deferred_witness :
  exists s w n s' w',
    begin (eraseFailE 3) 4097 U_FLASH (-1) 0 None UpdateClass_new w0
    = (true, s, w)
    /\ first_byte s w = 0
    /\ write (eraseFailE 3) img4097 s w = Some (n, s', w')
    /\ _error s' = UPDATE_ERROR_ERASE
    /\ first_byte s' w' = ERASED
    /\ deferred s' w' /\ unexposed s w s' w'.
Proof.
  assert (Hrun : exists s w r,
            begin (eraseFailE 3) 4097 U_FLASH (-1) 0 None UpdateClass_new w0
            = (true, s, w)
            /\ first_byte s w = 0
            /\ write (eraseFailE 3) img4097 s w = Some r
            /\ _error (snd (fst r)) = UPDATE_ERROR_ERASE
            /\ first_byte (snd (fst r)) (snd r) = ERASED
            /\ deferred s w).
  { do 3 eexists. evaluate Hb. evaluate Hf. evaluate Hw. evaluate He.
    evaluate Hfb.
    split; [reflexivity|].
    split; [vm_compute; split; [discriminate|reflexivity]|].
    split; [vm_compute; reflexivity|].
    intros H. exfalso. apply H. reflexivity. }
  destruct Hrun as (s & w & [[n s'] w'] & Hb & Hf & Hw & He & Hfb & Hd).
  exists s, w, n, s', w'.
  destruct (proj1 (proj2 (first_block_deferred (eraseFailE 3) s w Hd)) img4097)
    as (n1 & s1 & w1 & Hw1 & Hd1 & Hu1).
  rewrite Hw in Hw1. injection Hw1 as <- <- <-.
  split; [exact Hb|]. split; [exact Hf|]. split; [exact Hw|].
  split; [exact He|]. split; [exact Hfb|]. split; [exact Hd1|exact Hu1].
Defined.
